(** * Multimodal playlist generation: the WESAD windowing pipeline and the
      audio tagging batch, embedded from the two notebooks

    [BiometricEmotionModels.ipynb] loads a wearable recording, resamples it,
    cuts it into labelled windows and joins every window with a PANAS
    questionnaire row; its next cells mask the windows by condition and
    split them by subject.  [AudioDescriptions.ipynb] maps a worker over a
    list of audio files.  Both are embedded here as executable definitions: Python
    exceptions are an explicit [result] type, NumPy arrays are lists of rows,
    dictionaries are [gmap]s and IEEE doubles are [spec_float]s of the
    Standard Library (precision 53, maximal exponent 1024). *)

From Stdlib Require Import ZArith List Bool Ascii String Lia.
From Stdlib Require Import Floats.SpecFloat.
From stdpp Require Import base tactics option list gmap strings sorting.

Local Open Scope Z_scope.

(** ** Python exceptions *)

(** The exceptions the embedded code can raise, named after the call that
    raises them. *)
Inductive exn : Type :=
| KeyError (key : string)
| IndexError
| ValueError_range_step          (* range() arg 3 must not be zero *)
| ValueError_bincount            (* negative element given to np.bincount *)
| ValueError_argmax              (* argmax of an empty sequence *)
| ValueError_concatenate         (* np.concatenate: empty list or row mismatch *)
| ValueError_resample            (* scipy.signal.resample rejected its input *)
| ValueError_int (lit : string)  (* invalid literal for int() *)
| ValueError_float_to_int        (* int() of a NaN *)
| OverflowError_float_to_int     (* int() of an infinity *)
| RuntimeError_cuda (gpu : Z).   (* torch.cuda.set_device on a missing device *)

Inductive result (A : Type) : Type :=
| Ok (a : A)
| Raise (e : exn).
Arguments Ok {A} a.
Arguments Raise {A} e.

Definition result_bind {A B : Type} (f : A → result B) (m : result A) : result B :=
  match m with
  | Ok a => f a
  | Raise e => Raise e
  end.

#[export] Instance result_mret : MRet result := λ A a, Ok a.
#[export] Instance result_mbind : MBind result := λ A B f m, result_bind f m.

Definition is_Ok {A : Type} (m : result A) : Prop := ∃ a, m = Ok a.

(** [for x in xs: acc = body acc x], stopping at the first exception. *)
Fixpoint for_each {A S : Type} (body : S → A → result S) (xs : list A) (acc : S)
  : result S :=
  match xs with
  | [] => Ok acc
  | x :: rest => acc' ← body acc x; for_each body rest acc'
  end.

(** ** NumPy and built-in helpers used by the windowing code *)

Module Np.

(** [a[i:j]] for [0 <= i <= j]: Python clips a slice at the end of the
    sequence. *)
Definition slice {A : Type} (a : list A) (i j : nat) : list A :=
  take (j - i)%nat (drop i a).

(** [range(0, stop, step)] for a non-negative [step]: the loop counter starts
    at 0 and is advanced by [step] while it is below [stop]; a zero step
    raises.  [stop] is a Python integer and may be negative. *)
Fixpoint range_from (fuel i : nat) (stop : Z) (step : nat) : list nat :=
  match fuel with
  | O => []
  | S fuel' =>
      if Z.of_nat i <? stop
      then i :: range_from fuel' (i + step)%nat stop step
      else []
  end.

Definition range (stop : Z) (step : nat) : result (list nat) :=
  match step with
  | O => Raise ValueError_range_step
  | S _ => Ok (range_from (Z.to_nat stop) 0 stop step)
  end.

(** [np.any(a == 0)] *)
Definition any_eq0 (a : list Z) : bool := existsb (λ v, v =? 0) a.

(** [np.bincount(a)]: one counter per value [0 .. max a], incremented once
    per element; a negative element raises. *)
Definition bincount (a : list Z) : result (list nat) :=
  if existsb (λ v, v <? 0) a then Raise ValueError_bincount
  else
    let size := match a with
                | [] => O
                | _ => S (Z.to_nat (foldr Z.max 0 a))
                end in
    Ok (foldl (λ counts v, alter S (Z.to_nat v) counts) (replicate size O) a).

(** [counts.argmax()]: index of the first occurrence of the maximum; the
    running best is replaced only by a strictly larger entry. *)
Fixpoint argmax_from (best_i best i : nat) (counts : list nat) : nat :=
  match counts with
  | [] => best_i
  | c :: rest =>
      if (best <? c)%nat then argmax_from i c (S i) rest
      else argmax_from best_i best (S i) rest
  end.

Definition argmax (counts : list nat) : result nat :=
  match counts with
  | [] => Raise ValueError_argmax
  | c :: rest => Ok (argmax_from 0 c 1 rest)
  end.

(** The entries of [a] at the positions where [mask] holds. *)
Fixpoint select {A : Type} (a : list A) (mask : list bool) : list A :=
  match a, mask with
  | x :: a', b :: mask' => if b then x :: select a' mask' else select a' mask'
  | _, _ => []
  end.

(** [a[mask]] for a boolean array [mask], along the first axis: the mask
    must be as long as the array. *)
Definition mask_select {A : Type} (a : list A) (mask : list bool) : result (list A) :=
  if (length mask =? length a)%nat then Ok (select a mask) else Raise IndexError.

(** [np.isin(a, test)] *)
Definition isin {A : Type} `{EqDecision A} (a test : list A) : list bool :=
  map (λ x, bool_decide (x ∈ test)) a.

End Np.

(** ** Python strings and floats *)

Module Py.

(** A [string] is a Python [str] whose code points are below 256; [ord]
    gives the code point of a character. *)
Definition ord (c : ascii) : nat := nat_of_ascii c.

Definition between (lo hi n : nat) : bool := ((lo <=? n) && (n <=? hi))%nat.

(** [c.isspace()]: the white-space code points below 256. *)
Definition isspace_char (c : ascii) : bool :=
  between 9 13 (ord c) || between 28 32 (ord c)
  || (ord c =? 133)%nat || (ord c =? 160)%nat.

(** [c.isdecimal()] *)
Definition isdecimal_char (c : ascii) : bool := between 48 57 (ord c).

(** [c.isdigit()]: the decimal digits and the superscripts two, three and
    one (U+00B2, U+00B3, U+00B9), which are digits but not decimals. *)
Definition isdigit_char (c : ascii) : bool :=
  isdecimal_char c || (ord c =? 178)%nat || (ord c =? 179)%nat || (ord c =? 185)%nat.

Fixpoint lstrip (s : string) : string :=
  match s with
  | EmptyString => EmptyString
  | String c r => if isspace_char c then lstrip r else s
  end.

Fixpoint rstrip (s : string) : string :=
  match s with
  | EmptyString => EmptyString
  | String c r =>
      match rstrip r with
      | EmptyString => if isspace_char c then EmptyString else String c EmptyString
      | r' => String c r'
      end
  end.

(** [s.strip()] *)
Definition strip (s : string) : string := rstrip (lstrip s).

Fixpoint str_all (p : ascii → bool) (s : string) : bool :=
  match s with
  | EmptyString => true
  | String c r => p c && str_all p r
  end.

(** [s.isdigit()]: at least one character, and all of them digits. *)
Definition isdigit (s : string) : bool :=
  match s with
  | EmptyString => false
  | _ => str_all isdigit_char s
  end.

(** [s.startswith(prefix)] *)
Definition startswith (s prefix : string) : bool := String.prefix prefix s.

(** [s.endswith(suffix)] *)
Definition endswith (s suffix : string) : bool :=
  (String.length suffix <=? String.length s)%nat
  && String.eqb (substring (String.length s - String.length suffix)
                           (String.length suffix) s) suffix.

(** White space that [int()] skips around a literal: the C-locale blanks,
    and U+0085 and U+00A0, which it first rewrites to a blank.  The
    separators U+001C..U+001F are stripped by [strip] but not by [int]. *)
Definition int_isspace (c : ascii) : bool :=
  between 9 13 (ord c) || (ord c =? 32)%nat || (ord c =? 133)%nat || (ord c =? 160)%nat.

Fixpoint int_lskip (s : string) : string :=
  match s with
  | EmptyString => EmptyString
  | String c r => if int_isspace c then int_lskip r else s
  end.

Definition digit_value (c : ascii) : Z := Z.of_nat (ord c) - 48.

(** The digits of a base-10 literal with single underscores between them:
    returns the value, the number of digits read and the unread rest. *)
Fixpoint int_digits (s : string) (prev_underscore : bool) (ndigits : nat) (acc : Z)
  : option (Z * nat * string) :=
  match s with
  | EmptyString => if prev_underscore then None else Some (acc, ndigits, s)
  | String c r =>
      if isdecimal_char c then int_digits r false (S ndigits) (10 * acc + digit_value c)
      else if Ascii.eqb c "_" then
        if prev_underscore then None else int_digits r true ndigits acc
      else if prev_underscore then None else Some (acc, ndigits, s)
  end.

Definition MAX_STR_DIGITS : nat := 4300.

(** [int(s)] in base 10: blanks, an optional sign, the digits, blanks. *)
Definition int (s : string) : result Z :=
  let body := int_lskip s in
  let negative :=
    match body with
    | String c _ => Ascii.eqb c "-"
    | EmptyString => false
    end in
  let body :=
    match body with
    | String c r => if Ascii.eqb c "+" || Ascii.eqb c "-" then r else body
    | EmptyString => body
    end in
  match int_digits body true 0 0 with       (* a leading underscore is refused *)
  | None => Raise (ValueError_int s)
  | Some (v, ndigits, rest) =>
      if (ndigits =? 0)%nat then Raise (ValueError_int s)
      else if negb (str_all int_isspace rest) then Raise (ValueError_int s)
      else if (MAX_STR_DIGITS <? ndigits)%nat then Raise (ValueError_int s)
      else Ok (if negative then - v else v)
  end.

Fixpoint has_sep (p : string) : bool :=
  match p with
  | EmptyString => false
  | String c r => Ascii.eqb c "/" || has_sep r
  end.

(** [os.path.basename(p)]: what follows the last slash. *)
Fixpoint basename (p : string) : string :=
  match p with
  | EmptyString => EmptyString
  | String c r =>
      if has_sep r then basename r
      else if Ascii.eqb c "/" then r else p
  end.

Fixpoint ends_with_sep (a : string) : bool :=
  match a with
  | EmptyString => false
  | String c EmptyString => Ascii.eqb c "/"
  | String _ r => ends_with_sep r
  end.

(** [os.path.join(a, b)]: [b] alone if it is absolute, else [a] and [b]
    with one slash between them. *)
Definition join (a b : string) : string :=
  match b with
  | String "/" _ => b
  | _ =>
      match a with
      | EmptyString => b
      | _ => if ends_with_sep a then (a ++ b)%string else (a ++ "/" ++ b)%string
      end
  end.

(** [l[i]] on a list: a negative index counts from the end. *)
Definition list_getitem {A : Type} (l : list A) (i : Z) : result A :=
  let j := if i <? 0 then i + Z.of_nat (length l) else i in
  if j <? 0 then Raise IndexError
  else match l !! Z.to_nat j with
       | Some a => Ok a
       | None => Raise IndexError
       end.

(** [d[k]] on a dictionary with string keys. *)
Definition dict_getitem {V : Type} (d : gmap string V) (k : string) : result V :=
  match d !! k with
  | Some v => Ok v
  | None => Raise (KeyError k)
  end.

(** [dict(pairs)]: a later pair overrides an earlier one with the same key. *)
Definition dict {V : Type} (pairs : list (string * V)) : gmap string V :=
  foldl (λ d kv, <[kv.1 := kv.2]> d) ∅ pairs.

(** [a <= b] on strings: the order of the code points, a prefix first. *)
Definition str_le (a b : string) : Prop := String.leb a b = true.

#[export] Instance str_le_dec (a b : string) : Decision (str_le a b) :=
  bool_eq_dec (String.leb a b) true.

(** [sorted(xs)] on strings. *)
Definition sorted (xs : list string) : list string := merge_sort str_le xs.

End Py.

(** IEEE binary64 arithmetic, as Python floats and NumPy float64 have it. *)
Module F64.

Definition prec : Z := 53.
Definition emax : Z := 1024.

(** [float(z)], correctly rounded. *)
Definition of_int (z : Z) : spec_float := binary_normalize prec emax z 0 false.

Definition mul : spec_float → spec_float → spec_float := SFmul prec emax.
Definition div : spec_float → spec_float → spec_float := SFdiv prec emax.
Definition sub : spec_float → spec_float → spec_float := SFsub prec emax.
Definition leb : spec_float → spec_float → bool := SFleb.
Definition ltb : spec_float → spec_float → bool := SFltb.

(** The integer part and the remainder of [m * 2^e] for a positive [m]. *)
Definition split (m : positive) (e : Z) : Z * Z * Z :=
  match e with
  | Zneg p => (Z.shiftr (Zpos m) (Zpos p), Z.land (Zpos m) (Z.ones (Zpos p)), Z.shiftl 1 (Zpos p))
  | _ => (Z.shiftl (Zpos m) e, 0, 1)
  end.

(** [int(x)]: truncation toward zero. *)
Definition to_int (x : spec_float) : result Z :=
  match x with
  | S754_zero _ => Ok 0
  | S754_finite s m e => Ok (cond_Zopp s (split m e).1.1)
  | S754_infinity _ => Raise OverflowError_float_to_int
  | S754_nan => Raise ValueError_float_to_int
  end.

(** [round(x)]: the nearest integer, a tie going to the even one. *)
Definition round (x : spec_float) : result Z :=
  match x with
  | S754_zero _ => Ok 0
  | S754_finite s m e =>
      let '(q, r, d) := split m e in
      let up := match Z.compare (2 * r) d with
                | Lt => false
                | Gt => true
                | Eq => Z.odd q
                end in
      Ok (cond_Zopp s (if up then q + 1 else q))
  | S754_infinity _ => Raise OverflowError_float_to_int
  | S754_nan => Raise ValueError_float_to_int
  end.

End F64.

(** ** BiometricEmotionModels.ipynb *)

Module Biometric.

Definition SAMPLING_RATE_ORIG : Z := 700.
Definition SAMPLING_RATE_TARGET : Z := 4.
Definition WINDOW_SIZE_SEC : Z := 15.
Definition STRIDE_SEC : Z := 5.

Section Windows.
(** A row of the signal matrix; its entries play no part in windowing. *)
Context {Row : Type}.

(** One iteration of the loop of [create_windows]. *)
Definition create_windows_body (X : list Row) (y : list Z) (window_size : nat)
    (acc : list (list Row) * list Z) (i : nat)
  : result (list (list Row) * list Z) :=
  let win_x := Np.slice X i (i + window_size) in
  let win_y := Np.slice y i (i + window_size) in
  if Np.any_eq0 win_y then Ok acc                       (* continue *)
  else
    counts ← Np.bincount win_y;
    majority_label ← Np.argmax counts;
    Ok (acc.1 ++ [win_x], acc.2 ++ [Z.of_nat majority_label]).

Definition create_windows (X : list Row) (y : list Z) (window_size stride : nat)
  : result (list (list Row) * list Z) :=
  idxs ← Np.range (Z.of_nat (length X) - Z.of_nat window_size) stride;
  for_each (create_windows_body X y window_size) idxs ([], []).

(** The call with the default arguments of the notebook. *)
Definition create_windows_default (X : list Row) (y : list Z) :=
  create_windows X y (Z.to_nat (WINDOW_SIZE_SEC * SAMPLING_RATE_TARGET))
                     (Z.to_nat (STRIDE_SEC * SAMPLING_RATE_TARGET)).
End Windows.

(** Maps canonical names to actual keys in the dataset. *)
Definition SIGNAL_MAP : gmap string (gmap string (option string)) :=
  list_to_map
    [ ("EDA",  {[ "chest" := Some "EDA";  "wrist" := Some "EDA" ]});
      ("TEMP", {[ "chest" := Some "Temp"; "wrist" := Some "TEMP" ]});
      ("RESP", {[ "chest" := Some "Resp"; "wrist" := None ]});
      ("ECG",  {[ "chest" := Some "ECG";  "wrist" := None ]});
      ("ACC",  {[ "chest" := Some "ACC";  "wrist" := Some "ACC" ]});
      ("EMG",  {[ "chest" := Some "EMG";  "wrist" := None ]});
      ("BVP",  {[ "chest" := None;        "wrist" := Some "BVP" ]}) ]%string.

(** [np.ndarray] of one or two dimensions, a matrix being a list of rows. *)
Inductive ndarray (F : Type) : Type :=
| Arr1 (v : list F)
| Arr2 (m : list (list F)).
Arguments Arr1 {F} v.
Arguments Arr2 {F} m.

(** The unpickled record: [data['label']] and [data['signal'][part][key]]. *)
Record recording (F : Type) : Type := Recording {
  label : list Z;
  signal : gmap string (gmap string (ndarray F))
}.
Arguments Recording {F} label signal.
Arguments label {F} r.
Arguments signal {F} r.

(** The library calls of [load_and_downsample].  [scipy.signal.resample]
    is not part of the repository: it is taken with the one property its
    documentation gives that the code relies on, that a result has [num]
    samples along the resampled axis; [None] stands for a call that raises. *)
Class SciPy (F : Type) : Type := {
  astype_float : Z → F;                           (* label.astype(float) *)
  round_astype_int : F → Z;                       (* .round().astype(int) *)
  resample : list (list F) → Z → option (list (list F));   (* axis=0 *)
  resample1 : list F → Z → option (list F);
  resample_rows : ∀ x num out, resample x num = Some out → Z.of_nat (length out) = num;
  resample1_len : ∀ x num out, resample1 x num = Some out → Z.of_nat (length out) = num
}.

(** The result of a call to [scipy.signal.resample]. *)
Definition resampled {A : Type} (o : option A) : result A :=
  match o with
  | Some a => Ok a
  | None => Raise ValueError_resample
  end.

(** [int(len(label) * scale)] with [scale = SAMPLING_RATE_TARGET /
    SAMPLING_RATE_ORIG], all in double precision. *)
Definition scale : spec_float :=
  F64.div (F64.of_int SAMPLING_RATE_TARGET) (F64.of_int SAMPLING_RATE_ORIG).

Definition new_len (len_label : Z) : result Z :=
  F64.to_int (F64.mul (F64.of_int len_label) scale).

(** [np.concatenate(ms, axis=1)] on matrices: needs at least one array, and
    all of them with the same number of rows. *)
Definition concatenate_axis1 {F : Type} (ms : list (list (list F)))
  : result (list (list F)) :=
  match ms with
  | [] => Raise ValueError_concatenate
  | m :: rest =>
      if forallb (λ m', (length m' =? length m)%nat) rest
      then Ok (foldl (zip_with app) m rest)
      else Raise ValueError_concatenate
  end.

Section Loader.
Context {F : Type} `{SciPy F}.

(** [source[:, np.newaxis]] when [source.ndim == 1] *)
Definition as_columns (source : ndarray F) : list (list F) :=
  match source with
  | Arr1 v => map (λ x, [x]) v
  | Arr2 m => m
  end.

(** The body of [for part in ['chest', 'wrist']]. *)
Definition load_part (data : recording F) (device : string)
    (sig_key : gmap string (option string)) (num : Z)
    (parts : list (list (list F))) (part : string)
  : result (list (list (list F))) :=
  if bool_decide (device = part) || bool_decide (device = "both"%string) then
    key ← Py.dict_getitem sig_key part;
    match key with
    | None | Some EmptyString => Ok parts          (* falsy: not available *)
    | Some key =>
        by_part ← Py.dict_getitem (signal data) part;
        source ← Py.dict_getitem by_part key;
        s_down ← resampled (resample (as_columns source) num);
        Ok (parts ++ [s_down])
    end
  else Ok parts.

(** The body of [for sig in signals]. *)
Definition load_signal (data : recording F) (device : string) (num : Z)
    (signal_list : list (list (list F))) (sig : string)
  : result (list (list (list F))) :=
  sig_key ← Py.dict_getitem SIGNAL_MAP sig;
  parts ← for_each (load_part data device sig_key num) ["chest"; "wrist"]%string [];
  match parts with
  | [] => Ok signal_list
  | _ => block ← concatenate_axis1 parts; Ok (signal_list ++ [block])
  end.

Definition load_and_downsample (data : recording F) (signals : list string)
    (device : string) : result (list (list F) * list Z) :=
  num ← new_len (Z.of_nat (length (label data)));
  signal_list ← for_each (load_signal data device num) signals [];
  all_signals ← concatenate_axis1 signal_list;
  labels ← resampled (resample1 (map astype_float (label data)) num);
  Ok (all_signals, map round_astype_int labels).
End Loader.

Definition PANAS_ITEMS : list string :=
  [ "Active"; "Distressed"; "Interested"; "Inspired"; "Annoyed"; "Strong"; "Guilty";
    "Scared"; "Hostile"; "Excited"; "Proud"; "Irritable"; "Enthusiastic"; "Ashamed";
    "Alert"; "Nervous"; "Determined"; "Attentive"; "Jittery"; "Afraid"; "Stressed";
    "Frustrated"; "Happy"; "Angry"; "Irritated"; "Sad" ]%string.

Definition TARGET_PANAS : list string :=
  [ "Stressed"; "Angry"; "Happy"; "Sad"; "Inspired"; "Excited"; "Nervous" ]%string.

(** What the notebook prints. *)
Inductive stdout_line : Type :=
| Failed_to_parse_PANAS (quest_path : string) (e : exn)
| Skipping (subject_dir : string)
| Error_loading (subject_dir : string) (e : exn).

(** [r and r[0].startswith('# PANAS')] *)
Definition is_panas_row (r : list string) : bool :=
  match r with
  | [] => false
  | field0 :: _ => Py.startswith field0 "# PANAS"
  end.

(** [[int(val) for val in vals if val.strip().isdigit()]] *)
Fixpoint int_fields (vals : list string) : result (list Z) :=
  match vals with
  | [] => Ok []
  | val :: rest =>
      if Py.isdigit (Py.strip val)
      then n ← Py.int val; ns ← int_fields rest; Ok (n :: ns)
      else int_fields rest
  end.

(** The [try] block for one row: [None] stands for its [continue]. *)
Definition parse_panas_row (row : list string) : result (option (gmap string Z)) :=
  scores ← int_fields (tail row);
  if (length scores <? length PANAS_ITEMS)%nat then Ok None
  else Ok (Some (Py.dict (zip PANAS_ITEMS scores))).

(** The body of [for row in rows]: the score sets and the printed lines
    so far, and what the row adds to them. *)
Definition extract_step (quest_path : string)
    (st : list (gmap string Z) * list stdout_line) (row : list string)
  : list (gmap string Z) * list stdout_line :=
  match parse_panas_row row with
  | Ok (Some d) => (st.1 ++ [d], st.2)
  | Ok None => st                                                  (* continue *)
  | Raise e => (st.1, st.2 ++ [Failed_to_parse_PANAS quest_path e])  (* except *)
  end.

(** [extract_panas_scores] on the rows that [csv.reader(f, delimiter=';')]
    yields; the second component is what the call prints. *)
Definition extract_panas_scores (quest_path : string) (reader : list (list string))
  : list (gmap string Z) * list stdout_line :=
  let rows := filter (λ r, is_panas_row r = true) reader in
  foldl (extract_step quest_path) ([], []) rows.

(** The body of [for label in win_y] in [load_wesad_dataset]; the fallback
    [0.0] and the integer scores meet in one array, so both are written as
    integers here and turned into doubles when the array is rescaled. *)
Definition score_vec (panas_per_condition : list (gmap string Z)) (label : Z)
  : result (list Z) :=
  let condition_idx := label - 1 in
  if Z.of_nat (length panas_per_condition) <=? condition_idx
  then Ok (replicate (length TARGET_PANAS) 0)
  else
    d ← Py.list_getitem panas_per_condition condition_idx;
    for_each (λ vec key, v ← Py.dict_getitem d key; Ok (vec ++ [v])) TARGET_PANAS [].

Definition assign_y_reg (panas_per_condition : list (gmap string Z)) (win_y : list Z)
  : result (list (list Z)) :=
  for_each (λ y_reg label, v ← score_vec panas_per_condition label; Ok (y_reg ++ [v]))
           win_y [].

(** [y_reg = (y_reg - 1) / 4.0], entry by entry. *)
Definition rescale (v : Z) : spec_float :=
  F64.div (F64.sub (F64.of_int v) (F64.of_int 1)) (F64.of_int 4).

Definition rescale_y_reg (y_reg : list (list Z)) : list (list spec_float) :=
  map (map rescale) y_reg.

(** A subject directory: the two files that [load_wesad_dataset] opens,
    when they exist. *)
Record subject (F : Type) : Type := Subject {
  subject_dir : string;
  pkl : option (recording F);
  quest : option (list (list string))
}.
Arguments Subject {F} subject_dir pkl quest.
Arguments subject_dir {F} s.
Arguments pkl {F} s.
Arguments quest {F} s.

Section Dataset.
Context {F : Type} `{SciPy F}.

(** [StandardScaler().fit_transform], a library call, taken as a function
    on matrices. *)
Context (normalize : list (list F) → list (list F)).

(** The [try] block of [load_wesad_dataset] for one subject. *)
Definition load_subject (data : recording F) (quest_path : string)
    (reader : list (list string)) (selected_signals : list string) (device : string)
  : result (list (list (list F)) * list Z * list (list Z)) * list stdout_line :=
  match load_and_downsample data selected_signals device with
  | Raise e => (Raise e, [])
  | Ok (X, y) =>
      match create_windows (normalize X) y
              (Z.to_nat (WINDOW_SIZE_SEC * SAMPLING_RATE_TARGET))
              (Z.to_nat (STRIDE_SEC * SAMPLING_RATE_TARGET)) with
      | Raise e => (Raise e, [])
      | Ok (win_x, win_y) =>
          let '(panas_per_condition, out) := extract_panas_scores quest_path reader in
          (y_reg ← assign_y_reg panas_per_condition win_y; Ok (win_x, win_y, y_reg), out)
      end
  end.

(** [load_wesad_dataset] over [sorted(os.listdir(root_path))]; the four
    result arrays are concatenated subject by subject, which fails on an
    empty list. *)
Definition load_wesad_dataset (root_path : string) (listing : list (subject F))
    (selected_signals : list string) (device : string)
  : result (list (list (list F)) * list Z * list (list Z) * list string)
    * list stdout_line :=
  let '(all_x, all_y_cls, all_y_reg, all_subject_ids, out) :=
    foldl (λ '(all_x, all_y_cls, all_y_reg, all_subject_ids, out) s,
        if negb (Py.startswith (subject_dir s) "S")
        then (all_x, all_y_cls, all_y_reg, all_subject_ids, out)
        else match pkl s, quest s with
             | Some data, Some reader =>
                 let quest_path :=
                   Py.join (Py.join root_path (subject_dir s))
                           (subject_dir s ++ "_quest.csv")%string in
                 match load_subject data quest_path reader selected_signals device with
                 | (Ok (win_x, win_y, y_reg), out') =>
                     (all_x ++ [win_x], all_y_cls ++ [win_y], all_y_reg ++ [y_reg],
                      all_subject_ids ++ [replicate (length win_x) (subject_dir s)],
                      out ++ out')
                 | (Raise e, out') =>
                     (all_x, all_y_cls, all_y_reg, all_subject_ids,
                      out ++ out' ++ [Error_loading (subject_dir s) e])
                 end
             | _, _ =>
                 (all_x, all_y_cls, all_y_reg, all_subject_ids,
                  out ++ [Skipping (subject_dir s)])
             end)
      ([], [], [], [], []) listing in
  match all_x with
  | [] => (Raise ValueError_concatenate, out)
  | _ => (Ok (concat all_x, concat all_y_cls, concat all_y_reg, concat all_subject_ids), out)
  end.
End Dataset.

(** [(y_cls >= 1) & (y_cls <= 4)] *)
Definition valid_mask (y_cls : list Z) : list bool :=
  map (λ l, (1 <=? l) && (l <=? 4)) y_cls.

(** The cell that applies the mask: the windows of the conditions 1 to 4
    with their subjects, the labels moved down by one. *)
Definition apply_masking {Win : Type} (X : list Win) (y_cls : list Z)
    (subject_ids : list string) : result (list Win * list Z * list string) :=
  let valid_mask := valid_mask y_cls in
  X' ← Np.mask_select X valid_mask;
  y_cls' ← Np.mask_select y_cls valid_mask;
  subject_ids' ← Np.mask_select subject_ids valid_mask;
  Ok (X', map (λ l, l - 1) y_cls', subject_ids').

(** [sorted(set(subject_ids))]: the distinct names in the order of their
    code points. *)
Definition unique_subjects (subject_ids : list string) : list string :=
  Py.sorted (remove_dups subject_ids).

(** The subject-level masks and the two sets they select, for the subjects
    that [train_test_split] returned; the classification cells apply it to
    the labels and the regression cell to the score vectors. *)
Definition split_by_subject {Win T : Type} (X : list Win) (y : list T)
    (subject_ids train_subjects val_subjects : list string)
  : result (list Win * list T * (list Win * list T)) :=
  let train_mask := Np.isin subject_ids train_subjects in
  let val_mask := Np.isin subject_ids val_subjects in
  X_train ← Np.mask_select X train_mask;
  y_train ← Np.mask_select y train_mask;
  X_val ← Np.mask_select X val_mask;
  y_val ← Np.mask_select y val_mask;
  Ok (X_train, y_train, (X_val, y_val)).

End Biometric.

(** ** AudioDescriptions.ipynb *)

Module Audio.

Definition AUDIO_DIR : string := "downloads".
Definition SAMPLE_RATE : Z := 48000.
Definition DURATION : Z := 30.
Definition EMBED_SIZE : nat := 512.

(** [[os.path.join(AUDIO_DIR, f) for f in os.listdir(AUDIO_DIR) if f.endswith(".mp3")]] *)
Definition audio_files (listdir : list string) : list string :=
  map (Py.join AUDIO_DIR) (filter (λ f, Py.endswith f ".mp3" = true) listdir).

Definition assign_gpu (index : nat) : Z :=
  if (Z.of_nat index mod 2 =? 0) then 0 else 1.

(** The library calls of [process_audio].  [embedding] stands for the
    statements from [librosa.load] to [emb.mean(axis=0)], and [musicnn_tags]
    for [top_tags] with the conversion of its scores; each may raise.
    OpenL3 is asked for vectors of [EMBED_SIZE] entries and musicnn for its
    top tags, and the two results are taken with these shapes. *)
Class Libs (F : Type) : Type := {
  cuda_set_device : Z → result unit;
  embedding : string → result (list F);
  musicnn_tags : string → result (list (string * F));
  str : exn → string;
  embedding_size : ∀ path emb, embedding path = Ok emb → length emb = EMBED_SIZE;
  musicnn_tags_nonempty : ∀ path tags, musicnn_tags path = Ok tags → tags ≠ []
}.

(** An entry of the result list: [{file, embedding, tags}] or [{file, error}]. *)
Inductive entry (F : Type) : Type :=
| Success (file : string) (emb : list F) (tags : list (string * F))
| Error (file : string) (error : string).
Arguments Success {F} file emb tags.
Arguments Error {F} file error.

Definition file {F : Type} (r : entry F) : string :=
  match r with
  | Success f _ _ => f
  | Error f _ => f
  end.

(** [pool.map(f, xs)]: the results in the order of [xs]; an exception that
    escapes a call is raised again by [map] and no list is returned. *)
Fixpoint pool_map {A B : Type} (f : A → result B) (xs : list A) : result (list B) :=
  match xs with
  | [] => Ok []
  | x :: rest =>
      match f x, pool_map f rest with
      | Ok b, Ok bs => Ok (b :: bs)
      | Raise e, _ => Raise e
      | Ok _, Raise e => Raise e
      end
  end.

Section Pipeline.
Context {F : Type} `{Libs F}.

Definition process_audio (args : string * Z) : result (entry F) :=
  let '(path, gpu_id) := args in
  _ ← cuda_set_device gpu_id;
  let fname := Py.basename path in
  (* try: *)
  match (emb_mean ← embedding path; tags ← musicnn_tags path; Ok (emb_mean, tags)) with
  | Ok (emb_mean, tags) => Ok (Success fname emb_mean tags)
  | Raise e => Ok (Error fname (str e))            (* except Exception as e *)
  end.

(** [[(f, assign_gpu(i)) for i, f in enumerate(audio_files)]] *)
Definition file_gpu_pairs (files : list string) : list (string * Z) :=
  imap (λ i f, (f, assign_gpu i)) files.

Definition results (files : list string) : result (list (entry F)) :=
  pool_map process_audio (file_gpu_pairs files).
End Pipeline.

End Audio.

(** ** Vocabulary of the statements *)

(** How often [v] occurs in [a]. *)
Definition count (v : Z) (a : list Z) : nat := length (filter (λ x, x = v) a).

(** [l] is the mode of [win], the smallest one if several values are
    equally frequent. *)
Definition is_mode (l : Z) (win : list Z) : Prop :=
  l ∈ win ∧ (∀ v, (count v win ≤ count l win)%nat)
  ∧ (∀ v, count v win = count l win → l ≤ v).

(** The start indices that the loop of [create_windows] visits. *)
Definition candidates (len_X window_size stride : nat) : list nat :=
  Np.range_from (Z.to_nat (Z.of_nat len_X - Z.of_nat window_size)) 0
                (Z.of_nat len_X - Z.of_nat window_size) stride.

(** The per-sample labels of the window that starts at [i]. *)
Definition window_labels (y : list Z) (window_size i : nat) : list Z :=
  Np.slice y i (i + window_size).

(** The visited start indices whose window holds no sentinel label. *)
Definition kept (y : list Z) (window_size : nat) (idxs : list nat) : list nat :=
  filter (λ i, 0 ∉ window_labels y window_size i) idxs.

(** What the entry of [path] is: it carries the base name of the path, and
    it is a success entry with the two results of the guarded block, or an
    error entry with the text of the exception that the block raised. *)
Definition entry_for {F : Type} `{Audio.Libs F} (path : string) (r : Audio.entry F) : Prop :=
  Audio.file r = Py.basename path
  ∧ match r with
    | Audio.Success _ emb tags =>
        Audio.embedding path = Ok emb ∧ Audio.musicnn_tags path = Ok tags
        ∧ length emb = 512%nat ∧ tags ≠ []
    | Audio.Error _ msg =>
        ∃ e, msg = Audio.str e
             ∧ (Audio.embedding path = Raise e
                ∨ (is_Ok (Audio.embedding path) ∧ Audio.musicnn_tags path = Raise e))
    end.

(** The source key of a channel on a part, when the device selects the
    part and the channel is available there. *)
Definition part_key (device : string) (sig_key : gmap string (option string))
    (part : string) : option string :=
  if bool_decide (device = part) || bool_decide (device = "both"%string)
  then match sig_key !! part with
       | Some (Some (String c key)) => Some (String c key)
       | _ => None
       end
  else None.

(** The pairings of a logical channel with a device: the parts, in the
    order of the loop, on which the channel has a source key. *)
Definition pairings (device sig : string) : list (string * string) :=
  match Biometric.SIGNAL_MAP !! sig with
  | None => []
  | Some sig_key =>
      omap (λ part,
              if bool_decide (device = part) || bool_decide (device = "both"%string)
              then match sig_key !! part with
                   | Some (Some (String c key)) => Some (part, String c key)
                   | _ => None
                   end
              else None)
           ["chest"; "wrist"]%string
  end.

(** The row count in the words of the specification:
    [round(len(label) * target_rate / source_rate)]. *)
Definition spec_row_count (len_label : Z) : result Z :=
  F64.round (F64.mul (F64.of_int len_label) Biometric.scale).

(** The fields of a row that the comprehension of [extract_panas_scores]
    selects: those after the first whose stripped form is made of digits. *)
Definition numeric_fields (row : list string) : list string :=
  filter (λ val, Py.isdigit (Py.strip val) = true) (tail row).

(** What one row of the file adds to the score sets and to the output. *)
Definition contribution (quest_path : string) (row : list string)
  : list (gmap string Z) * list Biometric.stdout_line :=
  Biometric.extract_panas_scores quest_path [row].

(** The characters that a literal accepted by [int] is made of. *)
Definition int_char (c : ascii) : bool :=
  Py.int_isspace c || Py.isdecimal_char c
  || Ascii.eqb c "+" || Ascii.eqb c "-" || Ascii.eqb c "_".

(** A non-empty run of decimal digits. *)
Definition decimal_literal (s : string) : Prop :=
  s ≠ EmptyString ∧ Py.str_all Py.isdecimal_char s = true.

(** The superscript two, U+00B2: a digit for [isdigit], no decimal for [int]. *)
Definition superscript_two : string := String (ascii_of_nat 178) EmptyString.

(** A marked questionnaire row with 26 scores. *)
Definition row_of_threes : list string := "# PANAS"%string :: replicate 26 "3"%string.

(** [m] is the first position of the maximum of [l]. *)
Definition first_max (l : list nat) (m : nat) : Prop :=
  ∃ c, l !! m = Some c
       ∧ (∀ j c', l !! j = Some c' → (c' ≤ c)%nat)
       ∧ (∀ j c', l !! j = Some c' → (j < m)%nat → (c' < c)%nat).

(** The ceiling of [(stop - i) / step], the number of rounds of the loop
    counter from [i]. *)
Definition rounds (i : nat) (stop : Z) (step : nat) : nat :=
  Z.to_nat ((stop - Z.of_nat i + Z.of_nat step - 1) / Z.of_nat step).

(** The record after [p] shifts of [m]: the quotient by [2^p], whether the
    remainder reaches the half, and whether it has bits below the half. *)
Definition shifted (m : Z) (p : positive) (mrs : shr_record) : Prop :=
  shr_m mrs = m / 2 ^ Zpos p
  ∧ (shr_r mrs = true ↔ 2 ^ (Zpos p - 1) <= m mod 2 ^ Zpos p)
  ∧ (shr_s mrs = true ↔ m mod 2 ^ (Zpos p - 1) ≠ 0).

(** The mantissa of [scale], the double nearest to 4/700:
    [175 * scale_mantissa = 2^60 - 1]. *)
Definition scale_mantissa : positive := 6588122883467697.

(** ** Sample data *)

Import Biometric.

(** A resampler for the examples: [num] rows picked at even distances. *)
Definition pick_rows {A : Type} (d : A) (x : list A) (num : Z) : option (list A) :=
  if num <? 0 then None
  else Some (map (λ i, default d (x !! (i * length x / Z.to_nat num)%nat))
                 (seq 0 (Z.to_nat num))).

Lemma pick_rows_length {A : Type} (d : A) x num out :
  pick_rows d x num = Some out → Z.of_nat (length out) = num.
Proof.
  unfold pick_rows. destruct (num <? 0) eqn:Hneg; [done|]. intros [= <-].
  rewrite length_map, length_seq. lia.
Qed.

#[export] Instance pick_rows_scipy : SciPy Z := {|
  astype_float := id;
  round_astype_int := id;
  resample := pick_rows [];
  resample1 := pick_rows 0;
  resample_rows := pick_rows_length [];
  resample1_len := pick_rows_length 0
|}.

(** Two seconds of a recording at 700 Hz: the chest carries EDA, Temp and a
    three-axis ACC, the wrist a BVP. *)
Definition demo_recording : recording Z :=
  Recording
    (replicate 700 1 ++ replicate 700 2)
    {[ "chest" := {[ "EDA" := Arr1 (map Z.of_nat (seq 0 1400));
                     "Temp" := Arr1 (replicate 1400 36);
                     "ACC" := Arr2 (replicate 1400 [1; 2; 3]) ]};
       "wrist" := {[ "BVP" := Arr1 (map Z.of_nat (seq 0 128)) ]} ]}%string.

Definition demo_signals : list string := ["EDA"; "TEMP"; "BVP"; "ACC"]%string.

Definition demo_X : list (list Z) :=
  [[0; 36; 1; 2; 3]; [175; 36; 1; 2; 3]; [350; 36; 1; 2; 3]; [525; 36; 1; 2; 3];
   [700; 36; 1; 2; 3]; [875; 36; 1; 2; 3]; [1050; 36; 1; 2; 3]; [1225; 36; 1; 2; 3]].

Definition demo_labels : list Z := [1; 1; 1; 1; 2; 2; 2; 2].

(** A questionnaire with the five PANAS rows of a WESAD subject. *)
Definition demo_quest : list (list string) :=
  [ ["# Subj"; "S2"]%string;
    "# PANAS"%string :: replicate 26 "1"%string;
    "# PANAS"%string :: replicate 26 "2"%string;
    "# PANAS"%string :: replicate 26 "3"%string;
    "# PANAS"%string :: replicate 26 "4"%string;
    "# PANAS"%string :: replicate 26 "5"%string ].

(** Twenty seconds spent in condition 6, which has no questionnaire row. *)
Definition demo_condition6 : recording Z :=
  Recording (replicate (Z.to_nat 14000) 6)
            {[ "chest" := {[ "EDA" := Arr1 (replicate (Z.to_nat 14000) 5) ]} ]}%string.

(** A machine with two devices; one file cannot be decoded. *)
Definition two_gpu_embedding (path : string) : result (list Z) :=
  if String.eqb path "downloads/broken.mp3" then Raise (ValueError_int path)
  else Ok (replicate Audio.EMBED_SIZE 0).

Lemma two_gpu_embedding_size path emb :
  two_gpu_embedding path = Ok emb → length emb = Audio.EMBED_SIZE.
Proof.
  unfold two_gpu_embedding. destruct (String.eqb _ _); [done|].
  intros Hemb. assert (emb = replicate Audio.EMBED_SIZE 0) as -> by congruence.
  apply length_replicate.
Qed.

Lemma rock_tags_nonempty (path : string) (tags : list (string * Z)) :
  Ok [("rock"%string, 1)] = Ok tags → tags ≠ [].
Proof. by intros [= <-]. Qed.

#[export] Instance two_gpus : Audio.Libs Z := {|
  Audio.cuda_set_device := λ gpu_id,
    if (0 <=? gpu_id) && (gpu_id <? 2) then Ok () else Raise (RuntimeError_cuda gpu_id);
  Audio.embedding := two_gpu_embedding;
  Audio.musicnn_tags := λ _, Ok [("rock"%string, 1)];
  Audio.str := λ _, "invalid literal"%string;
  Audio.embedding_size := two_gpu_embedding_size;
  Audio.musicnn_tags_nonempty := rock_tags_nonempty
|}.

(** The same machine with one device. *)
Definition one_gpu : Audio.Libs Z := {|
  Audio.cuda_set_device := λ gpu_id,
    if gpu_id =? 0 then Ok () else Raise (RuntimeError_cuda gpu_id);
  Audio.embedding := two_gpu_embedding;
  Audio.musicnn_tags := λ _, Ok [("rock"%string, 1)];
  Audio.str := λ _, "invalid literal"%string;
  Audio.embedding_size := two_gpu_embedding_size;
  Audio.musicnn_tags_nonempty := rock_tags_nonempty
|}.

(** ** Vocabulary of the further statements *)

(** Row [r] of the arrays [ms] laid side by side. *)
Definition row_across {F : Type} (ms : list (list (list F))) (r : nat) : list F :=
  concat (map (λ m : list (list F), default [] (m !! r)) ms).

(** [block] is what [resample] makes of the source that the record holds
    for the pairing [(part, key)]. *)
Definition resampled_source {F : Type} `{SciPy F} (data : recording F) (num : Z)
    (pairing : string * string) (block : list (list F)) : Prop :=
  ∃ by_part source,
    signal data !! pairing.1 = Some by_part ∧ by_part !! pairing.2 = Some source
    ∧ resample (as_columns source) num = Some block.

(** The pairings that the two loops of [load_and_downsample] go through. *)
Definition sources_read (device : string) (signals : list string) : list (string * string) :=
  concat (map (pairings device) signals).

(** What a subject directory adds to the lists of [load_wesad_dataset]: its
    windows, their labels and their score vectors, and nothing if its name
    does not start with "S", if one of its two files is missing or if its
    [try] block raises. *)
Definition loaded {F : Type} `{SciPy F} (normalize : list (list F) → list (list F))
    (root_path : string) (selected_signals : list string) (device : string) (s : subject F)
  : option (list (list (list F)) * list Z * list (list Z)) :=
  if Py.startswith (subject_dir s) "S" then
    match pkl s, quest s with
    | Some data, Some reader =>
        match (load_subject normalize data
                 (Py.join (Py.join root_path (subject_dir s))
                          (subject_dir s ++ "_quest.csv")%string)
                 reader selected_signals device).1 with
        | Ok r => Some r
        | Raise _ => None
        end
    | _, _ => None
    end
  else None.

(** A directory entry that [load_wesad_dataset] passes over. *)
Definition passed_over {F : Type} `{SciPy F} (normalize : list (list F) → list (list F))
    (selected_signals : list string) (device : string) (s : subject F) : Prop :=
  Py.startswith (subject_dir s) "S" = false
  ∨ pkl s = None ∨ quest s = None
  ∨ ∃ data reader e, pkl s = Some data ∧ quest s = Some reader
      ∧ ∀ quest_path,
          (load_subject normalize data quest_path reader selected_signals device).1 = Raise e.

(** What a directory entry makes [load_wesad_dataset] print. *)
Definition reported {F : Type} `{SciPy F} (normalize : list (list F) → list (list F))
    (root_path : string) (selected_signals : list string) (device : string) (s : subject F)
  : list stdout_line :=
  if Py.startswith (subject_dir s) "S" then
    match pkl s, quest s with
    | Some data, Some reader =>
        let r := load_subject normalize data
                   (Py.join (Py.join root_path (subject_dir s))
                            (subject_dir s ++ "_quest.csv")%string)
                   reader selected_signals device in
        match r.1 with
        | Ok _ => r.2
        | Raise e => r.2 ++ [Error_loading (subject_dir s) e]
        end
    | _, _ => [Skipping (subject_dir s)]
    end
  else [].

(** ** Further sample data *)

(** Twenty seconds of a recording that only the wrist device made. *)
Definition demo_wrist_only : recording Z :=
  Recording (replicate (Z.to_nat 14000) 1)
            {[ "wrist" := {[ "BVP" := Arr1 (replicate (Z.to_nat 14000) 7) ]} ]}%string.

(** A data directory: a subject with both files, one without its pickle,
    one whose recording lacks the chest device, and a file of notes. *)
Definition demo_listing : list (subject Z) :=
  [ Subject "S2" (Some demo_condition6) (Some demo_quest);
    Subject "S3" None (Some demo_quest);
    Subject "S4" (Some demo_wrist_only) (Some demo_quest);
    Subject "notes" None None ]%string.

(** The first column of [demo_X]: the resampled EDA of the chest. *)
Definition demo_EDA_block : list (list Z) :=
  [[0]; [175]; [350]; [525]; [700]; [875]; [1050]; [1225]].

(** * Properties *)

(** ** NumPy helpers *)

Lemma count_cons v x a :
  count v (x :: a) = if decide (x = v) then S (count v a) else count v a.
Proof. unfold count. rewrite filter_cons. by case_decide. Qed.

Lemma count_pos_elem_of v a : (0 < count v a)%nat ↔ v ∈ a.
Proof.
  induction a as [|x a IH]; [unfold count; simpl; split; [lia | by intros ?%elem_of_nil]|].
  rewrite count_cons, elem_of_cons. case_decide; subst; [split; [auto | lia]|].
  rewrite IH. split; [auto | by intros [?|?]].
Qed.

Lemma bincount_steps_lookup a : ∀ (counts : list nat) (v : nat),
  Forall (λ x, 0 ≤ x) a →
  foldl (λ counts v, alter S (Z.to_nat v) counts) counts a !! v
  = (λ c, (c + count (Z.of_nat v) a)%nat) <$> counts !! v.
Proof.
  induction a as [|x a IH]; intros counts v Hnn; simpl.
  - destruct (counts !! v); simpl; f_equal. unfold count; simpl; lia.
  - apply Forall_cons in Hnn as [Hx Hnn]. rewrite IH by done.
    rewrite count_cons, list_lookup_alter.
    case_decide as Hv; case_decide as Hx'; try lia.
    + subst v. destruct (counts !! Z.to_nat x); simpl; f_equal; lia.
    + done.
Qed.

Lemma bincount_steps_length a : ∀ counts : list nat,
  length (foldl (λ counts v, alter S (Z.to_nat v) counts) counts a) = length counts.
Proof. induction a as [|x a IH]; intros counts; simpl; [done|]. by rewrite IH, length_alter. Qed.

Lemma existsb_neg_false a : existsb (λ v, v <? 0) a = false → Forall (λ x, 0 ≤ x) a.
Proof.
  induction a as [|x a IH]; simpl; [constructor|].
  intros [Hx Ha]%orb_false_iff. constructor; [lia | auto].
Qed.

Lemma foldr_max_ge a x : x ∈ a → x ≤ foldr Z.max 0 a.
Proof.
  induction a as [|y a IH]; [by intros ?%elem_of_nil|].
  intros [->|Hin]%elem_of_cons; simpl; [lia|]. specialize (IH Hin). lia.
Qed.

(** What [np.bincount] returns: one entry per value up to the largest, each
    holding the number of occurrences of its index. *)
Lemma bincount_Ok a counts :
  Np.bincount a = Ok counts →
  Forall (λ x, 0 ≤ x) a
  ∧ (a = [] → counts = [])
  ∧ (∀ x, x ∈ a → (Z.to_nat x < length counts)%nat)
  ∧ (∀ v, (v < length counts)%nat → counts !! v = Some (count (Z.of_nat v) a)).
Proof.
  unfold Np.bincount. destruct (existsb _ a) eqn:Hneg; [done|].
  intros [= <-]. apply existsb_neg_false in Hneg.
  split; [done|]. split; [by intros ->|].
  rewrite bincount_steps_length, length_replicate. split.
  - intros x Hx. destruct a as [|y a]; [by apply elem_of_nil in Hx|].
    pose proof (foldr_max_ge _ _ Hx). rewrite Forall_forall in Hneg.
    specialize (Hneg x Hx). lia.
  - intros v Hv. rewrite bincount_steps_lookup by done.
    rewrite lookup_replicate_2 by done. done.
Qed.

Lemma bincount_nonneg a :
  Forall (λ x, 0 ≤ x) a → ∃ counts, Np.bincount a = Ok counts ∧ (a ≠ [] → counts ≠ []).
Proof.
  intros Hnn. unfold Np.bincount.
  assert (existsb (λ v, v <? 0) a = false) as ->.
  { apply not_true_iff_false. intros (x & Hx & Hlt)%existsb_exists.
    rewrite Forall_forall in Hnn. apply list_elem_of_In, Hnn in Hx. lia. }
  eexists; split; [done|]. intros Hne Hnil.
  apply (f_equal length) in Hnil. rewrite bincount_steps_length, length_replicate in Hnil.
  destruct a; [done | simpl in Hnil; lia].
Qed.

Lemma argmax_from_first_max counts : ∀ pre best_i best,
  pre !! best_i = Some best →
  (∀ j c', pre !! j = Some c' → (c' ≤ best)%nat) →
  (∀ j c', pre !! j = Some c' → (j < best_i)%nat → (c' < best)%nat) →
  first_max (pre ++ counts) (Np.argmax_from best_i best (length pre) counts).
Proof.
  induction counts as [|c counts IH]; intros pre best_i best Hb Hmax Hfirst; simpl.
  - rewrite app_nil_r. by exists best.
  - replace (pre ++ c :: counts) with ((pre ++ [c]) ++ counts) by (by rewrite <-app_assoc).
    replace (S (length pre)) with (length (pre ++ [c])) by (rewrite length_app; simpl; lia).
    destruct (best <? c)%nat eqn:Hlt.
    + apply Nat.ltb_lt in Hlt. apply IH.
      * by rewrite lookup_app_r, Nat.sub_diag.
      * intros j c' Hj. apply lookup_app_Some in Hj as [Hj|[_ Hj]].
        -- specialize (Hmax _ _ Hj). lia.
        -- apply list_lookup_singleton_Some in Hj as [_ ->]. lia.
      * intros j c' Hj Hjlt. rewrite lookup_app_l in Hj by done.
        specialize (Hmax _ _ Hj). lia.
    + apply Nat.ltb_ge in Hlt. apply IH.
      * rewrite lookup_app_l; [done | by eapply lookup_lt_Some].
      * intros j c' Hj. apply lookup_app_Some in Hj as [Hj|[_ Hj]].
        -- by eapply Hmax.
        -- apply list_lookup_singleton_Some in Hj as [_ ->]. lia.
      * intros j c' Hj Hjlt. apply lookup_lt_Some in Hb.
        rewrite lookup_app_l in Hj by lia. by eapply Hfirst.
Qed.

Lemma argmax_Ok counts m : Np.argmax counts = Ok m → first_max counts m.
Proof.
  destruct counts as [|c counts]; [done|]. intros [= <-].
  apply (argmax_from_first_max counts [c] 0%nat c); [done| |].
  - intros j c' Hj. apply list_lookup_singleton_Some in Hj as [_ ->]. lia.
  - intros; lia.
Qed.

Lemma argmax_nonempty counts : counts ≠ [] → ∃ m, Np.argmax counts = Ok m.
Proof. destruct counts; [done|]. intros _. by eexists. Qed.

(** [np.bincount(win).argmax()] is the mode of [win], the smallest of the
    most frequent values. *)
Lemma majority_label_is_mode win counts m :
  Np.bincount win = Ok counts → Np.argmax counts = Ok m → is_mode (Z.of_nat m) win.
Proof.
  intros (Hnn & Hnil & Hrange & Hcount)%bincount_Ok (c & Hm & Hmax & Hfirst)%argmax_Ok.
  assert (m < length counts)%nat as Hmlt by (by eapply lookup_lt_Some).
  rewrite Hcount in Hm by done. injection Hm as Hc.
  assert (∀ v, (count v win ≤ c)%nat) as Hle.
  { intros v. destruct (decide (v ∈ win)) as [Hin|Hnin].
    - pose proof (Hrange _ Hin) as Hlt. rewrite Forall_forall in Hnn.
      specialize (Hnn _ Hin). eapply (Hmax (Z.to_nat v)).
      rewrite Hcount by done. by rewrite Z2Nat.id.
    - rewrite <-count_pos_elem_of in Hnin. lia. }
  assert (win ≠ []) as Hne.
  { intros ->. rewrite Hnil in Hmlt by done. simpl in Hmlt. lia. }
  destruct win as [|x win']; [done|]. set (win := x :: win') in *.
  assert (0 < c)%nat as Hpos.
  { specialize (Hle x). assert (x ∈ win) as ?%count_pos_elem_of by set_solver. lia. }
  split; [|split].
  - apply count_pos_elem_of. lia.
  - intros v. rewrite Hc. apply Hle.
  - intros v Hv. rewrite Hc in Hv.
    assert (v ∈ win) as Hin by (apply count_pos_elem_of; lia).
    pose proof (Hrange _ Hin) as Hlt. rewrite Forall_forall in Hnn. specialize (Hnn _ Hin).
    destruct (decide (Z.to_nat v < m)%nat) as [Hjm|]; [|lia].
    specialize (Hfirst (Z.to_nat v) (count v win)).
    rewrite Hcount, Z2Nat.id in Hfirst by done. specialize (Hfirst eq_refl Hjm). lia.
Qed.


Lemma any_eq0_true a : Np.any_eq0 a = true ↔ 0 ∈ a.
Proof.
  unfold Np.any_eq0. rewrite existsb_exists. split.
  - intros (x & Hx & ->%Z.eqb_eq). by apply list_elem_of_In.
  - intros Hin. exists 0. by rewrite <-list_elem_of_In.
Qed.

Lemma any_eq0_false a : Np.any_eq0 a = false ↔ 0 ∉ a.
Proof. rewrite <-any_eq0_true. by destruct (Np.any_eq0 a). Qed.

Lemma rounds_stop i stop step : (0 < step)%nat → stop ≤ Z.of_nat i → rounds i stop step = 0%nat.
Proof.
  intros Hs Hi. unfold rounds.
  assert ((stop - Z.of_nat i + Z.of_nat step - 1) / Z.of_nat step ≤ 0); [|lia].
  apply Z.lt_succ_r, Z.div_lt_upper_bound; lia.
Qed.

Lemma rounds_step i stop step :
  (0 < step)%nat → Z.of_nat i < stop → rounds i stop step = S (rounds (i + step) stop step).
Proof.
  intros Hs Hi. unfold rounds.
  replace (stop - Z.of_nat i + Z.of_nat step - 1)
    with ((stop - Z.of_nat (i + step) + Z.of_nat step - 1) + 1 * Z.of_nat step) by lia.
  rewrite Z.div_add by lia.
  assert (0 ≤ (stop - Z.of_nat (i + step) + Z.of_nat step - 1) / Z.of_nat step); [|lia].
  apply Z.div_pos; lia.
Qed.

(** With enough fuel the loop counter takes the values [i], [i + step], ...
    below [stop]; the fuel that [range] gives is enough. *)
Lemma range_from_seq step stop : ∀ fuel i,
  (0 < step)%nat → stop - Z.of_nat i ≤ Z.of_nat fuel →
  Np.range_from fuel i stop step
  = map (λ k, (i + k * step)%nat) (seq 0 (rounds i stop step)).
Proof.
  induction fuel as [|fuel IH]; intros i Hs Hfuel; simpl.
  - rewrite rounds_stop by lia. done.
  - destruct (Z.of_nat i <? stop) eqn:Hlt.
    + apply Z.ltb_lt in Hlt. rewrite rounds_step by done. simpl.
      rewrite IH by lia. rewrite <-seq_shift, map_map. f_equal; [lia|].
      apply map_ext. intros k. lia.
    + apply Z.ltb_ge in Hlt. rewrite rounds_stop by lia. done.
Qed.

Lemma candidates_seq len_X W S :
  (0 < S)%nat →
  candidates len_X W S
  = map (λ k, (k * S)%nat) (seq 0 (rounds 0 (Z.of_nat len_X - Z.of_nat W) S)).
Proof. intros HS. unfold candidates. rewrite range_from_seq by lia. done. Qed.

Lemma rounds_lt k stop step :
  (0 < step)%nat → (k < rounds 0 stop step)%nat ↔ Z.of_nat (k * step) < stop.
Proof.
  intros Hs. unfold rounds. rewrite Nat2Z.inj_mul. change (Z.of_nat 0) with 0.
  remember (stop - 0 + Z.of_nat step - 1) as a eqn:Ha.
  remember (Z.of_nat step) as b eqn:Hb. remember (Z.of_nat k) as k' eqn:Hk'.
  assert (0 < b) as Hbpos by lia. assert (0 ≤ k') as Hkpos by lia.
  pose proof (Z.div_mod a b ltac:(lia)) as Hdm.
  pose proof (Z.mod_pos_bound a b Hbpos) as Hmod.
  remember (a / b) as q eqn:Hq. remember (a mod b) as r eqn:Hr.
  destruct (Z_lt_le_dec q 0) as [Hneg|Hpos].
  - rewrite Z2Nat.nonpos by lia. split; [lia|]. intros Hk. exfalso.
    assert (b * q ≤ b * (-1)) by (apply Z.mul_le_mono_nonneg_l; lia).
    assert (0 ≤ k' * b) by (apply Z.mul_nonneg_nonneg; lia). lia.
  - assert ((k < Z.to_nat q)%nat ↔ k' < q) as -> by lia. split; intros Hk.
    + assert (b * (k' + 1) ≤ b * q) by (apply Z.mul_le_mono_nonneg_l; lia). lia.
    + destruct (Z_lt_le_dec k' q) as [|Hle]; [done|]. exfalso.
      assert (b * q ≤ b * k') by (apply Z.mul_le_mono_nonneg_l; lia). lia.
Qed.

(** The candidates are the multiples of the stride that leave more than a
    window's length of rows after them. *)
Lemma elem_of_candidates len_X W S i :
  (0 < S)%nat →
  i ∈ candidates len_X W S ↔ (∃ k, i = k * S ∧ i + W < len_X)%nat.
Proof.
  intros HS. rewrite candidates_seq, list_elem_of_fmap by done. split.
  - intros (k & -> & Hk). apply elem_of_seq in Hk as [_ Hk]. simpl in Hk.
    apply rounds_lt in Hk; [|done]. exists k. split; [done | lia].
  - intros (k & -> & Hk). exists k. split; [done|].
    apply elem_of_seq. split; [lia|]. simpl. apply rounds_lt; [done | lia].
Qed.

Section WindowFacts.
Context {Row : Type}.
Implicit Types (X : list Row) (y : list Z).

Lemma create_windows_body_skip X y W acc i :
  0 ∈ window_labels y W i → Biometric.create_windows_body X y W acc i = Ok acc.
Proof.
  intros Hz%any_eq0_true. unfold Biometric.create_windows_body.
  fold (window_labels y W i). by rewrite Hz.
Qed.

Lemma create_windows_body_keep X y W acc acc' i :
  0 ∉ window_labels y W i →
  Biometric.create_windows_body X y W acc i = Ok acc' →
  ∃ l, acc' = (acc.1 ++ [Np.slice X i (i + W)], acc.2 ++ [l])
       ∧ is_mode l (window_labels y W i).
Proof.
  intros Hz%any_eq0_false. unfold Biometric.create_windows_body.
  fold (window_labels y W i). rewrite Hz.
  destruct (Np.bincount (window_labels y W i)) as [counts|] eqn:Hb; simpl; [|done].
  destruct (Np.argmax counts) as [m|] eqn:Hm; simpl; [|done].
  intros [= <-]. exists (Z.of_nat m). split; [done|].
  by eapply majority_label_is_mode.
Qed.

Lemma create_windows_body_returns X y W acc i :
  Forall (λ x, 0 ≤ x) y → window_labels y W i ≠ [] →
  ∃ acc', Biometric.create_windows_body X y W acc i = Ok acc'.
Proof.
  intros Hnn Hne. unfold Biometric.create_windows_body. fold (window_labels y W i).
  destruct (Np.any_eq0 _); [by eexists|].
  destruct (bincount_nonneg (window_labels y W i)) as (counts & -> & Hc).
  { unfold window_labels, Np.slice. by apply Forall_take, Forall_drop. }
  destruct (argmax_nonempty counts) as [m Hm]; [by apply Hc|].
  simpl. rewrite Hm. by eexists.
Qed.

Lemma for_each_create_windows X y W idxs : ∀ ws0 ls0 ws ls,
  for_each (Biometric.create_windows_body X y W) idxs (ws0, ls0) = Ok (ws, ls) →
  ∃ labs, ws = ws0 ++ map (λ i, Np.slice X i (i + W)) (kept y W idxs)
          ∧ ls = ls0 ++ labs
          ∧ Forall2 (λ i l, is_mode l (window_labels y W i)) (kept y W idxs) labs.
Proof.
  induction idxs as [|i idxs IH]; intros ws0 ls0 ws ls; cbn [for_each].
  - intros [= <- <-]. exists []. by rewrite !app_nil_r.
  - unfold kept. rewrite filter_cons. fold (kept y W idxs).
    destruct (decide (0 ∈ window_labels y W i)) as [Hz|Hz].
    + rewrite create_windows_body_skip by done. rewrite decide_False by (by intros ?).
      apply IH.
    + rewrite decide_True by done.
      destruct (Biometric.create_windows_body X y W (ws0, ls0) i) as [acc'|] eqn:Hb; [|done].
      apply create_windows_body_keep in Hb as (l & -> & Hl); [|done].
      intros (labs & -> & -> & Hlabs)%IH.
      exists (l :: labs). rewrite <-!app_assoc. simpl.
      split; [done|]. split; [done|]. by constructor.
Qed.

Lemma for_each_create_windows_returns X y W idxs : ∀ acc,
  Forall (λ x, 0 ≤ x) y →
  (∀ i, i ∈ idxs → window_labels y W i ≠ []) →
  ∃ out, for_each (Biometric.create_windows_body X y W) idxs acc = Ok out.
Proof.
  induction idxs as [|i idxs IH]; intros acc Hnn Hne; cbn [for_each]; [by eexists|].
  destruct (create_windows_body_returns X y W acc i) as [acc' ->];
    [done | apply Hne; by left |].
  apply IH; [done|]. intros j Hj. apply Hne. by right.
Qed.

Lemma window_labels_length y W i :
  (i + W ≤ length y)%nat → length (window_labels y W i) = W.
Proof.
  intros Hi. unfold window_labels, Np.slice. rewrite length_take, length_drop. lia.
Qed.

(** On a recording whose labels are non-negative and at least as long as
    the matrix, [create_windows] returns. *)
Lemma create_windows_returns X y W S :
  (0 < W)%nat → (0 < S)%nat → (length X ≤ length y)%nat → Forall (λ x, 0 ≤ x) y →
  ∃ ws ls, Biometric.create_windows X y W S = Ok (ws, ls).
Proof.
  intros HW HS Hlen Hnn. unfold Biometric.create_windows, Np.range.
  destruct S as [|S']; [lia|]. simpl. fold (candidates (length X) W (Datatypes.S S')).
  destruct (for_each_create_windows_returns X y W (candidates (length X) W (Datatypes.S S')) ([], []))
    as [[ws ls] Hout]; [done| |by exists ws, ls].
  intros i (k & _ & Hi)%elem_of_candidates; [|lia].
  intros Hnil%(f_equal length). rewrite window_labels_length in Hnil by lia.
  simpl in Hnil. lia.
Qed.

Lemma create_windows_Ok X y W S ws ls :
  Biometric.create_windows X y W S = Ok (ws, ls) →
  (0 < S)%nat
  ∧ ws = map (λ i, Np.slice X i (i + W)) (kept y W (candidates (length X) W S))
  ∧ Forall2 (λ i l, is_mode l (window_labels y W i)) (kept y W (candidates (length X) W S)) ls.
Proof.
  unfold Biometric.create_windows, Np.range. destruct S as [|S']; [done|]. simpl.
  fold (candidates (length X) W (Datatypes.S S')).
  intros (labs & -> & -> & Hlabs)%for_each_create_windows. split; [lia|]. done.
Qed.


Lemma kept_Forall y W idxs : Forall (λ i, 0 ∉ window_labels y W i) (kept y W idxs).
Proof. apply Forall_forall. by intros i [? _]%list_elem_of_filter. Qed.

Lemma Forall2_strengthen_l {A B} (P : A → B → Prop) (Q : A → Prop) l k :
  Forall Q l → Forall2 P l k → Forall2 (λ a b, Q a ∧ P a b) l k.
Proof.
  intros HQ HP. induction HP as [|a b l k Hab HP IH]; [constructor|].
  apply Forall_cons in HQ as [Ha HQ]. constructor; auto.
Qed.

(** C4: [create_windows] keeps a visited window exactly when none of its
    per-sample labels is the sentinel 0.  The windows returned are those of
    the visited start indices without a sentinel, in order; each of them
    holds no 0 and carries a nonzero label; and every visited window that
    is missing from the output holds a 0. *)
Theorem create_windows_keeps_iff_no_sentinel X y W S ws ls :
  Biometric.create_windows X y W S = Ok (ws, ls) →
  ws = map (λ i, Np.slice X i (i + W)) (kept y W (candidates (length X) W S))
  ∧ Forall2 (λ i l, (0 ∉ window_labels y W i) ∧ l ≠ 0)
            (kept y W (candidates (length X) W S)) ls
  ∧ (∀ i, i ∈ candidates (length X) W S →
          (i ∈ kept y W (candidates (length X) W S) ↔ 0 ∉ window_labels y W i))
  ∧ (∀ i, i ∈ candidates (length X) W S →
          i ∉ kept y W (candidates (length X) W S) → 0 ∈ window_labels y W i).
Proof.
  intros (HS & Hws & Hls)%create_windows_Ok. split; [done|]. split; [|split].
  - eapply Forall2_impl.
    + apply Forall2_strengthen_l; [apply kept_Forall | exact Hls].
    + intros i l [Hz (Hin & _)]. split; [done|]. by intros ->.
  - intros i Hi. unfold kept. rewrite list_elem_of_filter. tauto.
  - intros i Hi Hnk. destruct (decide (0 ∈ window_labels y W i)) as [|Hz]; [done|].
    exfalso. apply Hnk. unfold kept. by rewrite list_elem_of_filter.
Qed.

(** C5: the label that [create_windows] gives an emitted window is the mode
    of the per-sample labels of that window, and among equally frequent
    labels the smallest. *)
Theorem create_windows_label_is_mode X y W S ws ls j win l :
  Biometric.create_windows X y W S = Ok (ws, ls) →
  ws !! j = Some win → ls !! j = Some l →
  ∃ i, kept y W (candidates (length X) W S) !! j = Some i
       ∧ win = Np.slice X i (i + W)
       ∧ is_mode l (window_labels y W i).
Proof.
  intros (HS & -> & Hls)%create_windows_Ok Hwin Hl.
  rewrite list_lookup_fmap in Hwin.
  destruct (kept y W (candidates (length X) W S) !! j) as [i|] eqn:Hi; [|done].
  injection Hwin as <-. exists i. split; [done|]. split; [done|].
  eapply Forall2_lookup_lr in Hls; [exact Hls | exact Hi | exact Hl].
Qed.

Lemma kept_all y W idxs :
  (∀ i, i ∈ idxs → 0 ∉ window_labels y W i) → kept y W idxs = idxs.
Proof.
  intros Hall. unfold kept. induction idxs as [|i idxs IH]; [done|].
  rewrite filter_cons, decide_True by (apply Hall; by left).
  f_equal. apply IH. intros j Hj. apply Hall. by right.
Qed.

Lemma rounds_exact_fit W S k :
  (0 < S)%nat → rounds 0 (Z.of_nat (W + k * S) - Z.of_nat W) S = k.
Proof.
  intros HS. unfold rounds. change (Z.of_nat 0) with 0.
  replace (Z.of_nat (W + k * S) - Z.of_nat W - 0 + Z.of_nat S - 1)
    with (Z.of_nat S - 1 + Z.of_nat k * Z.of_nat S) by lia.
  rewrite Z.div_add, Z.div_small by lia. lia.
Qed.

(** C2: the loop of [create_windows] stops one window early.  On a
    recording without sentinel labels the call returns, and the number of
    windows is the ceiling of [(N - W) / S]; when the stride divides
    [N - W], say [N = W + k * S], that is [k] windows and not the
    [floor((N - W) / S) + 1 = k + 1] of the windows that fit: the last
    window, which ends on the last row, is never visited. *)
Theorem create_windows_count X y W S :
  (0 < W)%nat → (0 < S)%nat → length y = length X → Forall (λ l, 0 < l) y →
  ∃ ws ls,
    Biometric.create_windows X y W S = Ok (ws, ls)
    ∧ length ws = rounds 0 (Z.of_nat (length X) - Z.of_nat W) S
    ∧ length ls = length ws
    ∧ ∀ k, length X = (W + k * S)%nat →
           length ws = k ∧ Z.of_nat (length ws) ≠ (Z.of_nat (length X) - Z.of_nat W) / Z.of_nat S + 1.
Proof.
  intros HW HS Hlen Hpos.
  destruct (create_windows_returns X y W S) as (ws & ls & Hrun); [done|done|lia| |].
  { eapply Forall_impl; [exact Hpos|]. simpl. lia. }
  exists ws, ls. split; [done|].
  apply create_windows_Ok in Hrun as (_ & -> & Hls).
  apply Forall2_length in Hls. rewrite length_map.
  assert (kept y W (candidates (length X) W S) = candidates (length X) W S) as Hkept.
  { apply kept_all. intros i _ Hz.
    assert (Forall (λ l, 0 < l) (window_labels y W i)) as Hwin
      by (by apply Forall_take, Forall_drop).
    rewrite Forall_forall in Hwin. specialize (Hwin _ Hz). lia. }
  rewrite Hkept in *. rewrite candidates_seq, length_map, length_seq in * by done.
  split; [done|]. split; [done|]. intros k Hk. rewrite Hk, rounds_exact_fit by done.
  split; [done|].
  replace (Z.of_nat (W + k * S) - Z.of_nat W) with (Z.of_nat k * Z.of_nat S) by lia.
  rewrite Z.div_mul by lia. lia.
Qed.

End WindowFacts.

(** ** Python strings *)

Ltac bool_to_nat :=
  unfold Py.int_isspace, Py.isspace_char, Py.isdigit_char, Py.isdecimal_char, Py.between in *;
  rewrite ?orb_true_iff, ?andb_true_iff, ?orb_false_iff, ?andb_false_iff,
          ?Nat.leb_le, ?Nat.eqb_eq, ?Nat.leb_gt, ?Nat.eqb_neq in *.

Lemma int_isspace_isspace c : Py.int_isspace c = true → Py.isspace_char c = true.
Proof. bool_to_nat. lia. Qed.

Lemma isdigit_char_not_space c : Py.isdigit_char c = true → Py.isspace_char c = false.
Proof. intros H. apply not_true_iff_false. intros H'. bool_to_nat. lia. Qed.

Lemma ascii_eqb_ord c d : Ascii.eqb c d = true → Py.ord c = Py.ord d.
Proof. by intros ->%Ascii.eqb_eq. Qed.

Lemma digit_value_nonneg c : Py.isdecimal_char c = true → 0 ≤ Py.digit_value c.
Proof. unfold Py.digit_value. bool_to_nat. lia. Qed.

Lemma int_digits_nonneg s : ∀ p nd acc v nd' rest,
  Py.int_digits s p nd acc = Some (v, nd', rest) → 0 ≤ acc → 0 ≤ v.
Proof.
  induction s as [|c s IH]; intros p nd acc v nd' rest; simpl.
  - destruct p; [done|]. by intros [= <- <- <-].
  - destruct (Py.isdecimal_char c) eqn:Hd.
    + intros Hrun Hacc. eapply IH; [exact Hrun|].
      pose proof (digit_value_nonneg c Hd). lia.
    + destruct (Ascii.eqb c "_").
      * destruct p; [done|]. apply IH.
      * destruct p; [done|]. by intros [= <- <- <-].
Qed.

Lemma str_all_app p s t : Py.str_all p (s ++ t) = Py.str_all p s && Py.str_all p t.
Proof. induction s as [|c s IH]; simpl; [done|]. by rewrite IH, andb_assoc. Qed.

Lemma str_all_impl (p q : ascii → bool) s :
  (∀ c, p c = true → q c = true) → Py.str_all p s = true → Py.str_all q s = true.
Proof.
  intros Hpq. induction s as [|c s IH]; simpl; [done|].
  intros [Hc Hs]%andb_true_iff. by rewrite (Hpq _ Hc), IH.
Qed.

Lemma int_digits_chars s : ∀ p nd acc v nd' rest,
  Py.int_digits s p nd acc = Some (v, nd', rest) →
  ∃ pre, s = (pre ++ rest)%string ∧ Py.str_all int_char pre = true.
Proof.
  induction s as [|c s IH]; intros p nd acc v nd' rest; simpl.
  - destruct p; [done|]. intros [= <- <- <-]. by exists ""%string.
  - destruct (Py.isdecimal_char c) eqn:Hd.
    + intros (pre & -> & Hpre)%IH. exists (String c pre). split; [done|].
      simpl. unfold int_char at 1. rewrite Hd, Hpre. by rewrite orb_true_r.
    + destruct (Ascii.eqb c "_") eqn:Hu.
      * destruct p; [done|]. intros (pre & -> & Hpre)%IH.
        exists (String c pre). split; [done|].
        simpl. unfold int_char at 1. rewrite Hu, Hpre. by rewrite !orb_true_r.
      * destruct p; [done|]. intros [= <- <- <-]. by exists ""%string.
Qed.

Lemma int_lskip_chars s :
  ∃ pre, s = (pre ++ Py.int_lskip s)%string ∧ Py.str_all Py.int_isspace pre = true.
Proof.
  induction s as [|c s (pre & Hs & Hpre)]; simpl; [by exists ""%string|].
  destruct (Py.int_isspace c) eqn:Hc; [|by exists ""%string].
  exists (String c pre). simpl. rewrite Hc, Hpre.
  split; [exact (f_equal (String c) Hs) | done].
Qed.

(** A literal that [int] accepts holds nothing but blanks, decimal digits,
    signs and underscores. *)
Lemma int_Ok_chars s n : Py.int s = Ok n → Py.str_all int_char s = true.
Proof.
  unfold Py.int. destruct (int_lskip_chars s) as (pre & Hs & Hpre).
  rewrite Hs at 2. rewrite str_all_app.
  rewrite (str_all_impl Py.int_isspace int_char pre)
    by (done || intros c Hc; unfold int_char; by rewrite Hc).
  simpl. destruct (Py.int_lskip s) as [|c body]; simpl; [done|].
  destruct (Ascii.eqb c "+" || Ascii.eqb c "-") eqn:Hsign.
  - destruct (Py.int_digits body true 0 0) as [[[v nd] rest]|] eqn:Hd; [|done].
    apply int_digits_chars in Hd as (ds & -> & Hds).
    destruct (nd =? 0)%nat; [done|].
    destruct (Py.str_all Py.int_isspace rest) eqn:Hrest; [|done]. intros _.
    rewrite str_all_app, Hds. unfold int_char at 1.
    rewrite (str_all_impl Py.int_isspace int_char rest)
      by (done || intros c' Hc; unfold int_char; by rewrite Hc).
    apply orb_true_iff in Hsign as [-> | ->]; by rewrite ?orb_true_r.
  - destruct (Py.int_digits (String c body) true 0 0) as [[[v nd] rest]|] eqn:Hd; [|done].
    apply int_digits_chars in Hd as (ds & Heq & Hds).
    destruct (nd =? 0)%nat; [done|].
    destruct (Py.str_all Py.int_isspace rest) eqn:Hrest; [|done]. intros _.
    change (Py.str_all int_char (String c body) = true).
    rewrite Heq, str_all_app, Hds.
    by rewrite (str_all_impl Py.int_isspace int_char rest)
      by (done || intros c' Hc; unfold int_char; by rewrite Hc).
Qed.

Lemma str_all_lstrip p s : Py.str_all p s = true → Py.str_all p (Py.lstrip s) = true.
Proof.
  induction s as [|c s IH]; simpl; [done|]. intros Hs.
  destruct (Py.isspace_char c); [|done].
  apply andb_true_iff in Hs as [_ Hs]. auto.
Qed.

Lemma str_all_rstrip p s : Py.str_all p s = true → Py.str_all p (Py.rstrip s) = true.
Proof.
  induction s as [|c s IH]; simpl; [done|]. intros [Hc Hs]%andb_true_iff.
  specialize (IH Hs). destruct (Py.rstrip s) as [|c' r'].
  - destruct (Py.isspace_char c); simpl; [done | by rewrite Hc].
  - change (Py.str_all p (String c (String c' r')) = true). simpl in *. by rewrite Hc.
Qed.

Lemma str_all_strip p s : Py.str_all p s = true → Py.str_all p (Py.strip s) = true.
Proof. intros Hs. by apply str_all_rstrip, str_all_lstrip. Qed.

Lemma str_all_and p q s :
  Py.str_all p s = true → Py.str_all q s = true → Py.str_all (λ c, p c && q c) s = true.
Proof.
  induction s as [|c s IH]; simpl; [done|].
  intros [-> Hp]%andb_true_iff [-> Hq]%andb_true_iff. simpl. auto.
Qed.

Lemma isdigit_str_all s : Py.isdigit s = true → Py.str_all Py.isdigit_char s = true.
Proof. by destruct s. Qed.

Lemma digit_and_int_char c :
  Py.isdigit_char c && int_char c = true → Py.isdecimal_char c = true.
Proof.
  unfold int_char. intros [Hd Hi]%andb_true_iff.
  destruct (Py.isdecimal_char c) eqn:Hdec; [done|]. exfalso.
  destruct (Py.int_isspace c) eqn:Hsp.
  { apply int_isspace_isspace in Hsp. by rewrite isdigit_char_not_space in Hsp. }
  simpl in Hi.
  assert (Py.ord c = 43 ∨ Py.ord c = 45 ∨ Py.ord c = 95)%nat as Hord.
  { apply orb_true_iff in Hi as [Hi|Hi]; [apply orb_true_iff in Hi as [Hi|Hi]|];
      apply ascii_eqb_ord in Hi; vm_compute in Hi |- *; tauto. }
  clear Hi Hsp. bool_to_nat. lia.
Qed.

(** A field that the comprehension of [extract_panas_scores] converts is,
    once stripped, a run of decimal digits. *)
Lemma counted_field_decimal val n :
  Py.isdigit (Py.strip val) = true → Py.int val = Ok n →
  Py.str_all Py.isdecimal_char (Py.strip val) = true.
Proof.
  intros Hd Hi. apply isdigit_str_all in Hd.
  apply int_Ok_chars, (str_all_strip int_char) in Hi.
  eapply str_all_impl; [apply digit_and_int_char|]. by apply str_all_and.
Qed.

Lemma int_lskip_lstrip s c r :
  Py.int_lskip s = String c r → Py.isspace_char c = false → Py.lstrip s = String c r.
Proof.
  induction s as [|a s IH]; simpl; [done|].
  destruct (Py.int_isspace a) eqn:Ha.
  - rewrite (int_isspace_isspace _ Ha). exact IH.
  - intros [= -> ->] ->. done.
Qed.

Lemma rstrip_head c r :
  Py.isspace_char c = false → ∃ r', Py.rstrip (String c r) = String c r'.
Proof. intros Hc. simpl. rewrite Hc. destruct (Py.rstrip r); by eexists. Qed.

(** A field that the comprehension converts yields a non-negative integer:
    a sign is not a digit, so such a field carries none. *)
Lemma counted_field_nonneg val n :
  Py.isdigit (Py.strip val) = true → Py.int val = Ok n → 0 ≤ n.
Proof.
  unfold Py.int, Py.strip. intros Hd.
  destruct (Py.int_lskip val) as [|c r] eqn:Hskip; [done|].
  destruct (Ascii.eqb c "-") eqn:Hminus.
  - exfalso. apply Ascii.eqb_eq in Hminus as ->.
    rewrite (int_lskip_lstrip _ _ _ Hskip eq_refl) in Hd.
    destruct (rstrip_head "-" r eq_refl) as [r' Hr]. rewrite Hr in Hd. done.
  - destruct (Py.int_digits _ true 0 0) as [[[v nd] rest]|] eqn:Hrun; [|done].
    apply int_digits_nonneg in Hrun; [|done].
    destruct (nd =? 0)%nat; [done|]. destruct (negb _); [done|].
    destruct (_ <? _)%nat; [done|]. by intros [= <-].
Qed.

(** ** Python dictionaries *)

Section DictFacts.
Context {V : Type}.
Implicit Types (m : gmap string V) (keys : list string) (vals : list V).

Lemma dict_zip_lookup_notin keys : ∀ vals m k,
  k ∉ keys →
  foldl (λ d (kv : string * V), <[kv.1 := kv.2]> d) m (zip keys vals) !! k = m !! k.
Proof.
  induction keys as [|k0 keys IH]; intros vals m k Hk; [done|].
  destruct vals as [|v0 vals]; [done|]. simpl.
  apply not_elem_of_cons in Hk as [Hne Hk].
  rewrite IH by done. by rewrite lookup_insert_ne.
Qed.

Lemma dict_zip_lookup keys : ∀ vals m i k,
  NoDup keys → keys !! i = Some k → (i < length vals)%nat →
  foldl (λ d (kv : string * V), <[kv.1 := kv.2]> d) m (zip keys vals) !! k = vals !! i.
Proof.
  induction keys as [|k0 keys IH]; intros vals m i k Hnd Hi Hlen; [done|].
  destruct vals as [|v0 vals]; [simpl in Hlen; lia|].
  apply NoDup_cons in Hnd as [Hk0 Hnd]. simpl.
  destruct i as [|i]; simpl in *.
  - injection Hi as ->. rewrite dict_zip_lookup_notin by done. by rewrite lookup_insert_eq.
  - apply IH; [done | done | lia].
Qed.

(** [dict(zip(keys, vals))] for distinct keys and at least as many values:
    the key at position [i] is bound to the value at position [i], and
    nothing else is bound. *)
Lemma dict_zip_Some keys vals i k :
  NoDup keys → (length keys ≤ length vals)%nat → keys !! i = Some k →
  Py.dict (zip keys vals) !! k = vals !! i.
Proof.
  intros Hnd Hlen Hi. apply dict_zip_lookup; [done | done |].
  apply lookup_lt_Some in Hi. lia.
Qed.

Lemma dict_zip_None keys vals k : k ∉ keys → Py.dict (zip keys vals) !! k = None.
Proof. intros Hk. unfold Py.dict. by rewrite dict_zip_lookup_notin. Qed.

End DictFacts.

Lemma PANAS_ITEMS_NoDup : NoDup Biometric.PANAS_ITEMS.
Proof. apply (bool_decide_unpack _). by vm_compute. Qed.

(** ** extract_panas_scores *)


Lemma int_fields_Ok vals : ∀ scores,
  int_fields vals = Ok scores
  ↔ Forall2 (λ val n, Py.int val = Ok n)
            (filter (λ val, Py.isdigit (Py.strip val) = true) vals) scores.
Proof.
  induction vals as [|val vals IH]; intros scores; simpl.
  - rewrite filter_nil.
    split; [intros [= <-]; constructor | by intros ->%Forall2_nil_inv_l].
  - rewrite filter_cons. destruct (Py.isdigit (Py.strip val)) eqn:Hsel.
    + rewrite decide_True by done.
      destruct (Py.int val) as [n|e] eqn:Hint; simpl.
      * destruct (int_fields vals) as [ns|e] eqn:Hrest; simpl.
        -- split.
           ++ intros [= <-]. constructor; [done | by apply IH].
           ++ intros (n' & ns' & Hn & Hns & ->)%Forall2_cons_inv_l.
              apply IH in Hns. congruence.
        -- split; [done|].
           intros (n' & ns' & Hn & Hns & ->)%Forall2_cons_inv_l. by apply IH in Hns.
      * split; [done|].
        intros (n' & ns' & Hn & Hns & ->)%Forall2_cons_inv_l. by rewrite Hint in Hn.
    + rewrite decide_False by (simpl; congruence). apply IH.
Qed.

Lemma int_fields_Raise vals e :
  int_fields vals = Raise e →
  ∃ val, val ∈ filter (λ val, Py.isdigit (Py.strip val) = true) vals ∧ Py.int val = Raise e.
Proof.
  induction vals as [|val vals IH]; simpl; [done|].
  rewrite filter_cons. destruct (Py.isdigit (Py.strip val)) eqn:Hsel.
  - rewrite decide_True by done.
    destruct (Py.int val) as [n|e'] eqn:Hint; simpl.
    + destruct (int_fields vals) as [ns|e'] eqn:Hrest; simpl; [done|].
      intros [= ->]. destruct IH as (val' & Hin & Hval'); [done|].
      exists val'. split; [by right | done].
    + intros [= ->]. exists val. split; [by left | done].
  - rewrite decide_False by (simpl; congruence). exact IH.
Qed.

Lemma int_fields_raises vals val e :
  val ∈ filter (λ val, Py.isdigit (Py.strip val) = true) vals → Py.int val = Raise e →
  ∃ e', int_fields vals = Raise e'.
Proof.
  intros Hin Hval. destruct (int_fields vals) as [scores|e'] eqn:Hrun; [|by eexists].
  apply int_fields_Ok in Hrun.
  apply list_elem_of_lookup in Hin as [i Hi].
  destruct (Forall2_lookup_l _ _ _ _ _ Hrun Hi) as (n & _ & Hn). by rewrite Hval in Hn.
Qed.

Lemma extract_step_shift path rows : ∀ cs out,
  foldl (extract_step path) (cs, out) rows
  = (cs ++ (foldl (extract_step path) ([], []) rows).1,
     out ++ (foldl (extract_step path) ([], []) rows).2).
Proof.
  induction rows as [|row rows IH]; intros cs out; simpl; [by rewrite !app_nil_r|].
  unfold extract_step at 2 4 6. destruct (parse_panas_row row) as [[d|]|e]; simpl.
  - rewrite IH, (IH [d]). simpl. by rewrite <-app_assoc.
  - apply IH.
  - rewrite IH, (IH [] [_]). simpl. by rewrite <-app_assoc.
Qed.

Lemma extract_panas_scores_app path r1 r2 :
  extract_panas_scores path (r1 ++ r2)
  = ((extract_panas_scores path r1).1 ++ (extract_panas_scores path r2).1,
     (extract_panas_scores path r1).2 ++ (extract_panas_scores path r2).2).
Proof.
  unfold extract_panas_scores.
  rewrite (filter_app (λ r : list string, is_panas_row r = true)), foldl_app.
  match goal with
  | |- context [foldl ?f ?a (filter ?P r1)] => destruct (foldl f a (filter P r1)) as [cs out]
  end.
  apply extract_step_shift.
Qed.

Lemma extract_panas_scores_cons path row rest :
  extract_panas_scores path (row :: rest)
  = ((contribution path row).1 ++ (extract_panas_scores path rest).1,
     (contribution path row).2 ++ (extract_panas_scores path rest).2).
Proof. apply (extract_panas_scores_app path [row] rest). Qed.

Lemma contribution_unmarked path row :
  is_panas_row row = false → contribution path row = ([], []).
Proof.
  intros Hrow. unfold contribution, extract_panas_scores.
  rewrite filter_cons, decide_False by (simpl; congruence). done.
Qed.

Lemma contribution_marked path row :
  is_panas_row row = true →
  contribution path row
  = match parse_panas_row row with
    | Ok (Some d) => ([d], [])
    | Ok None => ([], [])
    | Raise e => ([], [Failed_to_parse_PANAS path e])
    end.
Proof.
  intros Hrow. unfold contribution, extract_panas_scores.
  rewrite filter_cons, decide_True by done. simpl. unfold extract_step.
  by destruct (parse_panas_row row) as [[d|]|e].
Qed.

Lemma parse_panas_row_Some row d :
  parse_panas_row row = Ok (Some d) ↔
  ∃ scores, Forall2 (λ val n, Py.int val = Ok n) (numeric_fields row) scores
            ∧ (length PANAS_ITEMS ≤ length scores)%nat
            ∧ d = Py.dict (zip PANAS_ITEMS scores).
Proof.
  unfold parse_panas_row, numeric_fields. split.
  - destruct (int_fields (tail row)) as [scores|e] eqn:Hrun;
      cbn [mbind result_mbind result_bind]; [|done].
    destruct (length scores <? length PANAS_ITEMS)%nat eqn:Hlen; [done|].
    intros [= <-]. exists scores. apply int_fields_Ok in Hrun.
    apply Nat.ltb_ge in Hlen. done.
  - intros (scores & Hs%int_fields_Ok & Hlen & ->). rewrite Hs.
    cbn [mbind result_mbind result_bind].
    apply Nat.ltb_ge in Hlen. by rewrite Hlen.
Qed.

Lemma parse_panas_row_short row :
  (length (numeric_fields row) < length PANAS_ITEMS)%nat →
  ∀ d, parse_panas_row row ≠ Ok (Some d).
Proof.
  intros Hlen d (scores & Hs & Hlen' & _)%parse_panas_row_Some.
  apply Forall2_length in Hs. lia.
Qed.

Lemma parse_panas_row_Raise row e :
  parse_panas_row row = Raise e →
  ∃ val, val ∈ numeric_fields row ∧ Py.int val = Raise e.
Proof.
  unfold parse_panas_row, numeric_fields.
  destruct (int_fields (tail row)) as [scores|e'] eqn:Hrun;
    cbn [mbind result_mbind result_bind].
  - by destruct (_ <? _)%nat.
  - intros [= ->]. by apply int_fields_Raise.
Qed.

Lemma parse_panas_row_raises row val e :
  val ∈ numeric_fields row → Py.int val = Raise e → ∃ e', parse_panas_row row = Raise e'.
Proof.
  intros Hin Hval. unfold parse_panas_row.
  destruct (int_fields_raises (tail row) val e Hin Hval) as [e' ->]. by exists e'.
Qed.

(** C7: what one row of the file adds to the result of
    [extract_panas_scores].  The result on a file is the result on the rows
    before, what the row adds, and the result on the rows after.  A row
    whose first field does not start with ["# PANAS"] adds nothing; a row
    with fewer than 26 numeric fields adds no score set; a marked row whose
    numeric fields all convert, at least 26 of them, adds one dictionary
    that binds the adjective at position [i] to the value at position [i]
    and binds nothing else, so values after the 26th are ignored; and a
    marked row with a numeric field that [int] rejects adds no score set and
    one printed line.  The function returns a pair and raises nothing. *)
Theorem extract_panas_scores_row path r1 row r2 :
  extract_panas_scores path (r1 ++ row :: r2)
  = ((extract_panas_scores path r1).1 ++ (contribution path row).1
       ++ (extract_panas_scores path r2).1,
     (extract_panas_scores path r1).2 ++ (contribution path row).2
       ++ (extract_panas_scores path r2).2)
  ∧ (is_panas_row row = false → contribution path row = ([], []))
  ∧ ((length (numeric_fields row) < 26)%nat → (contribution path row).1 = [])
  ∧ (is_panas_row row = true →
     ∀ scores, Forall2 (λ val n, Py.int val = Ok n) (numeric_fields row) scores →
               (26 ≤ length scores)%nat →
     ∃ d, contribution path row = ([d], [])
          ∧ (∀ i key, PANAS_ITEMS !! i = Some key → d !! key = scores !! i)
          ∧ (∀ key, key ∉ PANAS_ITEMS → d !! key = None))
  ∧ (is_panas_row row = true →
     ∀ val e, val ∈ numeric_fields row → Py.int val = Raise e →
     ∃ e', contribution path row = ([], [Failed_to_parse_PANAS path e'])).
Proof.
  split; [|split; [|split; [|split]]].
  - rewrite extract_panas_scores_app, extract_panas_scores_cons. done.
  - apply contribution_unmarked.
  - intros Hlen. destruct (is_panas_row row) eqn:Hrow.
    + rewrite contribution_marked by done.
      pose proof (parse_panas_row_short row Hlen) as Hshort.
      destruct (parse_panas_row row) as [[d|]|e]; [|done|done].
      by destruct (Hshort d).
    + by rewrite contribution_unmarked.
  - intros Hrow scores Hscores Hlen.
    exists (Py.dict (zip PANAS_ITEMS scores)). split; [|split].
    + rewrite contribution_marked by done.
      assert (parse_panas_row row = Ok (Some (Py.dict (zip PANAS_ITEMS scores)))) as ->; [|done].
      apply parse_panas_row_Some. by exists scores.
    + intros i key Hkey. apply dict_zip_Some; [apply PANAS_ITEMS_NoDup | exact Hlen | done].
    + intros key Hkey. by apply dict_zip_None.
  - intros Hrow val e Hin Hval. rewrite contribution_marked by done.
    destruct (parse_panas_row_raises row val e Hin Hval) as [e' ->]. by exists e'.
Qed.

Lemma elem_of_extract_panas_scores path reader d :
  d ∈ (extract_panas_scores path reader).1 →
  ∃ row, row ∈ reader ∧ is_panas_row row = true ∧ parse_panas_row row = Ok (Some d).
Proof.
  induction reader as [|row reader IH]; [by intros ?%elem_of_nil|].
  rewrite extract_panas_scores_cons. simpl. intros [Hd|Hd]%elem_of_app.
  - exists row. split; [by left|]. destruct (is_panas_row row) eqn:Hrow.
    + split; [done|]. rewrite contribution_marked in Hd by done.
      destruct (parse_panas_row row) as [[d'|]|e]; simpl in Hd.
      * by apply list_elem_of_singleton in Hd as ->.
      * by apply elem_of_nil in Hd.
      * by apply elem_of_nil in Hd.
    + rewrite contribution_unmarked in Hd by done. by apply elem_of_nil in Hd.
  - destruct (IH Hd) as (row' & Hin & Hrow'). exists row'. split; [by right | done].
Qed.

Lemma int_fields_drop pre val post :
  Py.isdigit (Py.strip val) = false →
  int_fields (pre ++ val :: post) = int_fields (pre ++ post).
Proof.
  intros Hval. induction pre as [|v pre IH]; simpl; [by rewrite Hval|].
  by rewrite IH.
Qed.

Lemma contribution_drop path field0 pre val post :
  Py.isdigit (Py.strip val) = false →
  contribution path (field0 :: pre ++ val :: post) = contribution path (field0 :: pre ++ post).
Proof.
  intros Hval. destruct (Py.startswith field0 "# PANAS") eqn:Hrow.
  - rewrite !contribution_marked by done. unfold parse_panas_row. simpl tail.
    by rewrite int_fields_drop.
  - by rewrite !contribution_unmarked.
Qed.

Lemma decimal_literal_isdigit s : decimal_literal s → Py.isdigit s = true.
Proof.
  intros [Hne Hall]. destruct s as [|c s]; [done|]. unfold Py.isdigit.
  eapply str_all_impl; [|exact Hall]. intros a Ha. unfold Py.isdigit_char. by rewrite Ha.
Qed.

(** C10, as the code has it: every dictionary that [extract_panas_scores]
    returns comes from one marked row of the file, and binds the adjective
    at position [i] to the non-negative integer that the [i]-th numeric
    field of that row denotes, a field that is a run of decimal digits once
    stripped; and a field whose stripped form is not made of digits is
    dropped before the pairing: the result is that of the file without the
    field. *)
Theorem extract_panas_scores_values path reader :
  (∀ d, d ∈ (extract_panas_scores path reader).1 →
     ∃ row, row ∈ reader ∧ is_panas_row row = true
       ∧ ∀ i key, PANAS_ITEMS !! i = Some key →
           ∃ val n, numeric_fields row !! i = Some val
                    ∧ decimal_literal (Py.strip val)
                    ∧ Py.int val = Ok n ∧ 0 ≤ n ∧ d !! key = Some n)
  ∧ (∀ r1 field0 pre val post r2,
       reader = r1 ++ (field0 :: pre ++ val :: post) :: r2 →
       Py.isdigit (Py.strip val) = false →
       extract_panas_scores path reader
       = extract_panas_scores path (r1 ++ (field0 :: pre ++ post) :: r2)).
Proof.
  split.
  - intros d (row & Hin & Hrow & Hparse)%elem_of_extract_panas_scores.
    exists row. split; [done|]. split; [done|]. intros i key Hkey.
    apply parse_panas_row_Some in Hparse as (scores & Hscores & Hlen & ->).
    assert (i < length scores)%nat as Hi by (apply lookup_lt_Some in Hkey; lia).
    destruct (lookup_lt_is_Some_2 scores i Hi) as [n Hn].
    destruct (Forall2_lookup_r _ _ _ _ _ Hscores Hn) as (val & Hval & Hint).
    assert (Py.isdigit (Py.strip val) = true) as Hsel.
    { apply list_elem_of_lookup_2 in Hval. by apply list_elem_of_filter in Hval as [? _]. }
    exists val, n. split; [done|]. split; [|split; [done|split]].
    + split; [by destruct (Py.strip val) | by eapply counted_field_decimal].
    + by eapply counted_field_nonneg.
    + rewrite <-Hn. apply dict_zip_Some; [apply PANAS_ITEMS_NoDup | done | done].
  - intros r1 field0 pre val post r2 -> Hval.
    rewrite !extract_panas_scores_app, !extract_panas_scores_cons.
    by rewrite contribution_drop.
Qed.

(** C10 fails as stated: the superscript two is not a decimal digit, yet
    [isdigit] selects it, [int] rejects it, and the row that holds it is
    rejected instead of losing only that field. *)
Lemma extract_panas_scores_superscript_rejects_row :
  ¬ decimal_literal (Py.strip superscript_two)
  ∧ extract_panas_scores "quest.csv" [row_of_threes ++ [superscript_two]]
    = ([], [Failed_to_parse_PANAS "quest.csv" (ValueError_int superscript_two)])
  ∧ length (extract_panas_scores "quest.csv" [row_of_threes]).1 = 1%nat
  ∧ ¬ (∀ path r1 field0 pre val post r2,
         ¬ decimal_literal (Py.strip val) →
         extract_panas_scores path (r1 ++ (field0 :: pre ++ val :: post) :: r2)
         = extract_panas_scores path (r1 ++ (field0 :: pre ++ post) :: r2)).
Proof.
  assert (¬ decimal_literal (Py.strip superscript_two)) as Hnd.
  { intros [_ Hall]. vm_compute in Hall. discriminate Hall. }
  assert (extract_panas_scores "quest.csv" [row_of_threes ++ [superscript_two]]
          = ([], [Failed_to_parse_PANAS "quest.csv" (ValueError_int superscript_two)])) as Hrej.
  { vm_compute. reflexivity. }
  assert (length (extract_panas_scores "quest.csv" [row_of_threes]).1 = 1%nat) as Hacc.
  { vm_compute. reflexivity. }
  split; [exact Hnd|]. split; [exact Hrej|]. split; [exact Hacc|].
  intros Hclaim.
  specialize (Hclaim "quest.csv"%string [] "# PANAS"%string (replicate 26 "3"%string)
                     superscript_two [] [] Hnd).
  change ([] ++ [("# PANAS"%string :: replicate 26 "3"%string ++ [superscript_two])])
    with [row_of_threes ++ [superscript_two]] in Hclaim.
  rewrite Hrej, app_nil_r in Hclaim.
  change ([] ++ [("# PANAS"%string :: replicate 26 "3"%string)]) with [row_of_threes] in Hclaim.
  rewrite <-Hclaim in Hacc. discriminate Hacc.
Qed.

(** ** The error monad *)

Lemma for_each_collect {A B : Type} (f : A → result B) xs : ∀ acc out,
  for_each (λ acc x, v ← f x; Ok (acc ++ [v])) xs acc = Ok out
  ↔ ∃ vs, out = acc ++ vs ∧ Forall2 (λ x v, f x = Ok v) xs vs.
Proof.
  induction xs as [|x xs IH]; intros acc out; cbn [for_each].
  - split.
    + intros [= <-]. exists []. by rewrite app_nil_r.
    + intros (vs & -> & ->%Forall2_nil_inv_l). by rewrite app_nil_r.
  - destruct (f x) as [v|e] eqn:Hx; cbn [mbind result_mbind result_bind].
    + rewrite IH. split.
      * intros (vs & -> & Hvs). exists (v :: vs). rewrite <-app_assoc. split; [done|].
        by constructor.
      * intros (vs & -> & (v' & vs' & Hv' & Hvs' & ->)%Forall2_cons_inv_l).
        exists vs'. rewrite <-app_assoc. split; [|done].
        rewrite Hx in Hv'. by injection Hv' as ->.
    + split; [done|].
      intros (vs & -> & (v' & vs' & Hv' & Hvs' & ->)%Forall2_cons_inv_l).
      by rewrite Hx in Hv'.
Qed.

Lemma for_each_collect_total {A B : Type} (f : A → result B) xs acc :
  (∀ x, x ∈ xs → ∃ v, f x = Ok v) →
  ∃ vs, for_each (λ acc x, v ← f x; Ok (acc ++ [v])) xs acc = Ok (acc ++ vs)
        ∧ Forall2 (λ x v, f x = Ok v) xs vs.
Proof.
  intros Hall.
  assert (∃ vs, Forall2 (λ x v, f x = Ok v) xs vs) as [vs Hvs].
  { induction xs as [|x xs IH]; [by exists []|].
    destruct (Hall x) as [v Hv]; [by left|].
    destruct IH as [vs Hvs]; [intros x' Hx'; apply Hall; by right|].
    exists (v :: vs). by constructor. }
  exists vs. split; [|done]. apply for_each_collect. by exists vs.
Qed.

(** ** Regression targets *)

Lemma list_getitem_Ok {A : Type} (l : list A) (i : Z) :
  0 ≤ i < Z.of_nat (length l) →
  ∃ a, Py.list_getitem l i = Ok a ∧ l !! Z.to_nat i = Some a.
Proof.
  intros Hi. unfold Py.list_getitem.
  destruct (i <? 0) eqn:Hneg; [lia|]. rewrite Hneg.
  destruct (lookup_lt_is_Some_2 l (Z.to_nat i)) as [a Ha]; [lia|].
  rewrite Ha. by exists a.
Qed.

Lemma TARGET_PANAS_in_PANAS_ITEMS : Forall (λ key, key ∈ PANAS_ITEMS) TARGET_PANAS.
Proof. apply (bool_decide_unpack _). by vm_compute. Qed.

Lemma score_vec_fallback panas label :
  Z.of_nat (length panas) ≤ label - 1 →
  score_vec panas label = Ok (replicate (length TARGET_PANAS) 0).
Proof. intros Hlen. unfold score_vec. by rewrite (proj2 (Z.leb_le _ _) Hlen). Qed.

Lemma score_vec_lookup panas label :
  1 ≤ label → label - 1 < Z.of_nat (length panas) →
  (∀ d key, d ∈ panas → key ∈ PANAS_ITEMS → is_Some (d !! key)) →
  ∃ d vec, panas !! Z.to_nat (label - 1) = Some d
           ∧ score_vec panas label = Ok vec
           ∧ Forall2 (λ key v, d !! key = Some v) TARGET_PANAS vec.
Proof.
  intros Hpos Hlen Htotal. unfold score_vec.
  rewrite (proj2 (Z.leb_gt _ _) Hlen).
  destruct (list_getitem_Ok panas (label - 1)) as (d & -> & Hd); [lia|].
  cbn [mbind result_mbind result_bind].
  destruct (for_each_collect_total (Py.dict_getitem d) TARGET_PANAS []) as (vec & Hrun & Hvec).
  { intros key Hkey. unfold Py.dict_getitem.
    destruct (Htotal d key) as [v ->]; [by eapply list_elem_of_lookup_2 | | by exists v].
    pose proof TARGET_PANAS_in_PANAS_ITEMS as Hsub. rewrite Forall_forall in Hsub. auto. }
  exists d, vec. split; [done|]. split; [exact Hrun|].
  eapply Forall2_impl; [exact Hvec|]. intros key v. unfold Py.dict_getitem.
  destruct (d !! key); [by intros [= ->] | done].
Qed.

Section LabelFacts.
Context {Row : Type}.
Implicit Types (X : list Row) (y : list Z).

Lemma create_windows_body_nonneg X y W acc acc' i :
  create_windows_body X y W acc i = Ok acc' →
  Forall (λ l, 0 ≤ l) acc.2 → Forall (λ l, 0 ≤ l) acc'.2.
Proof.
  unfold create_windows_body. destruct (Np.any_eq0 _); [by intros [= <-]|].
  destruct (Np.bincount _) as [counts|]; cbn [mbind result_mbind result_bind]; [|done].
  destruct (Np.argmax counts) as [m|]; cbn [mbind result_mbind result_bind]; [|done].
  intros [= <-] Hacc. simpl. apply Forall_app. split; [done|].
  constructor; [lia | constructor].
Qed.

Lemma for_each_create_windows_nonneg X y W idxs : ∀ acc out,
  for_each (create_windows_body X y W) idxs acc = Ok out →
  Forall (λ l, 0 ≤ l) acc.2 → Forall (λ l, 0 ≤ l) out.2.
Proof.
  induction idxs as [|i idxs IH]; intros acc out; cbn [for_each].
  - by intros [= <-].
  - destruct (create_windows_body X y W acc i) as [acc'|] eqn:Hb;
      cbn [mbind result_mbind result_bind]; [|done].
    intros Hrun Hacc. eapply IH; [exact Hrun|]. by eapply create_windows_body_nonneg.
Qed.

(** Every label that [create_windows] returns is at least 1. *)
Lemma create_windows_labels_positive X y W S ws ls :
  create_windows X y W S = Ok (ws, ls) → Forall (λ l, 1 ≤ l) ls.
Proof.
  intros Hrun. pose proof Hrun as (_ & _ & Hmode)%create_windows_Ok.
  assert (Forall (λ l, 0 ≤ l) ls) as Hnn.
  { unfold create_windows in Hrun. destruct (Np.range _ S) as [idxs|];
      cbn [mbind result_mbind result_bind] in Hrun; [|done].
    by apply for_each_create_windows_nonneg in Hrun. }
  apply Forall2_strengthen_l with (Q := λ i, 0 ∉ window_labels y W i) in Hmode;
    [|apply kept_Forall].
  apply Forall2_Forall_r with (Q := λ l, l ≠ 0) in Hmode.
  - rewrite Forall_forall in Hnn, Hmode |- *. intros l Hl.
    specialize (Hnn l Hl). specialize (Hmode l Hl). lia.
  - apply Forall_forall. intros i _ l [Hz (Hin & _)] ->. done.
Qed.

End LabelFacts.

Lemma extracted_dict_lookup path reader d :
  d ∈ (extract_panas_scores path reader).1 →
  ∃ row scores,
    row ∈ reader ∧ is_panas_row row = true
    ∧ Forall2 (λ val n, Py.int val = Ok n) (numeric_fields row) scores
    ∧ (length PANAS_ITEMS ≤ length scores)%nat
    ∧ ∀ i key, PANAS_ITEMS !! i = Some key → d !! key = scores !! i.
Proof.
  intros (row & Hin & Hrow & Hparse)%elem_of_extract_panas_scores.
  apply parse_panas_row_Some in Hparse as (scores & Hscores & Hlen & ->).
  exists row, scores. repeat (split; [done|]).
  intros i key Hkey. apply dict_zip_Some; [apply PANAS_ITEMS_NoDup | done | done].
Qed.

Lemma extracted_dict_total path reader d key :
  d ∈ (extract_panas_scores path reader).1 → key ∈ PANAS_ITEMS → is_Some (d !! key).
Proof.
  intros (row & scores & _ & _ & _ & Hlen & Hd)%extracted_dict_lookup
         [i Hi]%list_elem_of_lookup.
  rewrite (Hd i key Hi). apply lookup_lt_is_Some_2.
  apply lookup_lt_Some in Hi. lia.
Qed.

(** C6: the regression vector that [load_wesad_dataset] gives the windows
    of a subject.  For the labels [win_y] that [create_windows] returned and
    the score sets parsed from the questionnaire, the loop over the labels
    returns one vector of 7 entries per window: all zeros when
    [label - 1] is not below the number of score sets, and otherwise the
    entries of score set [label - 1] under the adjectives of
    [TARGET_PANAS], in that order. *)
Theorem y_reg_assignment {Row : Type} path reader (X : list Row) y W S win_x win_y :
  create_windows X y W S = Ok (win_x, win_y) →
  ∃ y_reg,
    assign_y_reg (extract_panas_scores path reader).1 win_y = Ok y_reg
    ∧ length TARGET_PANAS = 7%nat
    ∧ Forall2
        (λ label vec,
           length vec = 7%nat
           ∧ (Z.of_nat (length (extract_panas_scores path reader).1) ≤ label - 1 →
              vec = replicate 7 0)
           ∧ (label - 1 < Z.of_nat (length (extract_panas_scores path reader).1) →
              ∃ d, (extract_panas_scores path reader).1 !! Z.to_nat (label - 1) = Some d
                   ∧ Forall2 (λ key v, d !! key = Some v) TARGET_PANAS vec))
        win_y y_reg.
Proof.
  intros Hpos%create_windows_labels_positive.
  set (panas := (extract_panas_scores path reader).1).
  assert (∀ label, 1 ≤ label →
            ∃ vec, score_vec panas label = Ok vec
              ∧ length vec = 7%nat
              ∧ (Z.of_nat (length panas) ≤ label - 1 → vec = replicate 7 0)
              ∧ (label - 1 < Z.of_nat (length panas) →
                 ∃ d, panas !! Z.to_nat (label - 1) = Some d
                      ∧ Forall2 (λ key v, d !! key = Some v) TARGET_PANAS vec)) as Hvec.
  { intros label Hlabel.
    destruct (Z_le_gt_dec (Z.of_nat (length panas)) (label - 1)) as [Hout|Hin].
    - exists (replicate 7 0). split; [by apply score_vec_fallback|].
      split; [done|]. split; [done | lia].
    - destruct (score_vec_lookup panas label) as (d & vec & Hd & Hrun & Hvec);
        [lia | lia | intros d key; apply extracted_dict_total |].
      exists vec. split; [done|]. split; [by apply Forall2_length in Hvec|].
      split; [lia|]. intros _. by exists d. }
  destruct (for_each_collect_total (score_vec panas) win_y []) as (y_reg & Hrun & Hy).
  { intros label Hlabel. rewrite Forall_forall in Hpos.
    destruct (Hvec label (Hpos _ Hlabel)) as (vec & Hrun & _). by exists vec. }
  exists y_reg. split; [exact Hrun|]. split; [done|].
  apply Forall2_same_length_lookup. split; [by eapply Forall2_length|].
  intros j label vec Hlabel Hj.
  rewrite Forall_forall in Hpos.
  destruct (Hvec label) as (vec' & Hrun' & Hprops).
  { apply Hpos. by eapply list_elem_of_lookup_2. }
  pose proof (Forall2_lookup_lr _ _ _ _ _ _ Hy Hlabel Hj) as Hrun''.
  cbv beta in Hrun''. rewrite Hrun' in Hrun''. by injection Hrun'' as <-.
Qed.

(** ** Rescaling *)

(** A questionnaire score from 1 to 5 is rescaled into the unit interval. *)
Lemma rescale_score_unit_interval v :
  1 ≤ v ≤ 5 →
  F64.leb (F64.of_int 0) (rescale v) = true ∧ F64.leb (rescale v) (F64.of_int 1) = true.
Proof.
  intros Hv.
  assert (v = 1 ∨ v = 2 ∨ v = 3 ∨ v = 4 ∨ v = 5) as [->|[->|[->|[->| ->]]]] by lia;
    by vm_compute.
Qed.

(** The fallback entry 0 is rescaled to -0.25, exactly. *)
Lemma rescale_fallback : rescale 0 = S754_finite true 4503599627370496 (-54).
Proof. by vm_compute. Qed.

(** C3 breaks on the fallback windows: the all-zero vector that
    [load_wesad_dataset] gives a window whose condition has no score set is
    rescaled with the scores, and every coordinate of it becomes -0.25,
    below the unit interval. *)
Theorem fallback_target_rescaled_below_zero panas label :
  Z.of_nat (length panas) ≤ label - 1 →
  ∃ vec, score_vec panas label = Ok vec
         ∧ length (map rescale vec) = 7%nat
         ∧ Forall (λ x, F64.ltb x (F64.of_int 0) = true) (map rescale vec).
Proof.
  intros Hlen. exists (replicate (length TARGET_PANAS) 0).
  split; [by apply score_vec_fallback|]. split; [done|].
  by repeat constructor.
Qed.

Ltac step_bind := cbn [mbind result_mbind result_bind mret result_mret].

Lemma for_each_Raise {A S : Type} (P : exn → Prop) (body : S → A → result S) xs :
  (∀ acc x e, body acc x = Raise e → P e) →
  ∀ acc e, for_each body xs acc = Raise e → P e.
Proof.
  intros Hbody. induction xs as [|x xs IH]; intros acc e; cbn [for_each]; [done|].
  destruct (body acc x) as [acc'|e'] eqn:Hx; step_bind; [apply IH|].
  intros [= ->]. by eapply Hbody.
Qed.

Lemma for_each_invariant {A S : Type} (I : S → Prop) (body : S → A → result S) xs :
  (∀ acc x acc', body acc x = Ok acc' → I acc → I acc') →
  ∀ acc out, for_each body xs acc = Ok out → I acc → I out.
Proof.
  intros Hbody. induction xs as [|x xs IH]; intros acc out; cbn [for_each].
  - by intros [= <-].
  - destruct (body acc x) as [acc'|] eqn:Hx; step_bind; [|done].
    intros Hrun Hacc. eapply IH; [exact Hrun|]. by eapply Hbody.
Qed.

(** ** Doubles *)

Lemma iter_pos_iter {A : Type} (f : A → A) p : ∀ x, SpecFloat.iter_pos f p x = Pos.iter f x p.
Proof.
  induction p as [p IH|p IH|]; intros x; simpl; [|by rewrite !IH|done].
  by rewrite !IH, <-!Pos.iter_swap.
Qed.

Lemma digits2_pos_size p : digits2_pos p = Pos.size p.
Proof. induction p as [p IH|p IH|]; simpl; by rewrite ?IH. Qed.

Lemma pow2_pos (k : Z) : 0 ≤ k → 0 < 2 ^ k.
Proof. intros Hk. by apply Z.pow_pos_nonneg. Qed.

Lemma pow2_double (k : Z) : 1 ≤ k → 2 ^ k = 2 * 2 ^ (k - 1).
Proof. intros Hk. rewrite <-Z.pow_succ_r by lia. f_equal. lia. Qed.

(** A positive number of [k] binary digits lies between [2^(k-1)] and [2^k]. *)
Lemma digits2_pos_bounds p :
  (2 ^ (Zpos (digits2_pos p) - 1) <= Zpos p) ∧ (Zpos p < 2 ^ Zpos (digits2_pos p)).
Proof.
  rewrite digits2_pos_size. pose proof (Pos.size_gt p) as Hgt. pose proof (Pos.size_le p) as Hle.
  apply Pos2Z.pos_lt_pos in Hgt. apply Pos2Z.pos_le_pos in Hle.
  rewrite Pos2Z.inj_pow in Hgt, Hle. change (Zpos p~0) with (2 * Zpos p) in Hle.
  split; [|exact Hgt]. rewrite (pow2_double (Zpos (Pos.size p))) in Hle by lia. lia.
Qed.

Lemma digits2_pos_unique p (k : Z) :
  (2 ^ (k - 1) <= Zpos p) → (Zpos p < 2 ^ k) → Zpos (digits2_pos p) = k.
Proof.
  intros Hlo Hhi. pose proof (digits2_pos_bounds p) as [Hlo' Hhi'].
  destruct (Z_lt_le_dec k 1) as [Hk|Hk].
  { destruct (Z_lt_le_dec k 0) as [Hneg|Hnn].
    - rewrite Z.pow_neg_r in Hhi by done. lia.
    - assert (k = 0) as -> by lia. simpl in Hhi. lia. }
  destruct (Z.compare_spec (Zpos (digits2_pos p)) k) as [Heq|Hlt|Hgt]; [done| |].
  - assert (2 ^ Zpos (digits2_pos p) <= 2 ^ (k - 1)) by (apply Z.pow_le_mono_r; lia). lia.
  - assert (2 ^ k <= 2 ^ (Zpos (digits2_pos p) - 1)) by (apply Z.pow_le_mono_r; lia). lia.
Qed.

(** One step of the shift: the mantissa is halved, its last bit becomes the
    round bit, and the old round bit goes into the sticky bit. *)
Lemma shr_1_nonneg (m : Z) r s :
  0 ≤ m →
  shr_1 (Build_shr_record m r s) = Build_shr_record (m / 2) (Z.odd m) (r || s).
Proof.
  intros Hm. destruct m as [|[p|p|]|p]; simpl; try done; try lia.
  - f_equal. rewrite Pos2Z.inj_xI. apply (Z.div_unique _ _ _ 1); lia.
  - f_equal. rewrite Pos2Z.inj_xO. apply (Z.div_unique _ _ _ 0); lia.
Qed.

Lemma odd_iff_mod (m : Z) : Z.odd m = true ↔ m mod 2 = 1.
Proof. rewrite Zodd_mod. destruct (Z.eqb_spec (m mod 2) 1); split; congruence. Qed.

Lemma shifted_1 (m : Z) : 0 ≤ m → shifted m 1 (shr_1 (Build_shr_record m false false)).
Proof.
  intros Hm. rewrite shr_1_nonneg by done. unfold shifted. cbn [shr_m shr_r shr_s].
  change (Zpos 1 - 1) with 0. change (2 ^ 1) with 2. change (2 ^ 0) with 1. rewrite Z.mod_1_r.
  split; [done|]. split; [|done]. rewrite odd_iff_mod.
  pose proof (Z.mod_pos_bound m 2 ltac:(lia)). lia.
Qed.

Lemma shifted_succ (m : Z) p mrs :
  0 ≤ m → shifted m p mrs → shifted m (Pos.succ p) (shr_1 mrs).
Proof.
  intros Hm (Hq & Hr & Hs). destruct mrs as [q r s].
  cbn [shr_m shr_r shr_s] in Hq, Hr, Hs.
  pose proof (pow2_pos (Zpos p) ltac:(lia)) as Hpow.
  pose proof (pow2_pos (Zpos p - 1) ltac:(lia)) as Hpow'.
  pose proof (pow2_double (Zpos p) ltac:(lia)) as Hdouble.
  assert (0 ≤ q) as Hqpos by (subst q; apply Z.div_pos; lia).
  rewrite shr_1_nonneg by done. unfold shifted. cbn [shr_m shr_r shr_s].
  rewrite Pos2Z.inj_succ. replace (Z.succ (Zpos p) - 1) with (Zpos p) by lia.
  rewrite Z.pow_succ_r by lia. rewrite (Z.mul_comm 2).
  rewrite <-Z.div_div, <-Hq by lia.
  rewrite Z.rem_mul_r, <-Hq by lia.
  pose proof (Z.mod_pos_bound m (2 ^ Zpos p) Hpow) as Hmod.
  pose proof (Z.mod_pos_bound q 2 ltac:(lia)) as Hmodq.
  split; [done|]. split.
  - rewrite odd_iff_mod.
    assert (q mod 2 = 0 ∨ q mod 2 = 1) as [-> | ->] by lia; lia.
  - rewrite orb_true_iff, Hr, Hs.
    rewrite Hdouble, (Z.mul_comm 2), Z.rem_mul_r by lia.
    pose proof (Z.mod_pos_bound m (2 ^ (Zpos p - 1)) Hpow') as Hmod'.
    pose proof (Z.mod_pos_bound (m / 2 ^ (Zpos p - 1)) 2 ltac:(lia)) as Hbit.
    assert ((m / 2 ^ (Zpos p - 1)) mod 2 = 0 ∨ (m / 2 ^ (Zpos p - 1)) mod 2 = 1)
      as [-> | ->] by lia; lia.
Qed.

Lemma shifted_iter (m : Z) p :
  0 ≤ m → shifted m p (SpecFloat.iter_pos shr_1 p (Build_shr_record m false false)).
Proof.
  intros Hm. rewrite iter_pos_iter.
  apply (Pos.iter_ind _ shr_1 _ (λ p mrs, shifted m p mrs)).
  - by apply shifted_1.
  - intros p' mrs. by apply shifted_succ.
Qed.

(** Rounding to nearest after a shift by [p] is off the shifted number by
    half a unit at most. *)
Lemma round_nearest_even_error (m : Z) p mrs :
  0 ≤ m → shifted m p mrs →
  let m1 := round_nearest_even (shr_m mrs) (loc_of_shr_record mrs) in
  - 2 ^ Zpos p <= 2 * (m1 * 2 ^ Zpos p - m) ∧ 2 * (m1 * 2 ^ Zpos p - m) <= 2 ^ Zpos p.
Proof.
  intros Hm (Hq & Hr & Hs). destruct mrs as [q r s].
  cbn [shr_m shr_r shr_s] in Hq, Hr, Hs. cbn [shr_m].
  pose proof (pow2_pos (Zpos p) ltac:(lia)) as Hpow.
  pose proof (pow2_pos (Zpos p - 1) ltac:(lia)) as Hpow'.
  pose proof (pow2_double (Zpos p) ltac:(lia)) as Hdouble.
  pose proof (Z.div_mod m (2 ^ Zpos p) ltac:(lia)) as Hdm. rewrite <-Hq in Hdm.
  pose proof (Z.mod_pos_bound m (2 ^ Zpos p) Hpow) as Hmod.
  assert (r = true ∧ s = false → m mod 2 ^ Zpos p = 2 ^ (Zpos p - 1)) as Htie.
  { intros [Hr' Hs']. rewrite Hr' in Hr. rewrite Hs' in Hs.
    assert (m mod 2 ^ (Zpos p - 1) = 0) as Hzero.
    { destruct (Z.eq_dec (m mod 2 ^ (Zpos p - 1)) 0); [done|]. by apply Hs in n. }
    revert Hr. rewrite Hdouble, (Z.mul_comm 2), Z.rem_mul_r, Hzero by lia.
    pose proof (Z.mod_pos_bound (m / 2 ^ (Zpos p - 1)) 2 ltac:(lia)) as Hbit.
    intros Hr. pose proof (proj1 Hr eq_refl) as Hhalf. revert Hhalf.
    assert ((m / 2 ^ (Zpos p - 1)) mod 2 = 0 ∨ (m / 2 ^ (Zpos p - 1)) mod 2 = 1)
      as [-> | ->] by lia; lia. }
  destruct r, s; cbn [loc_of_shr_record round_nearest_even].
  - assert (2 ^ (Zpos p - 1) <= m mod 2 ^ Zpos p) by (by apply Hr). nia.
  - specialize (Htie (conj eq_refl eq_refl)). destruct (Z.even q); nia.
  - assert (¬ 2 ^ (Zpos p - 1) <= m mod 2 ^ Zpos p) by (rewrite <-Hr; done). nia.
  - assert (¬ 2 ^ (Zpos p - 1) <= m mod 2 ^ Zpos p) by (rewrite <-Hr; done). nia.
Qed.

Lemma fexp_binary64 (x : Z) : fexp F64.prec F64.emax x = Z.max (x - 53) (-1074).
Proof. reflexivity. Qed.

(** [int] of a positive double [m * 2^e] with a negative exponent. *)
Lemma to_int_finite m (e : Z) :
  e < 0 → F64.to_int (S754_finite false m e) = Ok (Zpos m / 2 ^ (- e)).
Proof.
  intros He. destruct e as [|e|e]; [lia|lia|].
  unfold F64.to_int, F64.split. cbn [fst cond_Zopp]. by rewrite Z.shiftr_div_pow2.
Qed.

(** The product of two doubles, truncated: a mantissa of [53 + n] digits
    is shifted by [n] and rounded to some [m1] half a unit away at most,
    and [int] takes the integer part of [m1 * 2^(e + n)]. *)
Lemma to_int_binary_round_aux P (e : Z) n :
  Zpos (digits2_pos P) = 53 + Zpos n → -1074 ≤ e + Zpos n → e + Zpos n < -1 →
  ∃ m1 : Z,
    - 2 ^ Zpos n <= 2 * (m1 * 2 ^ Zpos n - Zpos P)
    ∧ 2 * (m1 * 2 ^ Zpos n - Zpos P) <= 2 ^ Zpos n
    ∧ F64.to_int (binary_round_aux F64.prec F64.emax false (Zpos P) e loc_Exact)
      = Ok (m1 / 2 ^ (- (e + Zpos n))).
Proof.
  intros Hdigits Hemin Hneg.
  pose proof (digits2_pos_bounds P) as [Hlo Hhi]. rewrite Hdigits in Hlo, Hhi.
  pose proof (pow2_pos (Zpos n) ltac:(lia)) as Hpow.
  replace (53 + Zpos n - 1) with (52 + Zpos n) in Hlo by lia.
  rewrite Z.pow_add_r in Hlo, Hhi by lia.
  unfold binary_round_aux, shr_fexp. cbn [Zdigits2 shr_record_of_loc].
  rewrite fexp_binary64, Hdigits.
  replace (Z.max (53 + Zpos n + e - 53) (-1074) - e) with (Zpos n) by lia.
  cbn [shr].
  pose proof (shifted_iter (Zpos P) n ltac:(lia)) as Hshift.
  pose proof (round_nearest_even_error (Zpos P) n _ ltac:(lia) Hshift) as Herr.
  destruct Hshift as (Hq & _).
  set (mrs := SpecFloat.iter_pos shr_1 n _) in *.
  set (m1 := round_nearest_even (shr_m mrs) (loc_of_shr_record mrs)) in *.
  cbv zeta in Herr. destruct Herr as [Herr1 Herr2].
  assert (2 ^ 52 ≤ m1 ≤ 2 ^ 53) as Hm1.
  { assert (2 ^ 52 ≤ shr_m mrs < 2 ^ 53) as Hqb.
    { rewrite Hq. split.
      - apply Z.div_le_lower_bound; lia.
      - apply Z.div_lt_upper_bound; lia. }
    unfold m1, round_nearest_even.
    destruct (loc_of_shr_record mrs) as [|[]]; [lia| |lia|lia].
    destruct (Z.even _); lia. }
  exists m1. split; [done|]. split; [done|].
  destruct (Z.eq_dec m1 (2 ^ 53)) as [Htop|Hbelow].
  - rewrite Htop. change (2 ^ 53) with 9007199254740992.
    cbn [shr_record_of_loc]. rewrite fexp_binary64.
    change (Zdigits2 9007199254740992) with 54.
    replace (Z.max (54 + (e + Zpos n) - 53) (-1074) - (e + Zpos n)) with 1 by lia.
    cbn [shr SpecFloat.iter_pos shr_1 shr_m orb].
    replace (e + Zpos n + 1 <=? F64.emax - F64.prec) with true
      by (symmetry; apply Z.leb_le; unfold F64.emax, F64.prec; lia).
    rewrite to_int_finite by lia. f_equal.
    replace (- (e + Zpos n)) with (1 + - (e + Zpos n + 1)) by lia.
    rewrite Z.pow_add_r by lia. change 9007199254740992 with (2 * 4503599627370496).
    change (2 ^ 1) with 2. rewrite Z.div_mul_cancel_l; [done| |lia].
    apply Z.pow_nonzero; lia.
  - destruct m1 as [|m|m] eqn:Hm; [simpl in Hm1; lia| |lia].
    assert (Zpos (digits2_pos m) = 53) as Hd53.
    { apply digits2_pos_unique; [simpl; lia|]. lia. }
    cbn [Zdigits2 shr_record_of_loc]. rewrite fexp_binary64, Hd53.
    replace (Z.max (53 + (e + Zpos n) - 53) (-1074) - (e + Zpos n)) with 0 by lia.
    cbn [shr shr_m].
    replace (e + Zpos n <=? F64.emax - F64.prec) with true
      by (symmetry; apply Z.leb_le; unfold F64.emax, F64.prec; lia).
    by rewrite to_int_finite by lia.
Qed.

Lemma iter_xO_value l k : Zpos (Pos.iter xO l k) = Zpos l * 2 ^ Zpos k.
Proof.
  apply (Pos.iter_ind _ xO l (λ k x, Zpos x = Zpos l * 2 ^ Zpos k)).
  - change (2 ^ 1) with 2. lia.
  - intros p x Hx. rewrite Pos2Z.inj_xO, Hx, Pos2Z.inj_succ, Z.pow_succ_r by lia. lia.
Qed.

(** [float(L)] for a positive integer of [d <= 53] binary digits: the
    integer itself, its mantissa shifted to 53 digits. *)
Lemma of_int_normal l :
  Zpos (digits2_pos l) ≤ 53 →
  ∃ A, F64.of_int (Zpos l) = S754_finite false A (Zpos (digits2_pos l) - 53)
       ∧ Zpos A = Zpos l * 2 ^ (53 - Zpos (digits2_pos l))
       ∧ Zpos (digits2_pos A) = 53.
Proof.
  intros Hd. pose proof (digits2_pos_bounds l) as [Hlo Hhi].
  set (d := Zpos (digits2_pos l)) in *.
  unfold F64.of_int, binary_normalize, binary_round, shl_align.
  rewrite fexp_binary64. fold d.
  replace (Z.max (d + 0 - 53) (-1074) - 0) with (d - 53) by lia.
  assert (∃ A, (match d - 53 with
                | Zneg k => (Pos.iter xO l k, Z.max (d + 0 - 53) (-1074))
                | _ => (l, 0)
                end) = (A, d - 53)
               ∧ Zpos A = Zpos l * 2 ^ (53 - d)) as (A & -> & HA).
  { destruct (d - 53) as [|k|k] eqn:Hk; [|lia|].
    - exists l. split; [done|]. replace (53 - d) with 0 by lia. lia.
    - exists (Pos.iter xO l k). split; [f_equal; lia|].
      rewrite iter_xO_value. f_equal. f_equal. lia. }
  exists A. assert (Zpos (digits2_pos A) = 53) as HdA.
  { apply digits2_pos_unique; rewrite HA.
    - replace (2 ^ (53 - 1)) with (2 ^ (d - 1) * 2 ^ (53 - d))
        by (rewrite <-Z.pow_add_r by lia; f_equal; lia).
      apply Z.mul_le_mono_nonneg_r; [apply Z.pow_nonneg; lia | done].
    - replace (2 ^ 53) with (2 ^ d * 2 ^ (53 - d))
        by (rewrite <-Z.pow_add_r by lia; f_equal; lia).
      apply Z.mul_lt_mono_pos_r; [apply pow2_pos; lia | done]. }
  split; [|done].
  unfold binary_round_aux, shr_fexp. cbn [Zdigits2 shr_record_of_loc].
  rewrite fexp_binary64, HdA.
  replace (Z.max (53 + (d - 53) - 53) (-1074) - (d - 53)) with 0 by lia.
  cbn [shr shr_m loc_of_shr_record round_nearest_even Zdigits2 shr_record_of_loc].
  rewrite fexp_binary64, HdA.
  replace (Z.max (53 + (d - 53) - 53) (-1074) - (d - 53)) with 0 by lia.
  cbn [shr shr_m].
  replace (d - 53 <=? F64.emax - F64.prec) with true
    by (symmetry; apply Z.leb_le; unfold F64.emax, F64.prec; lia).
  done.
Qed.

Lemma scale_eq : scale = S754_finite false scale_mantissa (-60).
Proof. by vm_compute. Qed.

(** The arithmetic behind the row count: a number within half a unit of
    [L * a * M / b], where [175 * M = 2^60 - 1], has the integer part
    [L / 175] once the remaining [c = a * 2^60 / b] is divided out. *)
Lemma floor_of_rounded_product (L q r a b c m1 : Z) :
  L = 175 * q + r → 0 ≤ r < 175 → 0 ≤ q →
  1 ≤ a → a * L < 2 ^ 53 → 2 ^ 52 ≤ b ≤ 2 ^ 53 → 0 < c → a * 2 ^ 60 = b * c →
  - b <= 2 * (m1 * b - a * L * Zpos scale_mantissa) →
  2 * (m1 * b - a * L * Zpos scale_mantissa) <= b →
  m1 / c = q.
Proof.
  intros HL Hr Hq Ha HaL Hb Hc Habc Hlo Hhi.
  change (2 ^ 53) with 9007199254740992 in *. change (2 ^ 52) with 4503599627370496 in *.
  change (2 ^ 60) with 1152921504606846976 in *. unfold scale_mantissa in *.
  remember (a * L) as X eqn:HX. remember (a * q) as Y eqn:HY. remember (a * r) as R eqn:HR.
  remember (m1 * b) as W eqn:HW.
  assert (X = 175 * Y + R) as HXY by (subst; lia).
  assert (0 ≤ R ≤ 174 * a) as HRb by (subst R; nia).
  assert (0 ≤ Y) as HYb by (subst Y; nia).
  assert (q * c * b = Y * 1152921504606846976) as Hqcb by (subst Y; nia).
  assert (Y * 1152921504606846976 - b < W) as Hlower by lia.
  assert (W < Y * 1152921504606846976 + a * 1152921504606846976) as Hupper by lia.
  assert (q * c ≤ m1 < (q + 1) * c) as [Hm1lo Hm1hi].
  { split.
    - assert ((q * c - 1) * b < m1 * b) as Hlt by (rewrite <-HW; lia).
      apply Z.mul_lt_mono_pos_r in Hlt; lia.
    - assert (m1 * b < ((q + 1) * c) * b) as Hlt by (rewrite <-HW; lia).
      apply Z.mul_lt_mono_pos_r in Hlt; lia. }
  symmetry. apply (Z.div_unique_pos m1 c q (m1 - q * c)); lia.
Qed.

(** [int(L * (4 / 700))] in double precision is the exact quotient
    [4 * L // 700] for every length a double holds exactly. *)
Lemma new_len_floor (L : Z) :
  0 ≤ L → L < 2 ^ 53 → new_len L = Ok (4 * L / 700).
Proof.
  intros HL0 HL. replace (4 * L / 700) with (L / 175)
    by (change 700 with (4 * 175); by rewrite Z.div_mul_cancel_l).
  destruct L as [|l|l]; [by vm_compute| |lia].
  pose proof (digits2_pos_bounds l) as [Hdlo Hdhi].
  assert (Zpos (digits2_pos l) ≤ 53) as Hd.
  { destruct (Z_le_gt_dec (Zpos (digits2_pos l)) 53) as [|Hgt]; [done|].
    assert (2 ^ 53 ≤ 2 ^ (Zpos (digits2_pos l) - 1)) by (apply Z.pow_le_mono_r; lia). lia. }
  destruct (of_int_normal l Hd) as (A & HA & HAval & HAd).
  set (d := Zpos (digits2_pos l)) in *.
  pose proof (digits2_pos_bounds A) as [HAlo HAhi]. rewrite HAd in HAlo, HAhi.
  unfold new_len. rewrite HA, scale_eq. unfold F64.mul, SFmul. cbn [xorb].
  pose proof (digits2_pos_bounds (A * scale_mantissa)) as [HPlo HPhi].
  set (D := Zpos (digits2_pos (A * scale_mantissa))) in *.
  rewrite Pos2Z.inj_mul in HPlo, HPhi.
  change (2 ^ (53 - 1)) with 4503599627370496 in HAlo.
  change (2 ^ 53) with 9007199254740992 in HAhi.
  assert (2 ^ 104 ≤ Zpos A * Zpos scale_mantissa) as HP104 by (unfold scale_mantissa; lia).
  assert (Zpos A * Zpos scale_mantissa < 2 ^ 106) as HP106 by (unfold scale_mantissa; lia).
  assert (104 < D) as HD1.
  { destruct (Z_lt_le_dec 104 D) as [|Hle]; [done|].
    assert (2 ^ D ≤ 2 ^ 104) by (apply Z.pow_le_mono_r; lia). lia. }
  assert (D - 1 < 106) as HD2.
  { destruct (Z_lt_le_dec (D - 1) 106) as [|Hle]; [done|].
    assert (2 ^ 106 ≤ 2 ^ (D - 1)) by (apply Z.pow_le_mono_r; lia). lia. }
  assert (∃ n : positive, D = 53 + Zpos n ∧ 52 ≤ Zpos n ≤ 53) as (n & HDn & Hn).
  { destruct (D - 53) as [|n|n] eqn:Hn; [lia| |lia]. exists n. lia. }
  destruct (to_int_binary_round_aux (A * scale_mantissa) (d - 53 + -60) n)
    as (m1 & Hlo & Hhi & ->); [exact HDn|lia|lia|].
  f_equal. rewrite Pos2Z.inj_mul, HAval in Hlo, Hhi.
  assert (0 ≤ Zpos l / 175) as Hq by (apply Z.div_pos; lia).
  pose proof (Z.div_mod (Zpos l) 175 ltac:(lia)) as Hdm.
  pose proof (Z.mod_pos_bound (Zpos l) 175 ltac:(lia)) as Hr.
  apply (floor_of_rounded_product (Zpos l) (Zpos l / 175) (Zpos l mod 175)
           (2 ^ (53 - d)) (2 ^ Zpos n) (2 ^ (- (d - 53 + -60 + Zpos n))) m1).
  - exact Hdm.
  - exact Hr.
  - exact Hq.
  - pose proof (pow2_pos (53 - d) ltac:(lia)). lia.
  - rewrite Z.mul_comm, <-HAval. exact HAhi.
  - split; apply Z.pow_le_mono_r; lia.
  - apply pow2_pos. lia.
  - rewrite <-!Z.pow_add_r by lia. f_equal. lia.
  - rewrite (Z.mul_comm (2 ^ (53 - d))). exact Hlo.
  - rewrite (Z.mul_comm (2 ^ (53 - d))). exact Hhi.
Qed.

(** ** load_and_downsample *)

Lemma zip_with_app_rows {F : Type} (rest : list (list (list F))) : ∀ m,
  Forall (λ m', length m' = length m) rest →
  length (foldl (zip_with app) m rest) = length m.
Proof.
  induction rest as [|m' rest IH]; intros m Hrest; simpl; [done|].
  apply Forall_cons in Hrest as [Hm' Hrest].
  rewrite IH; rewrite length_zip_with; [lia|].
  eapply Forall_impl; [exact Hrest|]. simpl. intros ? ->. lia.
Qed.

Lemma forallb_same_rows {F : Type} (m : list (list F)) (rest : list (list (list F))) :
  forallb (λ m' : list (list F), (length m' =? length m)%nat) rest = true
  ↔ Forall (λ m' : list (list F), length m' = length m) rest.
Proof.
  rewrite forallb_forall, Forall_forall. split; intros Hall m' Hm'.
  - apply Nat.eqb_eq, Hall. by apply list_elem_of_In.
  - apply Nat.eqb_eq, Hall. by apply list_elem_of_In.
Qed.

Lemma concatenate_axis1_Ok {F : Type} (ms : list (list (list F))) out :
  concatenate_axis1 ms = Ok out →
  ∃ m rest, ms = m :: rest ∧ Forall (λ m' : list (list F), length m' = length m) rest
            ∧ length out = length m.
Proof.
  destruct ms as [|m rest]; [done|]. simpl.
  destruct (forallb _ rest) eqn:Hall; [|done]. intros [= <-].
  apply forallb_same_rows in Hall. exists m, rest.
  split; [done|]. split; [done|]. by apply zip_with_app_rows.
Qed.

(** Arrays with [n] rows each, at least one of them, are concatenated into
    an array with [n] rows. *)
Lemma concatenate_axis1_rows {F : Type} (ms : list (list (list F))) (n : Z) :
  ms ≠ [] → Forall (λ m : list (list F), Z.of_nat (length m) = n) ms →
  ∃ out, concatenate_axis1 ms = Ok out ∧ Z.of_nat (length out) = n.
Proof.
  intros Hne Hrows. destruct ms as [|m rest]; [done|].
  apply Forall_cons in Hrows as [Hm Hrest]. simpl.
  assert (Forall (λ m' : list (list F), length m' = length m) rest) as Hsame.
  { eapply Forall_impl; [exact Hrest|]. simpl. lia. }
  rewrite (proj2 (forallb_same_rows m rest) Hsame).
  eexists. split; [done|]. by rewrite zip_with_app_rows.
Qed.

Lemma new_len_Raise len e : new_len len = Raise e → e ≠ ValueError_concatenate.
Proof. unfold new_len, F64.to_int. by destruct (F64.mul _ _); intros [= <-]. Qed.

Lemma resampled_Raise {A : Type} (o : option A) e :
  resampled o = Raise e → e = ValueError_resample.
Proof. destruct o; [done|]. by intros [= <-]. Qed.

Lemma dict_getitem_Raise {V : Type} (d : gmap string V) k e :
  Py.dict_getitem d k = Raise e → e = KeyError k.
Proof. unfold Py.dict_getitem. destruct (d !! k); [done|]. by intros [= <-]. Qed.

Lemma pairings_eq device sig sig_key :
  SIGNAL_MAP !! sig = Some sig_key →
  pairings device sig
  = omap (λ part, (λ key, (part, key)) <$> part_key device sig_key part)
         ["chest"; "wrist"]%string.
Proof.
  intros Hsig. unfold pairings. rewrite Hsig. unfold part_key. simpl.
  repeat (destruct (_ || _); simpl);
    repeat (match goal with |- context [sig_key !! ?p] => destruct (sig_key !! p) as [[[|??]|]|] end;
            simpl); done.
Qed.

Lemma SIGNAL_MAP_parts sig sig_key part :
  SIGNAL_MAP !! sig = Some sig_key → part ∈ ["chest"; "wrist"]%string →
  is_Some (sig_key !! part).
Proof.
  intros Hsig%elem_of_list_to_map_2 Hpart.
  assert (part = "chest" ∨ part = "wrist")%string as Hcase.
  { apply elem_of_cons in Hpart as [->|Hpart]; [by left|].
    apply elem_of_cons in Hpart as [->|Hpart]; [by right|]. by apply elem_of_nil in Hpart. }
  clear Hpart.
  rewrite !elem_of_cons, elem_of_nil in Hsig.
  destruct_or!; simplify_eq; vm_compute; by eexists.
Qed.

Section LoaderFacts.
Context {F : Type} `{SciPy F}.
Implicit Types (data : recording F) (parts signal_list : list (list (list F))).

Lemma load_part_unavailable data device sig_key num parts part :
  is_Some (sig_key !! part) → part_key device sig_key part = None →
  load_part data device sig_key num parts part = Ok parts.
Proof.
  unfold part_key, load_part, Py.dict_getitem. intros [key ->].
  destruct (_ || _); [|done]. step_bind. by destruct key as [[|c key]|].
Qed.

Lemma load_part_available data device sig_key num parts part key :
  part_key device sig_key part = Some key →
  load_part data device sig_key num parts part
  = (by_part ← Py.dict_getitem (signal data) part;
     source ← Py.dict_getitem by_part key;
     s_down ← resampled (resample (as_columns source) num);
     Ok (parts ++ [s_down])).
Proof.
  unfold part_key, load_part. destruct (_ || _); [|done].
  unfold Py.dict_getitem.
  destruct (sig_key !! part) as [[[|c k]|]|]; try done. by intros [= <-].
Qed.

(** One round of the loop over the parts leaves the list as it is or
    appends one array with [num] rows. *)
Lemma load_part_Ok data device sig_key num parts part parts' :
  load_part data device sig_key num parts part = Ok parts' →
  (parts' = parts ∧ part_key device sig_key part = None)
  ∨ ∃ s_down, parts' = parts ++ [s_down] ∧ Z.of_nat (length s_down) = num.
Proof.
  destruct (part_key device sig_key part) as [key|] eqn:Hkey.
  - rewrite (load_part_available _ _ _ _ _ _ key) by done.
    destruct (Py.dict_getitem (signal data) part) as [by_part|]; step_bind; [|done].
    destruct (Py.dict_getitem by_part key) as [source|]; step_bind; [|done].
    destruct (resample (as_columns source) num) as [s_down|] eqn:Hres; step_bind; [|done].
    intros [= <-]. right. exists s_down. split; [done|]. by eapply resample_rows.
  - intros Hrun. left. split; [|done]. revert Hrun.
    unfold part_key, load_part, Py.dict_getitem in *. destruct (_ || _); [|by intros [= <-]].
    destruct (sig_key !! part) as [[[|c k]|]|]; step_bind; try done; by intros [= <-].
Qed.

Lemma load_part_Raise data device sig_key num parts part e :
  load_part data device sig_key num parts part = Raise e → e ≠ ValueError_concatenate.
Proof.
  unfold load_part. destruct (_ || _); [|done].
  destruct (Py.dict_getitem sig_key part) as [[[|c key]|]|e0] eqn:Hk; step_bind; try done;
    [|intros [= <-]; by apply dict_getitem_Raise in Hk as ->].
  destruct (Py.dict_getitem (signal data) part) as [by_part|e0] eqn:Hp; step_bind;
    [|intros [= <-]; by apply dict_getitem_Raise in Hp as ->].
  destruct (Py.dict_getitem by_part _) as [source|e0] eqn:Hs; step_bind;
    [|intros [= <-]; by apply dict_getitem_Raise in Hs as ->].
  destruct (resampled _) as [s_down|e0] eqn:Hr; step_bind; [done|].
  apply resampled_Raise in Hr as ->. by intros [= <-].
Qed.

Lemma load_parts_rows data device sig_key num plist parts parts' :
  for_each (load_part data device sig_key num) plist parts = Ok parts' →
  Forall (λ m : list (list F), Z.of_nat (length m) = num) parts →
  Forall (λ m : list (list F), Z.of_nat (length m) = num) parts'.
Proof.
  apply (for_each_invariant (Forall (λ m : list (list F), Z.of_nat (length m) = num))).
  intros acc part acc' [[-> _]|(s_down & -> & Hrows)]%load_part_Ok Hacc; [done|].
  apply Forall_app. split; [done|]. by constructor.
Qed.

(** The parts loop returns the empty list only if the channel has no
    pairing with the device. *)
Lemma load_parts_nil data device sig sig_key num :
  SIGNAL_MAP !! sig = Some sig_key →
  for_each (load_part data device sig_key num) ["chest"; "wrist"]%string [] = Ok [] →
  pairings device sig = [].
Proof.
  intros Hsig. rewrite (pairings_eq _ _ _ Hsig). cbn [for_each].
  destruct (load_part _ _ _ _ _ "chest") as [p1|] eqn:H1; step_bind; [|done].
  destruct (load_part _ _ _ _ _ "wrist") as [p2|] eqn:H2; step_bind; [|done].
  intros [= ->].
  apply load_part_Ok in H2 as [[<- Hk2]|(s & Hs & _)]; [|by destruct p1].
  apply load_part_Ok in H1 as [[_ Hk1]|(s & Hs & _)]; [|done].
  simpl. by rewrite Hk1, Hk2.
Qed.

Lemma load_parts_unavailable data device sig sig_key num :
  SIGNAL_MAP !! sig = Some sig_key → pairings device sig = [] →
  for_each (load_part data device sig_key num) ["chest"; "wrist"]%string [] = Ok [].
Proof.
  intros Hsig. rewrite (pairings_eq _ _ _ Hsig). simpl.
  destruct (part_key device sig_key "chest") eqn:Hk1; [done|].
  destruct (part_key device sig_key "wrist") eqn:Hk2; [done|]. intros _.
  rewrite load_part_unavailable; [|eapply SIGNAL_MAP_parts; [done|by left]|done].
  step_bind.
  rewrite load_part_unavailable; [done|eapply SIGNAL_MAP_parts; [done|by right; left]|done].
Qed.

(** One round of the loop over the signals: a channel without a pairing
    leaves the list as it is, and a channel with one appends a block with
    [num] rows. *)
Lemma load_signal_Ok data device num signal_list sig signal_list' :
  load_signal data device num signal_list sig = Ok signal_list' →
  (signal_list' = signal_list ∧ pairings device sig = [])
  ∨ (pairings device sig ≠ []
     ∧ ∃ block, signal_list' = signal_list ++ [block] ∧ Z.of_nat (length block) = num).
Proof.
  unfold load_signal. unfold Py.dict_getitem at 1.
  destruct (SIGNAL_MAP !! sig) as [sig_key|] eqn:Hsig; step_bind; [|done].
  destruct (for_each _ _ []) as [parts|] eqn:Hparts; step_bind; [|done].
  destruct parts as [|m parts].
  - intros [= <-]. left. split; [done|]. by eapply load_parts_nil.
  - assert (pairings device sig ≠ []) as Hsome.
    { intros Hnone. by rewrite (load_parts_unavailable _ _ sig) in Hparts. }
    apply load_parts_rows in Hparts; [|constructor].
    destruct (concatenate_axis1_rows (m :: parts) num) as (block & -> & Hrows); [done|done|].
    step_bind. intros [= <-]. right. split; [done|]. by exists block.
Qed.

Lemma load_signal_Raise data device num signal_list sig e :
  load_signal data device num signal_list sig = Raise e → e ≠ ValueError_concatenate.
Proof.
  unfold load_signal.
  destruct (Py.dict_getitem SIGNAL_MAP sig) as [sig_key|e0] eqn:Hk; step_bind;
    [|intros [= <-]; by apply dict_getitem_Raise in Hk as ->].
  destruct (for_each _ _ []) as [parts|e'] eqn:Hparts; step_bind.
  - apply load_parts_rows in Hparts; [|constructor].
    destruct parts as [|m parts]; [done|].
    by destruct (concatenate_axis1_rows (m :: parts) num) as (block & -> & Hrows).
  - intros [= ->].
    eapply (for_each_Raise (λ e, e ≠ ValueError_concatenate)); [|exact Hparts].
    intros acc part e0. apply load_part_Raise.
Qed.

Lemma load_signal_unavailable data device num signal_list sig :
  is_Some (SIGNAL_MAP !! sig) → pairings device sig = [] →
  load_signal data device num signal_list sig = Ok signal_list.
Proof.
  intros [sig_key Hsig] Hnone. unfold load_signal, Py.dict_getitem. rewrite Hsig. step_bind.
  by rewrite (load_parts_unavailable _ _ sig).
Qed.

(** The loop over the signals keeps every block at [num] rows and adds a
    block for every channel that has a pairing. *)
Lemma load_signals_Ok data device num signals : ∀ signal_list signal_list',
  for_each (load_signal data device num) signals signal_list = Ok signal_list' →
  Forall (λ m : list (list F), Z.of_nat (length m) = num) signal_list →
  Forall (λ m : list (list F), Z.of_nat (length m) = num) signal_list'
  ∧ (length signal_list ≤ length signal_list')%nat
  ∧ ((∃ sig, sig ∈ signals ∧ pairings device sig ≠ []) →
     (length signal_list < length signal_list')%nat)
  ∧ ((∀ sig, sig ∈ signals → pairings device sig = []) → signal_list' = signal_list).
Proof.
  induction signals as [|sig signals IH]; intros sl sl'; cbn [for_each].
  - intros [= <-] Hsl. split; [done|]. split; [done|]. split; [|done].
    by intros (sig & ?%elem_of_nil & _).
  - destruct (load_signal data device num sl sig) as [sl1|] eqn:Hsig; step_bind; [|done].
    intros Hrun Hsl.
    apply load_signal_Ok in Hsig as [[-> Hnone]|(Hsome & block & -> & Hrows)].
    + destruct (IH _ _ Hrun Hsl) as (Hrows' & Hle & Hlt & Hsame).
      split; [done|]. split; [done|]. split.
      * intros (sig' & [->|Hin]%elem_of_cons & Hsome); [done|]. apply Hlt. by exists sig'.
      * intros Hall. apply Hsame. intros sig' Hin. apply Hall. by right.
    + destruct (IH _ _ Hrun) as (Hrows' & Hle & _ & _).
      { apply Forall_app. split; [done|]. by constructor. }
      rewrite length_app in Hle. simpl in Hle.
      split; [done|]. split; [lia|]. split; [intros _; lia|].
      intros Hall. by specialize (Hall sig ltac:(by left)).
Qed.

Lemma load_signals_Raise data device num signals signal_list e :
  for_each (load_signal data device num) signals signal_list = Raise e →
  e ≠ ValueError_concatenate.
Proof.
  apply (for_each_Raise (λ e, e ≠ ValueError_concatenate)).
  intros acc sig e0. apply load_signal_Raise.
Qed.

Lemma elem_of_pairings device sig sig_key part key :
  SIGNAL_MAP !! sig = Some sig_key → part ∈ ["chest"; "wrist"]%string →
  part_key device sig_key part = Some key → (part, key) ∈ pairings device sig.
Proof.
  intros Hsig Hpart Hkey. rewrite (pairings_eq _ _ _ Hsig).
  apply list_elem_of_omap. exists part. split; [done|]. by rewrite Hkey.
Qed.

Lemma load_part_returns data device sig sig_key num parts part :
  SIGNAL_MAP !! sig = Some sig_key → part ∈ ["chest"; "wrist"]%string →
  (∀ part key, (part, key) ∈ pairings device sig →
     ∃ by_part source, signal data !! part = Some by_part ∧ by_part !! key = Some source) →
  (∀ x, is_Some (resample x num)) →
  ∃ parts', load_part data device sig_key num parts part = Ok parts'.
Proof.
  intros Hsig Hpart Hdata Htotal.
  destruct (part_key device sig_key part) as [key|] eqn:Hkey.
  - rewrite (load_part_available _ _ _ _ _ _ key) by done.
    destruct (Hdata part key) as (by_part & source & Hp & Hs); [by eapply elem_of_pairings|].
    unfold Py.dict_getitem. rewrite Hp. step_bind. rewrite Hs. step_bind.
    destruct (Htotal (as_columns source)) as [s_down ->]. by eexists.
  - rewrite load_part_unavailable; [by eexists | by eapply SIGNAL_MAP_parts | done].
Qed.

Lemma load_signal_returns data device num signal_list sig :
  is_Some (SIGNAL_MAP !! sig) →
  (∀ part key, (part, key) ∈ pairings device sig →
     ∃ by_part source, signal data !! part = Some by_part ∧ by_part !! key = Some source) →
  (∀ x, is_Some (resample x num)) →
  ∃ signal_list', load_signal data device num signal_list sig = Ok signal_list'.
Proof.
  intros [sig_key Hsig] Hdata Htotal. unfold load_signal, Py.dict_getitem.
  rewrite Hsig. step_bind.
  assert (∃ parts, for_each (load_part data device sig_key num)
                     ["chest"; "wrist"]%string [] = Ok parts) as [parts Hparts].
  { cbn [for_each].
    destruct (load_part_returns data device sig sig_key num [] "chest") as [p1 ->];
      [done | by left | done | done |]. step_bind.
    destruct (load_part_returns data device sig sig_key num p1 "wrist") as [p2 ->];
      [done | by right; left | done | done |]. step_bind. by eexists. }
  rewrite Hparts. step_bind.
  apply load_parts_rows in Hparts; [|constructor].
  destruct parts as [|m parts]; [by eexists|].
  destruct (concatenate_axis1_rows (m :: parts) num) as (block & -> & Hrows); [done|done|].
  step_bind. by eexists.
Qed.

Lemma load_signals_returns data device num signals : ∀ signal_list,
  (∀ sig, sig ∈ signals → is_Some (SIGNAL_MAP !! sig)) →
  (∀ sig part key, sig ∈ signals → (part, key) ∈ pairings device sig →
     ∃ by_part source, signal data !! part = Some by_part ∧ by_part !! key = Some source) →
  (∀ x, is_Some (resample x num)) →
  ∃ signal_list', for_each (load_signal data device num) signals signal_list = Ok signal_list'.
Proof.
  induction signals as [|sig signals IH]; intros sl Hnames Hdata Htotal; cbn [for_each];
    [by eexists|].
  destruct (load_signal_returns data device num sl sig) as [sl1 ->];
    [apply Hnames; by left | intros part key; apply Hdata; by left | done |].
  step_bind. apply IH; [|intros sig' part key Hin; apply Hdata; by right|done].
  intros sig' Hin. apply Hnames. by right.
Qed.

Lemma load_signals_unavailable data device num signals : ∀ signal_list,
  (∀ sig, sig ∈ signals → is_Some (SIGNAL_MAP !! sig)) →
  (∀ sig, sig ∈ signals → pairings device sig = []) →
  for_each (load_signal data device num) signals signal_list = Ok signal_list.
Proof.
  induction signals as [|sig signals IH]; intros sl Hnames Hnone; cbn [for_each]; [done|].
  rewrite load_signal_unavailable; [|apply Hnames; by left|apply Hnone; by left].
  step_bind. apply IH; intros sig' Hin; [apply Hnames | apply Hnone]; by right.
Qed.

(** C1, as the code has it: the row count is [int(len(label) * scale)], the
    product truncated and not rounded, which is the quotient
    [4 * len(label) // 700] for every length below [2^53].  When
    [load_and_downsample] returns, that count is computed, every block that
    a channel contributes has that many rows, and so have the signal matrix
    and the label series. *)
Theorem load_and_downsample_rows data signals device X labels :
  load_and_downsample data signals device = Ok (X, labels) →
  ∃ n signal_list,
    new_len (Z.of_nat (length (label data))) = Ok n
    ∧ (Z.of_nat (length (label data)) < 2 ^ 53 →
       n = 4 * Z.of_nat (length (label data)) / 700)
    ∧ for_each (load_signal data device n) signals [] = Ok signal_list
    ∧ Forall (λ block : list (list F), Z.of_nat (length block) = n) signal_list
    ∧ concatenate_axis1 signal_list = Ok X
    ∧ Z.of_nat (length X) = n
    ∧ Z.of_nat (length labels) = n.
Proof.
  unfold load_and_downsample.
  destruct (new_len _) as [n|] eqn:Hn; step_bind; [|done].
  destruct (for_each _ signals []) as [signal_list|] eqn:Hsl; step_bind; [|done].
  destruct (concatenate_axis1 signal_list) as [all_signals|] eqn:Hcat; step_bind; [|done].
  destruct (resample1 _ n) as [labels0|] eqn:Hlab; step_bind; [|done].
  intros [= <- <-]. exists n, signal_list.
  pose proof Hsl as (Hrows & _)%load_signals_Ok; [|constructor].
  split; [done|]. split.
  { intros Hlen. rewrite new_len_floor in Hn by lia. congruence. }
  split; [done|]. split; [done|]. split; [done|]. split.
  - apply concatenate_axis1_Ok in Hcat as (m & rest & -> & _ & ->).
    by apply Forall_cons in Hrows as [? _].
  - rewrite length_map. by eapply resample1_len.
Qed.

(** C8: channels without a source on the selected device.  A channel of
    the table that the sole selected device does not carry adds no block
    and raises nothing.  When some requested channel has a pairing with the
    device, the call never fails in a concatenation, and it returns if the
    requested names are in the table, the record holds the paired sources
    and the resampling succeeds.  When no requested channel has a pairing,
    the call fails: in the concatenation of the empty list, if the names are
    in the table. *)
Theorem load_and_downsample_pairings data signals device :
  (∀ num signal_list sig sig_key,
     device = "chest"%string ∨ device = "wrist"%string →
     SIGNAL_MAP !! sig = Some sig_key → sig_key !! device = Some None →
     load_signal data device num signal_list sig = Ok signal_list)
  ∧ ((∃ sig, sig ∈ signals ∧ pairings device sig ≠ []) →
     load_and_downsample data signals device ≠ Raise ValueError_concatenate
     ∧ ∀ n, new_len (Z.of_nat (length (label data))) = Ok n →
            (∀ sig, sig ∈ signals → is_Some (SIGNAL_MAP !! sig)) →
            (∀ sig part key, sig ∈ signals → (part, key) ∈ pairings device sig →
               ∃ by_part source,
                 signal data !! part = Some by_part ∧ by_part !! key = Some source) →
            (∀ x, is_Some (resample x n)) → (∀ x, is_Some (resample1 x n)) →
            ∃ X labels, load_and_downsample data signals device = Ok (X, labels))
  ∧ ((∀ sig, sig ∈ signals → pairings device sig = []) →
     ∃ e, load_and_downsample data signals device = Raise e
          ∧ ((∀ sig, sig ∈ signals → is_Some (SIGNAL_MAP !! sig)) →
             is_Ok (new_len (Z.of_nat (length (label data)))) →
             e = ValueError_concatenate)).
Proof.
  split; [|split].
  - intros num signal_list sig sig_key Hdev Hsig Hnone.
    apply load_signal_unavailable; [by eexists|].
    rewrite (pairings_eq _ _ _ Hsig). unfold part_key. simpl.
    destruct Hdev as [-> | ->]; rewrite Hnone; simpl; done.
  - intros Hsome. split.
    + unfold load_and_downsample.
      destruct (new_len _) as [n|e] eqn:Hn; step_bind;
        [|intros [= ->]; by apply new_len_Raise in Hn].
      destruct (for_each _ signals []) as [signal_list|e] eqn:Hsl; step_bind;
        [|intros [= ->]; by apply load_signals_Raise in Hsl].
      apply load_signals_Ok in Hsl as (Hrows & _ & Hgrow & _); [|constructor].
      specialize (Hgrow Hsome). simpl in Hgrow.
      destruct (concatenate_axis1_rows signal_list n) as (all_signals & -> & _);
        [by destruct signal_list; [simpl in Hgrow; lia|] | done |].
      step_bind. destruct (resample1 _ n); step_bind; done.
    + intros n Hn Hnames Hdata Htotal Htotal1. unfold load_and_downsample.
      rewrite Hn. step_bind.
      destruct (load_signals_returns data device n signals []) as [signal_list Hsl];
        [done | done | done |].
      rewrite Hsl. step_bind.
      apply load_signals_Ok in Hsl as (Hrows & _ & Hgrow & _); [|constructor].
      specialize (Hgrow Hsome). simpl in Hgrow.
      destruct (concatenate_axis1_rows signal_list n) as (all_signals & -> & _);
        [by destruct signal_list; [simpl in Hgrow; lia|] | done |].
      step_bind. destruct (Htotal1 (map astype_float (label data))) as [labels0 ->].
      step_bind. by eexists _, _.
  - intros Hnone. unfold load_and_downsample.
    destruct (new_len _) as [n|e] eqn:Hn; step_bind.
    + destruct (for_each _ signals []) as [signal_list|e] eqn:Hsl; step_bind.
      * apply load_signals_Ok in Hsl as (_ & _ & _ & Hsame); [|constructor].
        rewrite (Hsame Hnone). step_bind. by exists ValueError_concatenate.
      * exists e. split; [done|]. intros Hnames _.
        by rewrite load_signals_unavailable in Hsl.
    + exists e. split; [done|]. by intros _ [n' Hn'].
Qed.

End LoaderFacts.

(** ** The audio batch *)

Import Audio.

Lemma has_sep_app a b : Py.has_sep (a ++ b) = Py.has_sep a || Py.has_sep b.
Proof. induction a as [|c a IH]; simpl; [done|]. by rewrite IH, orb_assoc. Qed.

Lemma basename_app_sep a f :
  Py.has_sep f = false → Py.basename (a ++ String "/" f) = f.
Proof.
  intros Hf. induction a as [|c a IH]; simpl.
  - by rewrite Hf.
  - rewrite has_sep_app. simpl. by rewrite orb_true_r.
Qed.

(** The file name that a result entry carries is the directory entry the
    path was built from. *)
Lemma basename_join f : Py.has_sep f = false → Py.basename (Py.join AUDIO_DIR f) = f.
Proof.
  intros Hf.
  assert (Py.join AUDIO_DIR f = (AUDIO_DIR ++ String "/" f)%string) as Hjoin.
  { unfold Py.join. destruct f as [|c f]; [done|]. simpl in Hf.
    apply orb_false_iff in Hf as [Hc _].
    destruct (Ascii.eqb_spec c "/") as [->|Hne]; [done|].
    destruct c as [[] [] [] [] [] [] [] []]; try done. }
  rewrite Hjoin. by apply basename_app_sep.
Qed.

Lemma pool_map_Ok {A B : Type} (f : A → result B) xs : ∀ rs,
  pool_map f xs = Ok rs ↔ Forall2 (λ x r, f x = Ok r) xs rs.
Proof.
  induction xs as [|x xs IH]; intros rs; simpl.
  - split; [intros [= <-]; constructor | by intros ->%Forall2_nil_inv_l].
  - destruct (f x) as [b|e] eqn:Hx.
    + destruct (pool_map f xs) as [bs|e] eqn:Hxs.
      * split.
        -- intros [= <-]. constructor; [done | by apply IH].
        -- intros (b' & bs' & Hb' & Hbs' & ->)%Forall2_cons_inv_l.
           apply IH in Hbs'. congruence.
      * split; [done|].
        intros (b' & bs' & Hb' & Hbs' & ->)%Forall2_cons_inv_l. by apply IH in Hbs'.
    + split; [done|]. intros (b' & bs' & Hb' & Hbs' & ->)%Forall2_cons_inv_l. congruence.
Qed.

Lemma pool_map_total {A B : Type} (f : A → result B) xs :
  (∀ x, x ∈ xs → ∃ r, f x = Ok r) → ∃ rs, pool_map f xs = Ok rs.
Proof.
  induction xs as [|x xs IH]; intros Hall; simpl; [by eexists|].
  destruct (Hall x) as [r ->]; [by left|].
  destruct IH as [rs ->]; [intros x' Hx'; apply Hall; by right|]. by eexists.
Qed.

Lemma assign_gpu_cases i : assign_gpu i = 0 ∨ assign_gpu i = 1.
Proof. unfold assign_gpu. destruct (_ =? _); auto. Qed.

Section PipelineFacts.
Context {F : Type} `{Libs F}.

(** What [process_audio] returns once the device is selected: the entry of
    the path. *)
Lemma process_audio_selected path gpu_id :
  cuda_set_device gpu_id = Ok () →
  ∃ r, process_audio (path, gpu_id) = Ok r ∧ entry_for path r.
Proof.
  intros Hdev. unfold process_audio, entry_for. rewrite Hdev.
  cbn [mbind result_mbind result_bind].
  destruct (embedding path) as [emb|e] eqn:Hemb; cbn [mbind result_mbind result_bind].
  - destruct (musicnn_tags path) as [tags|e] eqn:Htags; cbn [mbind result_mbind result_bind].
    + eexists. split; [done|]. split; [done|]. split; [done|]. split; [done|].
      split; [by eapply embedding_size | by eapply musicnn_tags_nonempty].
    + eexists. split; [done|]. split; [done|]. exists e. split; [done|].
      right. split; [by eexists | done].
  - eexists. split; [done|]. split; [done|]. exists e. split; [done|]. by left.
Qed.

Lemma process_audio_device_missing path gpu_id e :
  cuda_set_device gpu_id = Raise e → process_audio (path, gpu_id) = Raise e.
Proof. intros Hdev. unfold process_audio. by rewrite Hdev. Qed.

(** C9, as the code has it: on a machine where both devices can be
    selected, the batch returns one entry per input file, in input order.
    The entry of a file carries the base name of its path; it is a success
    entry with an embedding of 512 values and a non-empty tag list when
    the guarded block runs through, and an error entry with the text of the
    exception when the block raises. *)
Theorem results_entries files :
  cuda_set_device 0 = Ok () → cuda_set_device 1 = Ok () →
  ∃ rs, results files = Ok rs
        ∧ length rs = length files
        ∧ ∀ i path, files !! i = Some path → ∃ r, rs !! i = Some r ∧ entry_for path r.
Proof.
  intros Hgpu0 Hgpu1.
  assert (∀ i, cuda_set_device (assign_gpu i) = Ok ()) as Hdev.
  { intros i. by destruct (assign_gpu_cases i) as [-> | ->]. }
  unfold results.
  destruct (pool_map_total process_audio (file_gpu_pairs files)) as [rs Hrs].
  { intros [path gpu_id] [i Hi]%list_elem_of_lookup. unfold file_gpu_pairs in Hi.
    rewrite list_lookup_imap in Hi. destruct (files !! i) as [p|]; [|done].
    injection Hi as <- <-.
    destruct (process_audio_selected p (assign_gpu i) (Hdev i)) as (r & -> & _).
    by exists r. }
  exists rs. split; [done|]. apply pool_map_Ok in Hrs.
  pose proof (Forall2_length _ _ _ Hrs) as Hlen.
  unfold file_gpu_pairs in Hlen. rewrite length_imap in Hlen. split; [done|].
  intros i path Hpath.
  assert (file_gpu_pairs files !! i = Some (path, assign_gpu i)) as Hpair.
  { unfold file_gpu_pairs. by rewrite list_lookup_imap, Hpath. }
  destruct (Forall2_lookup_l _ _ _ _ _ Hrs Hpair) as (r & Hr & Hrun).
  exists r. split; [done|].
  destruct (process_audio_selected path (assign_gpu i) (Hdev i)) as (r' & Hrun' & Hprops).
  rewrite Hrun in Hrun'. by injection Hrun' as <-.
Qed.

End PipelineFacts.

(** ** When create_windows returns, and what *)

Lemma for_each_is_Ok {A S : Type} (P : A → Prop) (body : S → A → result S) xs :
  (∀ acc x, is_Ok (body acc x) ↔ P x) →
  ∀ acc, is_Ok (for_each body xs acc) ↔ Forall P xs.
Proof.
  intros Hbody. induction xs as [|x xs IH]; intros acc; cbn [for_each].
  - split; [constructor | by eexists].
  - rewrite Forall_cons, <-(Hbody acc x).
    destruct (body acc x) as [acc'|e]; cbn [mbind result_mbind result_bind].
    + rewrite IH. split; [intros ?; split; [by eexists|done] | by intros [_ ?]].
    + split; [by intros [? ?] | by intros [[? ?] _]].
Qed.

Section WindowEdges.
Context {Row : Type}.
Implicit Types (X : list Row) (y : list Z).

Lemma create_windows_body_is_Ok X y W acc i :
  is_Ok (create_windows_body X y W acc i)
  ↔ (0 ∉ window_labels y W i →
     window_labels y W i ≠ [] ∧ Forall (λ v, 0 ≤ v) (window_labels y W i)).
Proof.
  unfold create_windows_body. fold (window_labels y W i).
  destruct (Np.any_eq0 (window_labels y W i)) eqn:Hz.
  - apply any_eq0_true in Hz. split; [done | by eexists].
  - apply any_eq0_false in Hz. split.
    + intros [acc' Hrun] _.
      destruct (Np.bincount _) as [counts|] eqn:Hb; cbn [mbind result_mbind result_bind] in Hrun;
        [|done].
      destruct (Np.argmax counts) as [m|] eqn:Hm; cbn [mbind result_mbind result_bind] in Hrun;
        [|done].
      apply bincount_Ok in Hb as (Hnn & Hnil & _). split; [|done].
      intros Hw. rewrite (Hnil Hw) in Hm. done.
    + intros Hok. destruct (Hok Hz) as [Hne Hnn].
      destruct (bincount_nonneg _ Hnn) as (counts & -> & Hc).
      destruct (argmax_nonempty counts (Hc Hne)) as [m Hm].
      cbn [mbind result_mbind result_bind]. rewrite Hm. by eexists.
Qed.

(** X1: when [create_windows] returns.  The call returns exactly when the
    stride is positive and every visited window without a sentinel holds at
    least one label and no negative label: a zero stride is refused by
    [range], a negative label by [np.bincount], and a window without labels
    by [argmax]. *)
Theorem create_windows_returns_iff X y W S :
  is_Ok (create_windows X y W S)
  ↔ (0 < S)%nat
    ∧ ∀ i, i ∈ candidates (length X) W S → 0 ∉ window_labels y W i →
           window_labels y W i ≠ [] ∧ Forall (λ v, 0 ≤ v) (window_labels y W i).
Proof.
  unfold create_windows, Np.range. destruct S as [|S'].
  - split; [by intros [? ?] | intros [? _]; lia].
  - cbn [mbind result_mbind result_bind]. fold (candidates (length X) W (Datatypes.S S')).
    rewrite (for_each_is_Ok _ _ _ (create_windows_body_is_Ok X y W)), Forall_forall.
    split; [intros Hall; split; [lia | done] | by intros [_ ?]].
Qed.

(** X2: the windows that [create_windows] returns are whole.  Each of them
    is a block of exactly [W] consecutive rows that ends before the last
    row of the matrix, there is one label per window, and a matrix of at
    most [W] rows gives no window. *)
Theorem create_windows_whole_windows X y W S ws ls :
  create_windows X y W S = Ok (ws, ls) →
  length ls = length ws
  ∧ Forall (λ win, length win = W
                   ∧ ∃ i, (i + W < length X)%nat ∧ win = Np.slice X i (i + W)) ws
  ∧ ((length X ≤ W)%nat → ws = [] ∧ ls = []).
Proof.
  intros (HS & -> & Hls)%create_windows_Ok.
  apply Forall2_length in Hls. rewrite length_map.
  assert (Forall (λ i, (i + W < length X)%nat) (kept y W (candidates (length X) W S))) as Hin.
  { apply Forall_forall. intros i [_ Hi]%list_elem_of_filter.
    apply (elem_of_candidates _ _ _ _ HS) in Hi as (k & _ & Hi). done. }
  split; [done|]. split.
  - apply Forall_fmap. eapply Forall_impl; [exact Hin|]. intros i Hi. cbv beta in Hi |- *. split.
    + unfold Np.slice. rewrite length_take, length_drop. lia.
    + by exists i.
  - intros Hshort. destruct (kept y W (candidates (length X) W S)) as [|i idxs].
    + by destruct ls.
    + apply Forall_cons in Hin as [Hi _]. lia.
Qed.

End WindowEdges.

(** ** The layout of the signal matrix *)

Lemma for_each_app {A S : Type} (body : S → A → result S) xs ys : ∀ acc,
  for_each body (xs ++ ys) acc = (acc' ← for_each body xs acc; for_each body ys acc').
Proof.
  induction xs as [|x xs IH]; intros acc; cbn [for_each app]; [done|].
  destruct (body acc x) as [acc'|e]; step_bind; [apply IH | done].
Qed.

Lemma row_across_app {F : Type} (ms ms' : list (list (list F))) r :
  row_across (ms ++ ms') r = row_across ms r ++ row_across ms' r.
Proof. unfold row_across. by rewrite map_app, concat_app. Qed.

Lemma zip_with_app_row {F : Type} (m m' : list (list F)) r :
  length m' = length m →
  default [] (zip_with app m m' !! r) = default [] (m !! r) ++ default [] (m' !! r).
Proof.
  intros Hlen. rewrite lookup_zip_with.
  destruct (m !! r) as [a|] eqn:Ha.
  - destruct (lookup_lt_is_Some_2 m' r) as [b ->]; [|done].
    apply lookup_lt_Some in Ha. lia.
  - simpl. rewrite (lookup_ge_None_2 m' r); [done|]. apply lookup_ge_None in Ha. lia.
Qed.

Lemma hstack_row {F : Type} (rest : list (list (list F))) r : ∀ m,
  Forall (λ m' : list (list F), length m' = length m) rest →
  default [] (foldl (zip_with app) m rest !! r) = row_across (m :: rest) r.
Proof.
  induction rest as [|m' rest IH]; intros m Hrest; simpl.
  - unfold row_across. simpl. by rewrite app_nil_r.
  - apply Forall_cons in Hrest as [Hm' Hrest]. rewrite IH.
    + unfold row_across. simpl. by rewrite zip_with_app_row, <-app_assoc.
    + eapply Forall_impl; [exact Hrest|]. simpl. intros m'' ->.
      rewrite length_zip_with. lia.
Qed.

(** A row of [np.concatenate(ms, axis=1)] is the row of the arrays side
    by side. *)
Lemma concatenate_axis1_row {F : Type} (ms : list (list (list F))) out r :
  concatenate_axis1 ms = Ok out → default [] (out !! r) = row_across ms r.
Proof.
  destruct ms as [|m rest]; [done|]. simpl.
  destruct (forallb _ rest) eqn:Hall; [|done]. intros [= <-].
  apply forallb_same_rows in Hall. by apply hstack_row.
Qed.

Section LoaderLayout.
Context {F : Type} `{SciPy F}.
Implicit Types (data : recording F) (parts signal_list : list (list (list F))).

Lemma load_part_Ok_source data device sig_key num parts part parts' :
  load_part data device sig_key num parts part = Ok parts' →
  match part_key device sig_key part with
  | None => parts' = parts
  | Some key => ∃ block, parts' = parts ++ [block]
                         ∧ resampled_source data num (part, key) block
  end.
Proof.
  destruct (part_key device sig_key part) as [key|] eqn:Hkey.
  - rewrite (load_part_available _ _ _ _ _ _ key) by done.
    unfold Py.dict_getitem.
    destruct (signal data !! part) as [by_part|] eqn:Hp; step_bind; [|done].
    destruct (by_part !! key) as [source|] eqn:Hs; step_bind; [|done].
    destruct (resample (as_columns source) num) as [s_down|] eqn:Hres; step_bind; [|done].
    intros [= <-]. exists s_down. split; [done|]. by exists by_part, source.
  - unfold part_key, load_part, Py.dict_getitem in *.
    destruct (_ || _); [|by intros [= <-]].
    destruct (sig_key !! part) as [[[|c k]|]|]; step_bind; try done; by intros [= <-].
Qed.

Lemma load_parts_sources data device sig sig_key num parts :
  SIGNAL_MAP !! sig = Some sig_key →
  for_each (load_part data device sig_key num) ["chest"; "wrist"]%string [] = Ok parts →
  Forall2 (resampled_source data num) (pairings device sig) parts.
Proof.
  intros Hsig. rewrite (pairings_eq _ _ _ Hsig). cbn [for_each].
  destruct (load_part _ _ _ _ _ "chest") as [p1|] eqn:H1; step_bind; [|done].
  destruct (load_part _ _ _ _ _ "wrist") as [p2|] eqn:H2; step_bind; [|done].
  intros [= ->]. apply load_part_Ok_source in H1, H2. simpl.
  destruct (part_key device sig_key "chest") as [k1|];
    destruct (part_key device sig_key "wrist") as [k2|]; simpl.
  - destruct H1 as (b1 & -> & Hb1). destruct H2 as (b2 & -> & Hb2). simpl.
    by repeat constructor.
  - destruct H1 as (b1 & -> & Hb1). subst parts. by repeat constructor.
  - subst p1. destruct H2 as (b2 & -> & Hb2). by repeat constructor.
  - subst. constructor.
Qed.

(** One round of the loop over the signals: the name is in the table, and
    what the round appends holds, side by side, the resampled sources of
    the pairings of the channel. *)
Lemma load_signal_sources data device num signal_list sig signal_list' :
  load_signal data device num signal_list sig = Ok signal_list' →
  is_Some (SIGNAL_MAP !! sig)
  ∧ ∃ parts, Forall2 (resampled_source data num) (pairings device sig) parts
             ∧ ∀ r, row_across signal_list' r = row_across signal_list r ++ row_across parts r.
Proof.
  unfold load_signal. unfold Py.dict_getitem at 1.
  destruct (SIGNAL_MAP !! sig) as [sig_key|] eqn:Hsig; step_bind; [|done].
  destruct (for_each _ _ []) as [parts|] eqn:Hparts; step_bind; [|done].
  intros Hrun. split; [by eexists|]. exists parts.
  split; [by eapply load_parts_sources|]. intros r.
  destruct parts as [|m parts].
  - injection Hrun as <-. unfold row_across at 3. simpl. by rewrite app_nil_r.
  - destruct (concatenate_axis1 (m :: parts)) as [block|] eqn:Hcat; step_bind; [|done].
    injection Hrun as <-. rewrite row_across_app. f_equal.
    unfold row_across at 1. simpl. rewrite app_nil_r.
    by apply concatenate_axis1_row.
Qed.

Lemma load_signals_sources data device num signals : ∀ signal_list signal_list',
  for_each (load_signal data device num) signals signal_list = Ok signal_list' →
  (∀ sig, sig ∈ signals → is_Some (SIGNAL_MAP !! sig))
  ∧ ∃ blocks, Forall2 (resampled_source data num) (sources_read device signals) blocks
              ∧ ∀ r, row_across signal_list' r = row_across signal_list r ++ row_across blocks r.
Proof.
  induction signals as [|sig signals IH]; intros sl sl'; cbn [for_each].
  - intros [= <-]. split; [by intros sig ?%elem_of_nil|]. exists [].
    split; [constructor|]. intros r. unfold row_across at 3. simpl. by rewrite app_nil_r.
  - destruct (load_signal data device num sl sig) as [sl1|] eqn:Hsig; step_bind; [|done].
    intros (Hnames & blocks & Hblocks & Hrows)%IH.
    apply load_signal_sources in Hsig as (Hname & parts & Hparts & Hrow).
    split.
    + intros sig' [->|Hin]%elem_of_cons; [done | by apply Hnames].
    + exists (parts ++ blocks). split.
      * unfold sources_read. simpl. by apply Forall2_app.
      * intros r. by rewrite Hrows, Hrow, row_across_app, app_assoc.
Qed.

(** X3: the layout of the signal matrix.  When [load_and_downsample]
    returns, every requested name is in the table, the record holds a
    source for every pairing of a requested channel with the device, and
    at least one such pairing exists; every row of the matrix is made of
    the rows of the resampled sources side by side, in the order of the
    requested channels and, within a channel, the chest before the wrist. *)
Theorem load_and_downsample_layout data signals device X labels :
  load_and_downsample data signals device = Ok (X, labels) →
  (∀ sig, sig ∈ signals → is_Some (SIGNAL_MAP !! sig))
  ∧ sources_read device signals ≠ []
  ∧ ∃ n blocks,
      new_len (Z.of_nat (length (label data))) = Ok n
      ∧ Forall2 (resampled_source data n) (sources_read device signals) blocks
      ∧ ∀ r, (r < length X)%nat → X !! r = Some (row_across blocks r).
Proof.
  unfold load_and_downsample.
  destruct (new_len _) as [n|] eqn:Hn; step_bind; [|done].
  destruct (for_each _ signals []) as [signal_list|] eqn:Hsl; step_bind; [|done].
  destruct (concatenate_axis1 signal_list) as [all_signals|] eqn:Hcat; step_bind; [|done].
  destruct (resample1 _ n) as [labels0|] eqn:Hlab; step_bind; [|done].
  intros [= <- <-].
  pose proof Hsl as (Hnames & blocks & Hblocks & Hrows)%load_signals_sources.
  split; [done|]. split.
  - intros Hnone. rewrite Hnone in Hblocks. apply Forall2_nil_inv_l in Hblocks as ->.
    assert (signal_list = []) as ->; [|done].
    apply load_signals_Ok in Hsl as (_ & _ & _ & Hsame); [|constructor].
    apply Hsame. intros sig Hsig. destruct (pairings device sig) as [|p ps] eqn:Hp; [done|].
    exfalso. apply list_elem_of_split in Hsig as (l1 & l2 & ->).
    unfold sources_read in Hnone. rewrite map_app, concat_app in Hnone. simpl in Hnone.
    rewrite Hp in Hnone. by destruct (concat (map (pairings device) l1)).
  - exists n, blocks. split; [done|]. split; [done|]. intros r Hr.
    destruct (lookup_lt_is_Some_2 all_signals r Hr) as [row Hrow].
    rewrite Hrow. f_equal.
    pose proof (concatenate_axis1_row _ _ r Hcat) as Hcatr. rewrite Hrow in Hcatr.
    simpl in Hcatr. rewrite Hcatr, Hrows. done.
Qed.

Lemma load_signal_unknown data device num signal_list sig :
  SIGNAL_MAP !! sig = None →
  load_signal data device num signal_list sig = Raise (KeyError sig).
Proof. intros Hsig. unfold load_signal, Py.dict_getitem. by rewrite Hsig. Qed.

(** The first pairing of a channel is the first source that the parts loop
    asks the record for. *)
Lemma load_signal_first_source data device num signal_list sig part key rest :
  pairings device sig = (part, key) :: rest →
  load_signal data device num signal_list sig
  = (parts ← (by_part ← Py.dict_getitem (signal data) part;
              source ← Py.dict_getitem by_part key;
              s_down ← resampled (resample (as_columns source) num);
              for_each (load_part data device
                          (default ∅ (SIGNAL_MAP !! sig)) num)
                       (if bool_decide (part = "chest"%string) then ["wrist"%string] else [])
                       [s_down]);
     match parts with
     | [] => Ok signal_list
     | _ => block ← concatenate_axis1 parts; Ok (signal_list ++ [block])
     end).
Proof.
  intros Hp. unfold load_signal. unfold Py.dict_getitem at 1.
  destruct (SIGNAL_MAP !! sig) as [sig_key|] eqn:Hsig;
    [|unfold pairings in Hp; by rewrite Hsig in Hp].
  step_bind. simpl default. f_equal.
  rewrite (pairings_eq _ _ _ Hsig) in Hp. simpl in Hp. cbn [for_each].
  destruct (part_key device sig_key "chest") as [k1|] eqn:Hk1; simpl in Hp.
  - injection Hp as <- <- _. rewrite (load_part_available _ _ _ _ _ _ k1) by done.
    rewrite bool_decide_eq_true_2 by done.
    destruct (Py.dict_getitem (signal data) "chest") as [by_part|]; step_bind; [|done].
    destruct (Py.dict_getitem by_part k1) as [source|]; step_bind; [|done].
    destruct (resampled _) as [s_down|]; step_bind; [|done]. done.
  - rewrite load_part_unavailable; [|eapply SIGNAL_MAP_parts; [done|by left]|done].
    step_bind.
    destruct (part_key device sig_key "wrist") as [k2|] eqn:Hk2; simpl in Hp; [|done].
    injection Hp as <- <- _. rewrite (load_part_available _ _ _ _ _ _ k2) by done.
    rewrite bool_decide_eq_false_2 by done.
    destruct (Py.dict_getitem (signal data) "wrist") as [by_part|]; step_bind; [|done].
    destruct (Py.dict_getitem by_part k2) as [source|]; step_bind; [|done].
    destruct (resampled _) as [s_down|]; step_bind; done.
Qed.

(** X4: the key errors of [load_and_downsample].  With the names before it
    loaded, a requested name that is not in the table raises [KeyError] of
    the name; a name whose first pairing is with a part that the record does
    not hold raises [KeyError] of the part; and one whose first pairing is
    with a source key that the part does not hold raises [KeyError] of the
    key. *)
Theorem load_and_downsample_KeyError data pre sig post device n signal_list :
  new_len (Z.of_nat (length (label data))) = Ok n →
  for_each (load_signal data device n) pre [] = Ok signal_list →
  (SIGNAL_MAP !! sig = None →
   load_and_downsample data (pre ++ sig :: post) device = Raise (KeyError sig))
  ∧ (∀ part key rest,
       pairings device sig = (part, key) :: rest → signal data !! part = None →
       load_and_downsample data (pre ++ sig :: post) device = Raise (KeyError part))
  ∧ (∀ part key rest by_part,
       pairings device sig = (part, key) :: rest →
       signal data !! part = Some by_part → by_part !! key = None →
       load_and_downsample data (pre ++ sig :: post) device = Raise (KeyError key)).
Proof.
  intros Hn Hpre.
  assert (∀ e, load_signal data device n signal_list sig = Raise e →
               load_and_downsample data (pre ++ sig :: post) device = Raise e) as Hfail.
  { intros e Hsig. unfold load_and_downsample. rewrite Hn. step_bind.
    rewrite for_each_app, Hpre. step_bind. cbn [for_each]. by rewrite Hsig. }
  split; [|split].
  - intros Hsig. apply Hfail. by apply load_signal_unknown.
  - intros part key rest Hp Hpart. apply Hfail.
    rewrite (load_signal_first_source _ _ _ _ _ _ _ _ Hp).
    unfold Py.dict_getitem. by rewrite Hpart.
  - intros part key rest by_part Hp Hpart Hkey. apply Hfail.
    rewrite (load_signal_first_source _ _ _ _ _ _ _ _ Hp).
    unfold Py.dict_getitem. rewrite Hpart. step_bind. by rewrite Hkey.
Qed.

End LoaderLayout.

(** ** Windowing after the load *)

Section WindowsAfterLoad.
Context {F : Type} `{SciPy F} {Row : Type}.

Lemma load_and_downsample_lengths (data : recording F) signals device X labels :
  load_and_downsample data signals device = Ok (X, labels) → length labels = length X.
Proof.
  unfold load_and_downsample.
  destruct (new_len _) as [n|] eqn:Hn; step_bind; [|done].
  destruct (for_each _ signals []) as [signal_list|] eqn:Hsl; step_bind; [|done].
  destruct (concatenate_axis1 signal_list) as [all_signals|] eqn:Hcat; step_bind; [|done].
  destruct (resample1 _ n) as [labels0|] eqn:Hlab; step_bind; [|done].
  intros [= <- <-]. rewrite length_map.
  apply load_signals_Ok in Hsl as (Hrows & _); [|constructor].
  apply concatenate_axis1_Ok in Hcat as (m & rest & -> & _ & Hout).
  apply Forall_cons in Hrows as [Hm _]. apply resample1_len in Hlab. lia.
Qed.

(** X15: windowing what [load_and_downsample] returned.  The labels are as
    many as the rows, so no visited window is without labels: with a
    positive window size and stride, on a matrix with the rows of the
    resampled one, [create_windows] returns exactly when no visited window
    without a sentinel holds a negative resampled label. *)
Theorem create_windows_after_load (data : recording F) signals device X y
    (X' : list Row) W S :
  load_and_downsample data signals device = Ok (X, y) →
  length X' = length X → (0 < W)%nat → (0 < S)%nat →
  (is_Ok (create_windows X' y W S)
   ↔ ∀ i, i ∈ candidates (length X') W S → 0 ∉ window_labels y W i →
          Forall (λ v, 0 ≤ v) (window_labels y W i)).
Proof.
  intros Hlen%load_and_downsample_lengths HX' HW HS.
  unfold create_windows, Np.range. destruct S as [|S']; [lia|].
  cbn [mbind result_mbind result_bind]. fold (candidates (length X') W (Datatypes.S S')).
  rewrite (for_each_is_Ok _ _ _ (create_windows_body_is_Ok X' y W)), Forall_forall.
  split.
  - intros Hall i Hi Hz. by apply Hall.
  - intros Hall i Hi Hz. split; [|by apply Hall].
    apply (elem_of_candidates _ _ _ _ HS) in Hi as (k & _ & Hi).
    intros Hnil%(f_equal length). rewrite window_labels_length in Hnil by lia.
    simpl in Hnil. lia.
Qed.

End WindowsAfterLoad.

(** ** The data set *)

Lemma score_vec_length panas label vec :
  score_vec panas label = Ok vec → length vec = 7%nat.
Proof.
  unfold score_vec. destruct (_ <=? _); [by intros [= <-]|].
  destruct (Py.list_getitem _ _) as [d|]; step_bind; [|done].
  intros (vs & -> & Hvs%Forall2_length)%for_each_collect. simpl. by rewrite <-Hvs.
Qed.

Lemma assign_y_reg_Ok panas win_y y_reg :
  assign_y_reg panas win_y = Ok y_reg →
  length y_reg = length win_y ∧ Forall (λ vec, length vec = 7%nat) y_reg.
Proof.
  unfold assign_y_reg. intros (vs & -> & Hvs)%for_each_collect. simpl. split.
  - symmetry. by eapply Forall2_length.
  - eapply Forall2_Forall_r; [exact Hvs|]. apply Forall_forall.
    intros label _ vec. apply score_vec_length.
Qed.

Lemma elem_of_concat {A : Type} (x : A) (ls : list (list A)) :
  x ∈ concat ls ↔ ∃ l, x ∈ l ∧ l ∈ ls.
Proof.
  induction ls as [|l ls IH]; simpl.
  - split; [by intros ?%elem_of_nil | by intros (l & _ & ?%elem_of_nil)].
  - rewrite elem_of_app, IH. split.
    + intros [Hx|(l' & Hx & Hl')]; [exists l; split; [done | by left]|].
      exists l'. split; [done | by right].
    + intros (l' & Hx & [->|Hl']%elem_of_cons); [by left|]. right. by exists l'.
Qed.

Lemma extract_panas_scores_lines quest_path reader line :
  line ∈ (extract_panas_scores quest_path reader).2 →
  ∃ e, line = Failed_to_parse_PANAS quest_path e.
Proof.
  induction reader as [|row reader IH]; [by intros ?%elem_of_nil|].
  rewrite extract_panas_scores_cons. simpl. intros [Hin|Hin]%elem_of_app; [|by apply IH].
  destruct (is_panas_row row) eqn:Hrow.
  - rewrite contribution_marked in Hin by done.
    destruct (parse_panas_row row) as [[d|]|e]; simpl in Hin.
    + by apply elem_of_nil in Hin.
    + by apply elem_of_nil in Hin.
    + apply list_elem_of_singleton in Hin. by exists e.
  - rewrite contribution_unmarked in Hin by done. by apply elem_of_nil in Hin.
Qed.

Section DatasetFacts.
Context {F : Type} `{SciPy F}.
Context (normalize : list (list F) → list (list F)).

(** What the [try] block for one subject returns: whole windows of 60
    rows, one label of a condition and one vector of 7 scores for each. *)
Lemma load_subject_Ok data quest_path reader selected_signals device win_x win_y y_reg :
  (load_subject normalize data quest_path reader selected_signals device).1
  = Ok (win_x, win_y, y_reg) →
  length win_y = length win_x ∧ length y_reg = length win_x
  ∧ Forall (λ win, length win = 60%nat) win_x
  ∧ Forall (λ l, 1 ≤ l) win_y
  ∧ Forall (λ vec, length vec = 7%nat) y_reg.
Proof.
  unfold load_subject.
  destruct (load_and_downsample data selected_signals device) as [[X y]|]; [|done].
  destruct (create_windows _ _ _ _) as [[wx wy]|] eqn:Hcw; [|done].
  destruct (extract_panas_scores quest_path reader) as [panas out]. simpl.
  destruct (assign_y_reg panas wy) as [yr|] eqn:Hreg; step_bind; [|done].
  intros [= <- <- <-].
  apply assign_y_reg_Ok in Hreg as [Hlen Hvec].
  pose proof (create_windows_labels_positive _ _ _ _ _ _ Hcw) as Hpos.
  apply create_windows_Ok in Hcw as (HS & -> & Hls).
  apply Forall2_length in Hls. rewrite length_map in *.
  split; [done|]. split; [lia|]. split; [|done].
  apply Forall_fmap, Forall_forall. intros i [_ Hi]%list_elem_of_filter.
  apply (elem_of_candidates _ _ _ _ HS) in Hi as (k & _ & Hi).
  simpl. unfold Np.slice. rewrite length_take, length_drop.
  change (Z.to_nat (WINDOW_SIZE_SEC * SAMPLING_RATE_TARGET)) with 60%nat in *. lia.
Qed.

Lemma passed_over_loaded root_path selected_signals device (s : subject F) :
  passed_over normalize selected_signals device s →
  loaded normalize root_path selected_signals device s = None.
Proof.
  unfold loaded. intros [->|[Hp|[Hq|(data & reader & e & -> & -> & Hrun)]]]; [done| | |].
  - rewrite Hp. by destruct (Py.startswith _ _).
  - rewrite Hq. by destruct (Py.startswith _ _), (pkl s).
  - rewrite Hrun. by destruct (Py.startswith _ _).
Qed.

(** The four lists that the loop of [load_wesad_dataset] builds hold, in
    the order of the listing, what the subjects that are not passed over
    add, and the output holds what the entries make it print. *)
Lemma load_wesad_dataset_eq root_path listing selected_signals device :
  load_wesad_dataset normalize root_path listing selected_signals device
  = (match omap (λ s, (λ r, (subject_dir s, r))
                        <$> loaded normalize root_path selected_signals device s) listing with
     | [] => Raise ValueError_concatenate
     | rs => Ok (concat (map (λ r, r.2.1.1) rs),
                 concat (map (λ r, r.2.1.2) rs),
                 concat (map (λ r, r.2.2) rs),
                 concat (map (λ r, replicate (length r.2.1.1) r.1) rs))
     end,
     concat (map (reported normalize root_path selected_signals device) listing)).
Proof.
  unfold load_wesad_dataset.
  match goal with |- context [foldl ?f _ listing] => set (step := f) end.
  set (add := λ s, (λ r, (subject_dir s, r))
                     <$> loaded normalize root_path selected_signals device s).
  set (rep := reported normalize root_path selected_signals device).
  assert (∀ l ax ay ar ai out,
            foldl step (ax, ay, ar, ai, out) l
            = (ax ++ map (λ r, r.2.1.1) (omap add l),
               ay ++ map (λ r, r.2.1.2) (omap add l),
               ar ++ map (λ r, r.2.2) (omap add l),
               ai ++ map (λ r, replicate (length r.2.1.1) r.1) (omap add l),
               out ++ concat (map rep l))) as Hfold.
  { assert (∀ s ax ay ar ai out,
              step (ax, ay, ar, ai, out) s
              = match add s with
                | Some r => (ax ++ [r.2.1.1], ay ++ [r.2.1.2], ar ++ [r.2.2],
                             ai ++ [replicate (length r.2.1.1) r.1], out ++ rep s)
                | None => (ax, ay, ar, ai, out ++ rep s)
                end) as Hstep.
    { intros s ax ay ar ai out. unfold step, add, rep, loaded, reported.
      destruct (Py.startswith (subject_dir s) "S"); simpl; [|by rewrite app_nil_r].
      destruct (pkl s) as [data|], (quest s) as [reader|]; simpl; try done.
      by destruct (load_subject _ _ _ _ _ _) as [[[[wx wy] yr]|e] out1]. }
    induction l as [|s l IH]; intros ax ay ar ai out.
    - simpl. by rewrite !app_nil_r.
    - change (foldl step (ax, ay, ar, ai, out) (s :: l))
        with (foldl step (step (ax, ay, ar, ai, out) s) l).
      change (omap add (s :: l))
        with (match add s with Some r => r :: omap add l | None => omap add l end).
      rewrite Hstep. destruct (add s) as [r|]; rewrite IH; simpl; by rewrite <-!app_assoc. }
  rewrite Hfold. simpl. by destruct (omap add listing).
Qed.

Lemma load_wesad_dataset_loaded root_path listing selected_signals device :
  (load_wesad_dataset normalize root_path listing selected_signals device).1
  = match omap (λ s, (λ r, (subject_dir s, r))
                       <$> loaded normalize root_path selected_signals device s) listing with
    | [] => Raise ValueError_concatenate
    | rs => Ok (concat (map (λ r, r.2.1.1) rs),
                concat (map (λ r, r.2.1.2) rs),
                concat (map (λ r, r.2.2) rs),
                concat (map (λ r, replicate (length r.2.1.1) r.1) rs))
    end.
Proof. by rewrite load_wesad_dataset_eq. Qed.

(** What a subject that is not passed over adds: whole windows of 60
    rows, with one label of a condition and one vector of 7 scores each. *)
Lemma loaded_Some root_path selected_signals device (s : subject F) r :
  loaded normalize root_path selected_signals device s = Some r →
  Py.startswith (subject_dir s) "S" = true ∧ is_Some (pkl s) ∧ is_Some (quest s)
  ∧ length r.1.2 = length r.1.1 ∧ length r.2 = length r.1.1
  ∧ Forall (λ win, length win = 60%nat) r.1.1
  ∧ Forall (λ l, 1 ≤ l) r.1.2
  ∧ Forall (λ vec, length vec = 7%nat) r.2.
Proof.
  unfold loaded. destruct (Py.startswith (subject_dir s) "S") eqn:HS; [|done].
  destruct (pkl s) as [data|], (quest s) as [reader|]; try done.
  destruct (load_subject _ _ _ _ _ _).1 as [[[wx wy] yr]|] eqn:Hrun; [|done].
  intros [= <-]. simpl. apply load_subject_Ok in Hrun.
  split; [done|]. split; [by eexists|]. split; [by eexists|]. done.
Qed.

Lemma loaded_aligned root_path (listing : list (subject F)) selected_signals device rs :
  Forall (λ r, ∃ s, s ∈ listing
                    ∧ (λ r, (subject_dir s, r))
                        <$> loaded normalize root_path selected_signals device s = Some r) rs →
  length (concat (map (λ r, r.2.1.2) rs)) = length (concat (map (λ r, r.2.1.1) rs))
  ∧ length (concat (map (λ r, r.2.2) rs)) = length (concat (map (λ r, r.2.1.1) rs))
  ∧ length (concat (map (λ r, replicate (length r.2.1.1) r.1) rs))
    = length (concat (map (λ r, r.2.1.1) rs))
  ∧ Forall (λ win, length win = 60%nat) (concat (map (λ r, r.2.1.1) rs))
  ∧ Forall (λ l, 1 ≤ l) (concat (map (λ r, r.2.1.2) rs))
  ∧ Forall (λ vec, length vec = 7%nat) (concat (map (λ r, r.2.2) rs))
  ∧ Forall (λ id, ∃ s, s ∈ listing ∧ subject_dir s = id
                       ∧ Py.startswith id "S" = true
                       ∧ is_Some (pkl s) ∧ is_Some (quest s))
           (concat (map (λ r, replicate (length r.2.1.1) r.1) rs)).
Proof.
  intros Hall. induction Hall as [|r rs (s & Hs & Hr) Hall IH]; simpl; [by repeat split|].
  destruct IH as (IH1 & IH2 & IH3 & IH4 & IH5 & IH6 & IH7).
  destruct (loaded normalize root_path selected_signals device s) as [r'|] eqn:Hr';
    [|done].
  injection Hr as <-. simpl.
  apply loaded_Some in Hr' as (HS & Hp & Hq & Hl1 & Hl2 & Hw & Hl & Hv).
  rewrite !length_app, !Forall_app, length_replicate.
  split; [lia|]. split; [lia|]. split; [lia|]. repeat (split; [done|]).
  split; [|done]. apply Forall_forall. intros id [-> _]%elem_of_replicate. by exists s.
Qed.

Lemma omap_loaded_listed root_path (listing : list (subject F)) selected_signals device :
  Forall (λ r, ∃ s, s ∈ listing
                    ∧ (λ r, (subject_dir s, r))
                        <$> loaded normalize root_path selected_signals device s = Some r)
         (omap (λ s, (λ r, (subject_dir s, r))
                       <$> loaded normalize root_path selected_signals device s) listing).
Proof. apply Forall_forall. intros r (s & Hs & Hr)%list_elem_of_omap. by exists s. Qed.

(** X5: the four arrays of [load_wesad_dataset] are aligned.  When the
    call returns, there are as many labels, score vectors and subject
    names as windows; every window has 60 rows, every label is a
    condition from 1 on, every score vector has 7 entries, and every
    subject name is that of a listed directory that starts with "S" and
    holds both files. *)
Theorem load_wesad_dataset_aligned root_path listing selected_signals device
    X y_cls y_reg subject_ids :
  (load_wesad_dataset normalize root_path listing selected_signals device).1
  = Ok (X, y_cls, y_reg, subject_ids) →
  length y_cls = length X ∧ length y_reg = length X ∧ length subject_ids = length X
  ∧ Forall (λ win, length win = 60%nat) X
  ∧ Forall (λ l, 1 ≤ l) y_cls
  ∧ Forall (λ vec, length vec = 7%nat) y_reg
  ∧ Forall (λ id, ∃ s, s ∈ listing ∧ subject_dir s = id
                       ∧ Py.startswith id "S" = true
                       ∧ is_Some (pkl s) ∧ is_Some (quest s)) subject_ids.
Proof.
  rewrite load_wesad_dataset_loaded.
  pose proof (loaded_aligned root_path listing selected_signals device _
                (omap_loaded_listed root_path listing selected_signals device)) as Hrs.
  destruct (omap _ listing); [done|]. by intros [= <- <- <- <-].
Qed.


(** X6: a directory entry that is passed over leaves no trace in the
    result.  An entry whose name does not start with "S", that lacks one
    of its two files, or whose [try] block raises, can be taken out of the
    listing without changing what the call returns or raises. *)
Theorem load_wesad_dataset_passes_over root_path l1 s l2 selected_signals device :
  passed_over normalize selected_signals device s →
  (load_wesad_dataset normalize root_path (l1 ++ s :: l2) selected_signals device).1
  = (load_wesad_dataset normalize root_path (l1 ++ l2) selected_signals device).1.
Proof.
  intros Hs%(passed_over_loaded root_path).
  rewrite !load_wesad_dataset_loaded, !omap_app. simpl. by rewrite Hs.
Qed.

(** X7: with no subject to load the call raises.  If every entry of the
    listing is passed over, an empty listing included, the concatenation of
    the empty list of arrays raises [ValueError]: the exceptions of the
    subjects were caught and printed, and this one is not. *)
Theorem load_wesad_dataset_nothing_loaded root_path listing selected_signals device :
  (∀ s, s ∈ listing → passed_over normalize selected_signals device s) →
  (load_wesad_dataset normalize root_path listing selected_signals device).1
  = Raise ValueError_concatenate.
Proof.
  intros Hall. rewrite load_wesad_dataset_loaded.
  assert (omap (λ s, (λ r, (subject_dir s, r))
                       <$> loaded normalize root_path selected_signals device s) listing
          = []) as ->; [|done].
  induction listing as [|s l IH]; [done|]. simpl.
  rewrite (passed_over_loaded root_path _ _ s) by (apply Hall; by left). simpl.
  apply IH. intros s' Hs'. apply Hall. by right.
Qed.

Lemma load_subject_lines data quest_path reader selected_signals device line :
  line ∈ (load_subject normalize data quest_path reader selected_signals device).2 →
  ∃ e, line = Failed_to_parse_PANAS quest_path e.
Proof.
  unfold load_subject.
  destruct (load_and_downsample _ _ _) as [[X y]|]; [|by intros ?%elem_of_nil].
  destruct (create_windows _ _ _ _) as [[wx wy]|]; [|by intros ?%elem_of_nil].
  destruct (extract_panas_scores quest_path reader) as [panas out] eqn:Hx. simpl.
  intros Hin. apply (extract_panas_scores_lines quest_path reader). by rewrite Hx.
Qed.

(** X8: what [load_wesad_dataset] reports.  "Skipping" is printed with a
    name exactly when a listed directory of that name starts with "S" and
    lacks one of its two files, and "Error loading" with a name and an
    exception exactly when the [try] block of a listed directory of that
    name raised the exception. *)
Theorem load_wesad_dataset_reports root_path listing selected_signals device d :
  (Skipping d ∈ (load_wesad_dataset normalize root_path listing selected_signals device).2
   ↔ ∃ s, s ∈ listing ∧ subject_dir s = d ∧ Py.startswith d "S" = true
          ∧ (pkl s = None ∨ quest s = None))
  ∧ ∀ e,
      Error_loading d e
        ∈ (load_wesad_dataset normalize root_path listing selected_signals device).2
      ↔ ∃ s data reader,
          s ∈ listing ∧ subject_dir s = d ∧ Py.startswith d "S" = true
          ∧ pkl s = Some data ∧ quest s = Some reader
          ∧ (load_subject normalize data
               (Py.join (Py.join root_path d) (d ++ "_quest.csv")%string)
               reader selected_signals device).1 = Raise e.
Proof.
  rewrite load_wesad_dataset_eq. simpl.
  split; [|intros e]; rewrite elem_of_concat; split.
  - intros (lines & Hin & (s & -> & Hs)%list_elem_of_fmap). exists s. split; [done|].
    unfold reported in Hin. destruct (Py.startswith (subject_dir s) "S") eqn:HS;
      [|by apply elem_of_nil in Hin].
    destruct (pkl s) as [data|] eqn:Hp; [destruct (quest s) as [reader|] eqn:Hq|].
    + exfalso. cbv zeta in Hin.
      destruct (load_subject _ _ _ _ _ _).1.
      * by apply load_subject_lines in Hin as [e ?].
      * apply elem_of_app in Hin as [Hin|Hin%list_elem_of_singleton]; [|done].
        by apply load_subject_lines in Hin as [e' ?].
    + apply list_elem_of_singleton in Hin as [= ->]. auto.
    + apply list_elem_of_singleton in Hin as [= ->]. auto.
  - intros (s & Hs & <- & HS & Hmiss). exists (reported normalize root_path selected_signals device s).
    split; [|apply list_elem_of_fmap; by exists s].
    unfold reported. rewrite HS.
    destruct Hmiss as [-> | ->]; [|destruct (pkl s)]; by apply list_elem_of_singleton.
  - intros (lines & Hin & (s & -> & Hs)%list_elem_of_fmap).
    unfold reported in Hin. destruct (Py.startswith (subject_dir s) "S") eqn:HS;
      [|by apply elem_of_nil in Hin].
    destruct (pkl s) as [data|] eqn:Hp; [destruct (quest s) as [reader|] eqn:Hq|];
      [|by apply list_elem_of_singleton in Hin..].
    cbv zeta in Hin.
    destruct (load_subject _ _ _ _ _ _).1 as [r|e'] eqn:Hrun.
    + by apply load_subject_lines in Hin as [e' ?].
    + apply elem_of_app in Hin as [Hin|Hin%list_elem_of_singleton].
      * by apply load_subject_lines in Hin as [e'' ?].
      * injection Hin as -> ->. by exists s, data, reader.
  - intros (s & data & reader & Hs & <- & HS & Hp & Hq & Hrun).
    exists (reported normalize root_path selected_signals device s).
    split; [|apply list_elem_of_fmap; by exists s].
    unfold reported. rewrite HS, Hp, Hq. cbv zeta. rewrite Hrun.
    apply elem_of_app. right. by apply list_elem_of_singleton.
Qed.

End DatasetFacts.

(** ** Rescaled scores *)

Lemma list_getitem_elem_of {A : Type} (l : list A) (i : Z) a :
  Py.list_getitem l i = Ok a → a ∈ l.
Proof.
  unfold Py.list_getitem. destruct (_ <? 0); [done|].
  destruct (l !! _) eqn:Hl; [|done]. intros [= <-]. by eapply list_elem_of_lookup_2.
Qed.

(** X16: the rescaled scores of a window with a score set.  For a label
    whose condition has a score set, the vector of the window holds the
    scores of that set under the adjectives of [TARGET_PANAS], and if the
    scores of the questionnaire are between 1 and 5, every entry of the
    rescaled vector lies between 0 and 1. *)
Theorem score_vec_rescaled_unit_interval panas label vec :
  score_vec panas label = Ok vec →
  label - 1 < Z.of_nat (length panas) →
  (∀ d key v, d ∈ panas → key ∈ TARGET_PANAS → d !! key = Some v → 1 ≤ v ≤ 5) →
  length (map rescale vec) = 7%nat
  ∧ Forall (λ x, F64.leb (F64.of_int 0) x = true ∧ F64.leb x (F64.of_int 1) = true)
           (map rescale vec).
Proof.
  intros Hrun Hlabel Hscores. split; [rewrite length_map; by eapply score_vec_length|].
  unfold score_vec in Hrun. rewrite (proj2 (Z.leb_gt _ _) Hlabel) in Hrun.
  destruct (Py.list_getitem panas (label - 1)) as [d|] eqn:Hd; step_bind; [|done].
  apply list_getitem_elem_of in Hd.
  apply for_each_collect in Hrun as (vs & -> & Hvs). simpl.
  apply Forall_fmap, Forall_forall. intros v Hv.
  apply list_elem_of_lookup in Hv as [i Hi].
  destruct (Forall2_lookup_r _ _ _ _ _ Hvs Hi) as (key & Hkey & Hget).
  apply rescale_score_unit_interval. apply (Hscores d key); [done | |].
  - by eapply list_elem_of_lookup_2.
  - unfold Py.dict_getitem in Hget. destruct (d !! key); [by injection Hget as -> | done].
Qed.

(** ** Masks and the subject-level split *)

Lemma mask_select_Ok {A : Type} (a : list A) m :
  length m = length a → Np.mask_select a m = Ok (Np.select a m).
Proof. intros Hlen. unfold Np.mask_select. by rewrite Hlen, Nat.eqb_refl. Qed.

Lemma select_length {A B : Type} (a : list A) (b : list B) : ∀ m,
  length a = length b → length (Np.select a m) = length (Np.select b m).
Proof.
  revert b. induction a as [|x a IH]; intros [|y b] m Hlen; try done.
  destruct m as [|[] m]; simpl; [done| |]; rewrite (IH b m); auto.
Qed.

Lemma select_valid_mask_range (y : list Z) :
  Forall (λ l, 1 ≤ l ≤ 4) (Np.select y (valid_mask y)).
Proof.
  induction y as [|l y IH]; simpl; [constructor|].
  destruct ((1 <=? l) && (l <=? 4)) eqn:Hl; [|done].
  constructor; [lia | done].
Qed.

Lemma elem_of_select_valid_mask (ids : list string) : ∀ (y : list Z) s,
  s ∈ Np.select ids (valid_mask y)
  ↔ ∃ k l, ids !! k = Some s ∧ y !! k = Some l ∧ 1 ≤ l ≤ 4.
Proof.
  induction ids as [|id ids IH]; intros y s.
  - split; [by intros ?%elem_of_nil | by intros ([|k] & l & ? & _)].
  - destruct y as [|l0 y].
    + split; [by intros ?%elem_of_nil | by intros (k & l & _ & ? & _)].
    + simpl. destruct ((1 <=? l0) && (l0 <=? 4)) eqn:Hl.
      * rewrite elem_of_cons, IH. split.
        -- intros [->|(k & l & ? & ? & ?)]; [exists 0%nat, l0; split; [done|]; split; [done|]; lia|].
           by exists (S k), l.
        -- intros ([|k] & l & Hid & Hl' & Hr); simplify_eq/=; [by left|].
           right. by exists k, l.
      * rewrite IH. split.
        -- intros (k & l & ? & ? & ?). by exists (S k), l.
        -- intros ([|k] & l & Hid & Hl' & Hr); simplify_eq/=; [lia|]. by exists k, l.
Qed.

Lemma apply_masking_zip {Win : Type} (X : list Win) : ∀ (y_cls : list Z) (subject_ids : list string),
  length y_cls = length X → length subject_ids = length X →
  zip (Np.select X (valid_mask y_cls))
      (zip (map (λ l, l - 1) (Np.select y_cls (valid_mask y_cls)))
           (Np.select subject_ids (valid_mask y_cls)))
  = omap (λ '(win, (l, id)),
            if (1 <=? l) && (l <=? 4) then Some (win, (l - 1, id)) else None)
         (zip X (zip y_cls subject_ids)).
Proof.
  induction X as [|win X IH]; intros [|l y] [|id ids] Hy Hids; try done. simpl.
  destruct ((1 <=? l) && (l <=? 4)); simpl; rewrite IH; auto.
Qed.

Lemma valid_mask_length y_cls : length (valid_mask y_cls) = length y_cls.
Proof. apply length_map. Qed.

Lemma isin_length (ids test : list string) : length (Np.isin ids test) = length ids.
Proof. apply length_map. Qed.

Lemma unique_subjects_elem_of ids s : s ∈ unique_subjects ids ↔ s ∈ ids.
Proof.
  unfold unique_subjects, Py.sorted. by rewrite merge_sort_Permutation, elem_of_remove_dups.
Qed.

Lemma unique_subjects_NoDup ids : NoDup (unique_subjects ids).
Proof.
  unfold unique_subjects, Py.sorted. rewrite merge_sort_Permutation. apply NoDup_remove_dups.
Qed.

Lemma select_disjoint_length {A : Type} (f g : string → bool) (ids : list string) :
  (∀ s, s ∈ ids → f s && g s = false) →
  ∀ X : list A, (length (Np.select X (map f ids)) + length (Np.select X (map g ids))
                 ≤ length X)%nat.
Proof.
  induction ids as [|id ids IH]; intros Hfg [|x X]; simpl; try lia.
  specialize (IH (λ s Hs, Hfg s (list_elem_of_further _ _ _ Hs)) X).
  pose proof (Hfg id ltac:(by left)) as Hid.
  destruct (f id), (g id); simpl in *; try done; lia.
Qed.

Lemma select_complement_length {A : Type} (f g : string → bool) (ids : list string) :
  (∀ s, s ∈ ids → g s = negb (f s)) →
  ∀ X : list A, length X = length ids →
    (length (Np.select X (map f ids)) + length (Np.select X (map g ids)) = length X)%nat.
Proof.
  induction ids as [|id ids IH]; intros Hfg [|x X] Hlen; simpl in *; try done.
  specialize (IH (λ s Hs, Hfg s (list_elem_of_further _ _ _ Hs)) X ltac:(lia)).
  rewrite (Hfg id) by (by left). destruct (f id); simpl; lia.
Qed.

Lemma select_isin (ids test : list string) : Forall (λ s, s ∈ test) (Np.select ids (Np.isin ids test)).
Proof.
  unfold Np.isin. induction ids as [|id ids IH]; simpl; [constructor|].
  case_bool_decide; [constructor|]; done.
Qed.

Section SplitFacts.
Context {Win T : Type}.
Implicit Types (X : list Win) (y : list T) (ids tr va : list string).

Lemma split_by_subject_Ok X y ids tr va :
  length X = length ids → length y = length ids →
  split_by_subject X y ids tr va
  = Ok (Np.select X (Np.isin ids tr), Np.select y (Np.isin ids tr),
        (Np.select X (Np.isin ids va), Np.select y (Np.isin ids va))).
Proof.
  intros HX Hy. unfold split_by_subject.
  rewrite !mask_select_Ok by (rewrite isin_length; lia). done.
Qed.

(** X10: the subject-level split is a partition.  For windows, targets and
    subject names of one length, and two lists of subjects that together
    are the distinct subject names, as [train_test_split] returns them, the
    cell raises nothing; every window is in exactly one of the two sets,
    with its target; the windows of the training set are of training
    subjects only and those of the validation set of validation subjects
    only, so no subject has windows in both. *)
Theorem split_by_subject_partition X y ids tr va :
  length X = length ids → length y = length ids →
  tr ++ va ≡ₚ unique_subjects ids →
  ∃ X_train y_train X_val y_val,
    split_by_subject X y ids tr va = Ok (X_train, y_train, (X_val, y_val))
    ∧ length y_train = length X_train ∧ length y_val = length X_val
    ∧ (length X_train + length X_val = length X)%nat
    ∧ Np.isin ids va = map negb (Np.isin ids tr)
    ∧ Forall (λ s, s ∈ tr ∧ s ∉ va) (Np.select ids (Np.isin ids tr))
    ∧ Forall (λ s, s ∈ va ∧ s ∉ tr) (Np.select ids (Np.isin ids va)).
Proof.
  intros HX Hy Hsplit.
  assert (NoDup (tr ++ va)) as [_ [Hdisj _]]%NoDup_app
    by (rewrite Hsplit; apply unique_subjects_NoDup).
  assert (∀ s, s ∈ ids → bool_decide (s ∈ va) = negb (bool_decide (s ∈ tr))) as Hneg.
  { intros s Hs%unique_subjects_elem_of. rewrite <-Hsplit in Hs.
    apply elem_of_app in Hs as [Hs|Hs].
    - rewrite (bool_decide_eq_true_2 _ Hs), bool_decide_eq_false_2; [done | by apply Hdisj].
    - rewrite (bool_decide_eq_true_2 _ Hs), bool_decide_eq_false_2; [done|].
      intros Ht. by apply (Hdisj s). }
  eexists _, _, _, _. split; [by apply split_by_subject_Ok|].
  split; [apply select_length; lia|]. split; [apply select_length; lia|].
  split; [by apply select_complement_length|]. split.
  - unfold Np.isin. rewrite map_map. apply map_ext_in.
    intros s Hs%list_elem_of_In. by apply Hneg.
  - split.
    + eapply Forall_impl; [apply select_isin|]. intros s Hs. split; [done | by apply Hdisj].
    + eapply Forall_impl; [apply select_isin|]. intros s Hs. split; [done|].
      intros Ht. by apply (Hdisj s).
Qed.

End SplitFacts.

Section MaskFacts.
Context {Win : Type}.
Implicit Types (X : list Win).

Lemma apply_masking_Ok X y_cls subject_ids :
  length y_cls = length X → length subject_ids = length X →
  apply_masking X y_cls subject_ids
  = Ok (Np.select X (valid_mask y_cls),
        map (λ l, l - 1) (Np.select y_cls (valid_mask y_cls)),
        Np.select subject_ids (valid_mask y_cls)).
Proof.
  intros Hy Hids. unfold apply_masking.
  rewrite !mask_select_Ok by (rewrite valid_mask_length; lia). done.
Qed.

(** X9: the masking cell.  On windows, labels and subject names of one
    length the cell raises nothing; it keeps, in order, the windows whose
    label is a condition from 1 to 4, each with its own subject name and
    with its label moved down by one, so that every label it returns is a
    class index from 0 to 3. *)
Theorem apply_masking_classes X y_cls subject_ids :
  length y_cls = length X → length subject_ids = length X →
  ∃ X' y_cls' subject_ids',
    apply_masking X y_cls subject_ids = Ok (X', y_cls', subject_ids')
    ∧ length y_cls' = length X' ∧ length subject_ids' = length X'
    ∧ Forall (λ l, 0 ≤ l ≤ 3) y_cls'
    ∧ zip X' (zip y_cls' subject_ids')
      = omap (λ '(win, (l, id)),
                if (1 <=? l) && (l <=? 4) then Some (win, (l - 1, id)) else None)
             (zip X (zip y_cls subject_ids)).
Proof.
  intros Hy Hids. eexists _, _, _. split; [by apply apply_masking_Ok|].
  split; [rewrite length_map; by apply select_length|].
  split; [by apply select_length|]. split.
  - apply Forall_fmap. eapply Forall_impl; [apply select_valid_mask_range|].
    intros l Hl. simpl in *. lia.
  - by apply apply_masking_zip.
Qed.

(** X11: the regression split drops the windows of a subject without a
    classification window.  The regression cell applies the subjects that
    were split for the classification to all windows.  It raises nothing,
    no window is in both sets, and a window is in one of them exactly when
    its subject has some window whose label is a condition from 1 to 4:
    the windows of any other subject are in neither set. *)
Theorem split_by_subject_regression {T : Type} X (y_reg : list T) y_cls ids
    X' y_cls' ids_cls tr va :
  length X = length ids → length y_reg = length ids → length y_cls = length ids →
  apply_masking X y_cls ids = Ok (X', y_cls', ids_cls) →
  tr ++ va ≡ₚ unique_subjects ids_cls →
  ∃ X_train y_train X_val y_val,
    split_by_subject X y_reg ids tr va = Ok (X_train, y_train, (X_val, y_val))
    ∧ (length X_train + length X_val ≤ length X)%nat
    ∧ ∀ j s, ids !! j = Some s →
        ∃ in_train in_val,
          Np.isin ids tr !! j = Some in_train ∧ Np.isin ids va !! j = Some in_val
          ∧ in_train && in_val = false
          ∧ (in_train || in_val = true
             ↔ ∃ k l, ids !! k = Some s ∧ y_cls !! k = Some l ∧ 1 ≤ l ≤ 4).
Proof.
  intros HX Hy Hcls Hmask Hsplit.
  rewrite apply_masking_Ok in Hmask by lia. injection Hmask as <- <- <-.
  assert (NoDup (tr ++ va)) as [_ [Hdisj _]]%NoDup_app
    by (rewrite Hsplit; apply unique_subjects_NoDup).
  assert (∀ s, bool_decide (s ∈ tr) && bool_decide (s ∈ va) = false) as Hnot.
  { intros s. case_bool_decide as Ht; [|done]. simpl.
    apply bool_decide_eq_false_2. by apply Hdisj. }
  eexists _, _, _, _. split; [by apply split_by_subject_Ok|]. split.
  - apply select_disjoint_length. intros s _. apply Hnot.
  - intros j s Hj. exists (bool_decide (s ∈ tr)), (bool_decide (s ∈ va)).
    unfold Np.isin. rewrite !list_lookup_fmap, Hj. split; [done|]. split; [done|].
    split; [apply Hnot|].
    rewrite orb_true_iff, !bool_decide_eq_true. split.
    + intros Hin. apply elem_of_select_valid_mask, unique_subjects_elem_of.
      rewrite <-Hsplit. by apply elem_of_app.
    + intros Hin%elem_of_select_valid_mask%unique_subjects_elem_of.
      rewrite <-Hsplit in Hin. by apply elem_of_app in Hin.
Qed.

End MaskFacts.

(** ** The cells after the load *)


Section CellFacts.
Context {F : Type} `{SciPy F}.
Context (normalize : list (list F) → list (list F)).


End CellFacts.

(** ** The audio files *)

Lemma assign_gpu_SS i : assign_gpu (S (S i)) = assign_gpu i.
Proof.
  unfold assign_gpu. replace (Z.of_nat (S (S i))) with (Z.of_nat i + 1 * 2) by lia.
  by rewrite Z.mod_add.
Qed.

Lemma assign_gpu_mod i : assign_gpu i = Z.of_nat i mod 2.
Proof.
  unfold assign_gpu. pose proof (Z.mod_pos_bound (Z.of_nat i) 2 ltac:(lia)).
  destruct (Z.eqb_spec (Z.of_nat i mod 2) 0); lia.
Qed.

Lemma file_gpu_pairs_SS (a b : string) files :
  file_gpu_pairs (a :: b :: files) = (a, 0) :: (b, 1) :: file_gpu_pairs files.
Proof.
  unfold file_gpu_pairs. simpl. do 2 f_equal. apply imap_ext.
  intros i f _. simpl. by rewrite assign_gpu_SS.
Qed.

Lemma file_gpu_pairs_count n : ∀ files, (length files ≤ n)%nat →
  length (filter (λ p : string * Z, p.2 = 0) (file_gpu_pairs files))
  = Nat.div2 (S (length files))
  ∧ length (filter (λ p : string * Z, p.2 = 1) (file_gpu_pairs files))
    = Nat.div2 (length files).
Proof.
  induction n as [|n IH]; intros files Hn.
  - destruct files; [done | simpl in Hn; lia].
  - destruct files as [|a [|b files]]; [done | done |].
    rewrite file_gpu_pairs_SS.
    destruct (IH files) as [H0 H1]; [simpl in Hn; lia|].
    rewrite !filter_cons. simpl. rewrite H0, H1. done.
Qed.

(** X13: the files alternate between the two devices.  The pairs keep the
    files in order, the file at position [i] goes to the device [i mod 2],
    and so the first device gets the half of the files rounded up and the
    second the half rounded down. *)
Theorem file_gpu_pairs_alternate files :
  map fst (file_gpu_pairs files) = files
  ∧ (∀ i p, file_gpu_pairs files !! i = Some p → p.2 = Z.of_nat i mod 2)
  ∧ length (filter (λ p : string * Z, p.2 = 0) (file_gpu_pairs files))
    = Nat.div2 (S (length files))
  ∧ length (filter (λ p : string * Z, p.2 = 1) (file_gpu_pairs files))
    = Nat.div2 (length files).
Proof.
  split; [|split].
  - unfold file_gpu_pairs. apply list_eq. intros i.
    rewrite list_lookup_fmap, list_lookup_imap. by destruct (files !! i).
  - intros i p. unfold file_gpu_pairs. rewrite list_lookup_imap.
    destruct (files !! i); [|done]. intros [= <-]. apply assign_gpu_mod.
  - by apply (file_gpu_pairs_count (length files)).
Qed.

Section BatchFacts.
Context {F : Type} `{Libs F}.

Lemma process_audio_file path gpu_id r :
  process_audio (path, gpu_id) = Ok r → file r = Py.basename path.
Proof.
  unfold process_audio. destruct (cuda_set_device gpu_id); step_bind; [|done].
  destruct (embedding path); step_bind; [|by intros [= <-]].
  destruct (musicnn_tags path); step_bind; by intros [= <-].
Qed.

(** X14: the entries carry the names of the directory.  When the batch
    over the audio files of a directory returns, the file names of its
    entries are the names of the directory that end in ".mp3", in the
    order of the listing: the base name of a joined path is the name it was
    joined from. *)
Theorem results_file_names listdir rs :
  Forall (λ f, Py.has_sep f = false) listdir →
  results (audio_files listdir) = Ok rs →
  map file rs = filter (λ f, Py.endswith f ".mp3" = true) listdir.
Proof.
  intros Hsep. unfold results. intros Hrs%pool_map_Ok.
  assert (map file rs = map Py.basename (audio_files listdir)) as ->.
  { apply list_eq. intros i. rewrite !list_lookup_fmap.
    destruct (audio_files listdir !! i) as [path|] eqn:Hpath.
    - assert (file_gpu_pairs (audio_files listdir) !! i = Some (path, assign_gpu i)) as Hpair.
      { unfold file_gpu_pairs. by rewrite list_lookup_imap, Hpath. }
      destruct (Forall2_lookup_l _ _ _ _ _ Hrs Hpair) as (r & -> & Hrun).
      simpl. f_equal. by eapply process_audio_file.
    - apply Forall2_length in Hrs. unfold file_gpu_pairs in Hrs. rewrite length_imap in Hrs.
      apply lookup_ge_None in Hpath. rewrite lookup_ge_None_2; [done | lia]. }
  unfold audio_files. rewrite map_map.
  assert (Forall (λ f, Py.has_sep f = false)
                 (filter (λ f, Py.endswith f ".mp3" = true) listdir)) as Hsep'.
  { apply Forall_forall. intros f [_ Hf]%list_elem_of_filter.
    rewrite Forall_forall in Hsep. by apply Hsep. }
  induction Hsep' as [|f fs Hf _ IH]; [done|]. simpl.
  by rewrite basename_join, IH.
Qed.

End BatchFacts.

(** * Examples and counterexamples *)

Example python_string_examples :
  Py.strip " 5  " = "5"%string ∧ Py.int " 5 " = Ok 5 ∧ Py.int "1_0" = Ok 10
  ∧ Py.int "-12" = Ok (-12) ∧ Py.int "5_" = Raise (ValueError_int "5_")
  ∧ Py.int "_5" = Raise (ValueError_int "_5") ∧ Py.int "+_5" = Raise (ValueError_int "+_5")
  ∧ Py.int "1__0" = Raise (ValueError_int "1__0") ∧ Py.int "+" = Raise (ValueError_int "+")
  ∧ Py.int "- 5" = Raise (ValueError_int "- 5") ∧ Py.int "007" = Ok 7
  ∧ Py.int "" = Raise (ValueError_int "") ∧ Py.isdigit (Py.strip "  ") = false
  ∧ Py.isdigit (Py.strip superscript_two) = true
  ∧ Py.int superscript_two = Raise (ValueError_int superscript_two).
Proof. vm_compute. repeat split. Qed.

(** The scale is the double nearest to 4/700, and the row counts of two
    seconds, ten seconds and the length of a WESAD recording. *)
Example new_len_examples :
  scale = S754_finite false 0x1767dce434a9b1 (-60)
  ∧ new_len 1400 = Ok 8 ∧ new_len 7000 = Ok 40 ∧ new_len 4255300 = Ok 24316
  ∧ new_len 699 = Ok 3 ∧ spec_row_count 699 = Ok 4.
Proof. vm_compute. repeat split. Qed.

(** C1 fails as stated: a label series of 100 samples gives
    [int(100 * 4 / 700) = int(0.57...) = 0] rows where rounding gives 1. *)
Lemma new_len_truncates :
  new_len 100 = Ok 0 ∧ spec_row_count 100 = Ok 1
  ∧ ¬ (∀ len_label, 0 ≤ len_label → new_len len_label = spec_row_count len_label).
Proof.
  split; [by vm_compute|]. split; [by vm_compute|].
  intros Hclaim. specialize (Hclaim 100 ltac:(lia)). vm_compute in Hclaim. done.
Qed.

Lemma load_and_downsample_rows_witness :
  ∃ n signal_list,
    new_len (Z.of_nat (length (label demo_recording))) = Ok n
    ∧ (Z.of_nat (length (label demo_recording)) < 2 ^ 53 →
       n = 4 * Z.of_nat (length (label demo_recording)) / 700)
    ∧ for_each (load_signal demo_recording "chest" n) demo_signals [] = Ok signal_list
    ∧ Forall (λ block : list (list Z), Z.of_nat (length block) = n) signal_list
    ∧ concatenate_axis1 signal_list = Ok demo_X
    ∧ Z.of_nat (length demo_X) = n
    ∧ Z.of_nat (length demo_labels) = n.
Proof.
  apply (load_and_downsample_rows demo_recording demo_signals "chest" demo_X demo_labels).
  vm_compute. reflexivity.
Defined.

(** The default call on exactly 60 rows returns no window, and on 80 rows
    one window, although one window and two windows fit. *)
Example create_windows_exact_fit :
  create_windows_default (replicate 60 ()) (replicate 60 1) = Ok ([], [])
  ∧ create_windows_default (replicate 80 ()) (replicate 80 1)
    = Ok ([replicate 60 ()], [1]).
Proof. vm_compute. split; reflexivity. Qed.

Lemma create_windows_count_witness :
  ∃ ws ls, create_windows (replicate 60 ()) (replicate 60 1) 60 20 = Ok (ws, ls)
           ∧ length ws = 0%nat
           ∧ Z.of_nat (length ws) ≠ (60 - 60) / 20 + 1.
Proof.
  destruct (create_windows_count (replicate 60 ()) (replicate 60 1) 60 20)
    as (ws & ls & Hrun & _ & _ & Hfit).
  - lia.
  - lia.
  - reflexivity.
  - apply Forall_replicate. lia.
  - exists ws, ls. split; [exact Hrun|]. exact (Hfit 0%nat eq_refl).
Defined.

Lemma create_windows_keeps_iff_no_sentinel_witness :
  [[1; 2]; [3; 4]]
  = map (λ i, Np.slice [1; 2; 3; 4; 5; 6; 7] i (i + 2))
        (kept [1; 1; 2; 2; 2; 0; 3] 2 (candidates 7 2 2))
  ∧ Forall2 (λ i l, (0 ∉ window_labels [1; 1; 2; 2; 2; 0; 3] 2 i) ∧ l ≠ 0)
            (kept [1; 1; 2; 2; 2; 0; 3] 2 (candidates 7 2 2)) [1; 2]
  ∧ (∀ i, i ∈ candidates 7 2 2 →
          (i ∈ kept [1; 1; 2; 2; 2; 0; 3] 2 (candidates 7 2 2)
           ↔ 0 ∉ window_labels [1; 1; 2; 2; 2; 0; 3] 2 i))
  ∧ (∀ i, i ∈ candidates 7 2 2 →
          i ∉ kept [1; 1; 2; 2; 2; 0; 3] 2 (candidates 7 2 2) →
          0 ∈ window_labels [1; 1; 2; 2; 2; 0; 3] 2 i).
Proof.
  apply (create_windows_keeps_iff_no_sentinel
           [1; 2; 3; 4; 5; 6; 7] [1; 1; 2; 2; 2; 0; 3] 2 2 [[1; 2]; [3; 4]] [1; 2]).
  vm_compute. reflexivity.
Defined.

Lemma create_windows_label_is_mode_witness :
  ∃ i, kept [1; 2; 2; 1; 3; 3] 4 (candidates 6 4 1) !! 1%nat = Some i
       ∧ [20; 30; 40; 50] = Np.slice [10; 20; 30; 40; 50; 60] i (i + 4)
       ∧ is_mode 2 (window_labels [1; 2; 2; 1; 3; 3] 4 i).
Proof.
  apply (create_windows_label_is_mode
           [10; 20; 30; 40; 50; 60] [1; 2; 2; 1; 3; 3] 4 1
           [[10; 20; 30; 40]; [20; 30; 40; 50]] [1; 2] 1 [20; 30; 40; 50] 2).
  - vm_compute. reflexivity.
  - reflexivity.
  - reflexivity.
Defined.

Lemma fallback_target_rescaled_below_zero_witness :
  ∃ vec, score_vec (extract_panas_scores "S2_quest.csv" demo_quest).1 6 = Ok vec
         ∧ length (map rescale vec) = 7%nat
         ∧ Forall (λ x, F64.ltb x (F64.of_int 0) = true) (map rescale vec).
Proof.
  apply (fallback_target_rescaled_below_zero
           (extract_panas_scores "S2_quest.csv" demo_quest).1 6).
  by vm_compute.
Defined.

(** A subject recorded in condition 6 only: its one window gets the
    fallback vector, and the rescaled target is -0.25 in every coordinate. *)
Example load_wesad_dataset_fallback_rescaled :
  load_wesad_dataset id "../data/WESAD" [Subject "S2" (Some demo_condition6) (Some demo_quest)]
                     ["EDA"]%string "chest"
  = (Ok ([replicate 60 [5]], [6], [replicate 7 0], ["S2"]%string), [])
  ∧ rescale_y_reg [replicate 7 0]
    = [replicate 7 (S754_finite true 4503599627370496 (-54))].
Proof. split; vm_compute; reflexivity. Qed.

Lemma y_reg_assignment_witness :
  ∃ y_reg,
    assign_y_reg (extract_panas_scores "S2_quest.csv" demo_quest).1 [1; 6] = Ok y_reg
    ∧ length TARGET_PANAS = 7%nat
    ∧ Forall2
        (λ label vec,
           length vec = 7%nat
           ∧ (Z.of_nat (length (extract_panas_scores "S2_quest.csv" demo_quest).1) ≤ label - 1 →
              vec = replicate 7 0)
           ∧ (label - 1 < Z.of_nat (length (extract_panas_scores "S2_quest.csv" demo_quest).1) →
              ∃ d, (extract_panas_scores "S2_quest.csv" demo_quest).1 !! Z.to_nat (label - 1)
                   = Some d
                   ∧ Forall2 (λ key v, d !! key = Some v) TARGET_PANAS vec))
        [1; 6] y_reg.
Proof.
  apply (y_reg_assignment "S2_quest.csv" demo_quest
           [(); (); (); (); ()] [1; 1; 6; 6; 6] 2 2 [[(); ()]; [(); ()]] [1; 6]).
  vm_compute. reflexivity.
Defined.

Lemma extract_panas_scores_row_witness :
  ∃ d, contribution "S2_quest.csv" row_of_threes = ([d], [])
       ∧ d !! "Stressed"%string = Some 3
       ∧ d !! "Tired"%string = None.
Proof.
  destruct (extract_panas_scores_row "S2_quest.csv" [] row_of_threes [])
    as (_ & _ & _ & Haccepted & _).
  destruct (Haccepted eq_refl (replicate 26 3)) as (d & Hd & Hkeys & Hrest).
  - assert (numeric_fields row_of_threes = replicate 26 "3"%string) as ->
      by (vm_compute; reflexivity).
    repeat constructor.
  - simpl. lia.
  - exists d. split; [exact Hd|]. split.
    + exact (Hkeys 20%nat "Stressed"%string eq_refl).
    + apply Hrest. intros Hin. vm_compute in Hin.
      repeat (apply elem_of_cons in Hin as [Hin|Hin]; [discriminate Hin|]).
      by apply elem_of_nil in Hin.
Defined.

Lemma extract_panas_scores_values_witness :
  extract_panas_scores "S2_quest.csv"
    ([] ++ ("# PANAS"%string :: [] ++ "n/a"%string :: replicate 26 "3"%string) :: [])
  = extract_panas_scores "S2_quest.csv"
      ([] ++ ("# PANAS"%string :: [] ++ replicate 26 "3"%string) :: []).
Proof.
  destruct (extract_panas_scores_values "S2_quest.csv"
              ([] ++ ("# PANAS"%string :: [] ++ "n/a"%string :: replicate 26 "3"%string) :: []))
    as [_ Hdrop].
  exact (Hdrop [] "# PANAS"%string [] "n/a"%string (replicate 26 "3"%string) []
               eq_refl eq_refl).
Defined.

Lemma results_entries_witness :
  ∃ rs, Audio.results ["downloads/a.mp3"; "downloads/broken.mp3"; "downloads/c.mp3"]%string
        = Ok rs
        ∧ length rs = 3%nat
        ∧ ∀ i path,
            ["downloads/a.mp3"; "downloads/broken.mp3"; "downloads/c.mp3"]%string !! i
            = Some path →
            ∃ r, rs !! i = Some r ∧ entry_for path r.
Proof.
  apply (results_entries
           ["downloads/a.mp3"; "downloads/broken.mp3"; "downloads/c.mp3"]%string);
    reflexivity.
Defined.

(** The entries of that batch: the file that cannot be decoded has an
    error entry between two success entries. *)
Example results_two_gpus :
  Audio.results ["downloads/a.mp3"; "downloads/broken.mp3"; "downloads/c.mp3"]%string
  = Ok [ Audio.Success "a.mp3" (replicate 512 0) [("rock"%string, 1)];
         Audio.Error "broken.mp3" "invalid literal";
         Audio.Success "c.mp3" (replicate 512 0) [("rock"%string, 1)] ].
Proof. vm_compute. reflexivity. Qed.

(** C9 fails as stated: on a machine with one device, selecting device 1
    for the second file raises outside the guarded block, [pool.map] raises
    it again, and the batch returns no list at all. *)
Lemma results_abort_without_second_gpu :
  @Audio.results Z one_gpu ["downloads/a.mp3"; "downloads/b.mp3"]%string
  = Raise (RuntimeError_cuda 1)
  ∧ ¬ ∃ rs, @Audio.results Z one_gpu ["downloads/a.mp3"; "downloads/b.mp3"]%string = Ok rs
            ∧ length rs = 2%nat.
Proof.
  assert (@Audio.results Z one_gpu ["downloads/a.mp3"; "downloads/b.mp3"]%string
          = Raise (RuntimeError_cuda 1)) as Hrun by (vm_compute; reflexivity).
  split; [exact Hrun|]. intros (rs & Hrs & _). by rewrite Hrun in Hrs.
Qed.

Lemma load_and_downsample_pairings_witness :
  load_signal demo_recording "chest" 8 [] "BVP" = Ok []
  ∧ (∃ X labels, load_and_downsample demo_recording demo_signals "chest" = Ok (X, labels))
  ∧ load_and_downsample demo_recording ["BVP"]%string "chest" = Raise ValueError_concatenate.
Proof.
  split; [|split].
  - destruct (load_and_downsample_pairings demo_recording demo_signals "chest")
      as (Hskip & _ & _).
    apply (Hskip 8 [] "BVP"%string {[ "chest" := None; "wrist" := Some "BVP" ]}%string).
    + by left.
    + reflexivity.
    + reflexivity.
  - destruct (load_and_downsample_pairings demo_recording demo_signals "chest")
      as (_ & Hsome & _).
    destruct Hsome as [_ Hreturns].
    { exists "EDA"%string. split; [by left|]. by vm_compute. }
    apply (Hreturns 8).
    + vm_compute. reflexivity.
    + intros sig Hsig. unfold demo_signals in Hsig.
      rewrite !elem_of_cons, elem_of_nil in Hsig.
      destruct Hsig as [->|[->|[->|[->|[]]]]]; eexists; reflexivity.
    + intros sig part key Hsig Hpair. unfold demo_signals in Hsig.
      rewrite !elem_of_cons, elem_of_nil in Hsig.
      destruct Hsig as [->|[->|[->|[->|[]]]]]; vm_compute in Hpair;
        repeat (apply elem_of_cons in Hpair as [Hpair|Hpair];
                [injection Hpair as -> ->; eexists _, _; split; reflexivity|]);
        by apply elem_of_nil in Hpair.
    + intros x. by eexists.
    + intros x. by eexists.
  - destruct (load_and_downsample_pairings demo_recording ["BVP"]%string "chest")
      as (_ & _ & Hnone).
    destruct Hnone as (e & Hrun & He).
    { intros sig ->%list_elem_of_singleton. vm_compute. reflexivity. }
    rewrite Hrun. f_equal. apply He.
    + intros sig ->%list_elem_of_singleton. eexists. reflexivity.
    + exists 8. vm_compute. reflexivity.
Defined.

Lemma create_windows_whole_windows_witness :
  length [1] = length [replicate 60 ()]
  ∧ Forall (λ win, length win = 60%nat
                   ∧ ∃ i, (i + 60 < length (replicate 80 ()))%nat
                          ∧ win = Np.slice (replicate 80 ()) i (i + 60))
           [replicate 60 ()]
  ∧ ((length (replicate 80 ()) ≤ 60)%nat → [replicate 60 ()] = [] ∧ [1] = []).
Proof.
  apply (create_windows_whole_windows (replicate 80 ()) (replicate 80 1) 60 20).
  vm_compute. reflexivity.
Defined.

Lemma load_and_downsample_layout_witness :
  (∀ sig, sig ∈ demo_signals → is_Some (SIGNAL_MAP !! sig))
  ∧ sources_read "chest" demo_signals ≠ []
  ∧ ∃ n blocks,
      new_len (Z.of_nat (length (label demo_recording))) = Ok n
      ∧ Forall2 (resampled_source demo_recording n) (sources_read "chest" demo_signals) blocks
      ∧ ∀ r, (r < length demo_X)%nat → demo_X !! r = Some (row_across blocks r).
Proof.
  apply (load_and_downsample_layout demo_recording demo_signals "chest" demo_X demo_labels).
  vm_compute. reflexivity.
Defined.

Lemma load_and_downsample_KeyError_witness :
  load_and_downsample demo_recording (["EDA"%string] ++ ["Temp"%string]) "chest"
  = Raise (KeyError "Temp")
  ∧ load_and_downsample demo_condition6 ([] ++ ["EDA"%string]) "wrist"
    = Raise (KeyError "wrist")
  ∧ load_and_downsample demo_recording ([] ++ ["EDA"%string; "BVP"%string]) "wrist"
    = Raise (KeyError "EDA").
Proof.
  split; [|split].
  - refine (proj1 (load_and_downsample_KeyError demo_recording ["EDA"%string] "Temp" []
                     "chest" 8 [demo_EDA_block] _ _) _); vm_compute; reflexivity.
  - refine (proj1 (proj2 (load_and_downsample_KeyError demo_condition6 [] "EDA" []
                            "wrist" 80 [] _ _)) "wrist"%string "EDA"%string [] _ _);
      vm_compute; reflexivity.
  - refine (proj2 (proj2 (load_and_downsample_KeyError demo_recording [] "EDA" ["BVP"%string]
                            "wrist" 8 [] _ _)) "wrist"%string "EDA"%string []
                  {[ "BVP" := Arr1 (map Z.of_nat (seq 0 128)) ]}%string _ _ _);
      vm_compute; reflexivity.
Defined.

Lemma load_wesad_dataset_aligned_witness :
  length [6] = length [replicate 60 [5]]
  ∧ length [replicate 7 0] = length [replicate 60 [5]]
  ∧ length ["S2"%string] = length [replicate 60 [5]]
  ∧ Forall (λ win, length win = 60%nat) [replicate 60 [5]]
  ∧ Forall (λ l, 1 ≤ l) [6]
  ∧ Forall (λ vec, length vec = 7%nat) [replicate 7 0]
  ∧ Forall (λ id, ∃ s, s ∈ demo_listing ∧ subject_dir s = id
                       ∧ Py.startswith id "S" = true
                       ∧ is_Some (pkl s) ∧ is_Some (quest s)) ["S2"%string].
Proof.
  apply (load_wesad_dataset_aligned id "../data/WESAD" demo_listing ["EDA"%string] "chest").
  vm_compute. reflexivity.
Defined.

Lemma load_wesad_dataset_passes_over_witness :
  (load_wesad_dataset id "../data/WESAD"
     ([Subject "S2" (Some demo_condition6) (Some demo_quest)]
      ++ Subject "S4" (Some demo_wrist_only) (Some demo_quest) :: [])
     ["EDA"%string] "chest").1
  = (load_wesad_dataset id "../data/WESAD"
       ([Subject "S2" (Some demo_condition6) (Some demo_quest)] ++ [])
       ["EDA"%string] "chest").1.
Proof.
  apply (load_wesad_dataset_passes_over id "../data/WESAD").
  right. right. right. exists demo_wrist_only, demo_quest, (KeyError "chest").
  split; [reflexivity|]. split; [reflexivity|]. intros quest_path. vm_compute. reflexivity.
Defined.

Lemma load_wesad_dataset_nothing_loaded_witness :
  (load_wesad_dataset id "../data/WESAD"
     [Subject "S3" None (Some demo_quest); Subject "notes" None None]
     ["EDA"%string] "chest").1
  = Raise ValueError_concatenate.
Proof.
  apply (load_wesad_dataset_nothing_loaded id "../data/WESAD").
  intros s [->|Hs]%elem_of_cons; [right; left; reflexivity|].
  apply elem_of_cons in Hs as [->|Hs]; [left; reflexivity|].
  by apply elem_of_nil in Hs.
Defined.

Lemma apply_masking_classes_witness :
  ∃ X' y_cls' subject_ids',
    apply_masking ["w0"; "w1"; "w2"]%string [1; 5; 4] ["S2"; "S2"; "S3"]%string
    = Ok (X', y_cls', subject_ids')
    ∧ length y_cls' = length X' ∧ length subject_ids' = length X'
    ∧ Forall (λ l, 0 ≤ l ≤ 3) y_cls'
    ∧ zip X' (zip y_cls' subject_ids')
      = omap (λ '(win, (l, id)),
                if (1 <=? l) && (l <=? 4) then Some (win, (l - 1, id)) else None)
             (zip ["w0"; "w1"; "w2"]%string (zip [1; 5; 4] ["S2"; "S2"; "S3"]%string)).
Proof.
  apply (apply_masking_classes ["w0"; "w1"; "w2"]%string [1; 5; 4] ["S2"; "S2"; "S3"]%string);
    reflexivity.
Defined.

Lemma split_by_subject_partition_witness :
  ∃ X_train y_train X_val y_val,
    split_by_subject ["w0"; "w1"; "w2"]%string [0; 1; 3] ["S2"; "S2"; "S3"]%string
                     ["S3"%string] ["S2"%string]
    = Ok (X_train, y_train, (X_val, y_val))
    ∧ length y_train = length X_train ∧ length y_val = length X_val
    ∧ (length X_train + length X_val = length ["w0"; "w1"; "w2"]%string)%nat
    ∧ Np.isin ["S2"; "S2"; "S3"]%string ["S2"%string]
      = map negb (Np.isin ["S2"; "S2"; "S3"]%string ["S3"%string])
    ∧ Forall (λ s, s ∈ ["S3"%string] ∧ s ∉ ["S2"%string])
             (Np.select ["S2"; "S2"; "S3"]%string
                        (Np.isin ["S2"; "S2"; "S3"]%string ["S3"%string]))
    ∧ Forall (λ s, s ∈ ["S2"%string] ∧ s ∉ ["S3"%string])
             (Np.select ["S2"; "S2"; "S3"]%string
                        (Np.isin ["S2"; "S2"; "S3"]%string ["S2"%string])).
Proof.
  apply (split_by_subject_partition ["w0"; "w1"; "w2"]%string [0; 1; 3]
           ["S2"; "S2"; "S3"]%string ["S3"%string] ["S2"%string]);
    [reflexivity | reflexivity |].
  vm_compute. apply perm_swap.
Defined.

Lemma split_by_subject_regression_witness :
  ∃ X_train y_train X_val y_val,
    split_by_subject ["w0"; "w1"; "w2"]%string [[1]; [2]; [0]] ["S2"; "S2"; "S3"]%string
                     ["S2"%string] []
    = Ok (X_train, y_train, (X_val, y_val))
    ∧ (length X_train + length X_val ≤ length ["w0"; "w1"; "w2"]%string)%nat
    ∧ ∀ j s, ["S2"; "S2"; "S3"]%string !! j = Some s →
        ∃ in_train in_val,
          Np.isin ["S2"; "S2"; "S3"]%string ["S2"%string] !! j = Some in_train
          ∧ Np.isin ["S2"; "S2"; "S3"]%string [] !! j = Some in_val
          ∧ in_train && in_val = false
          ∧ (in_train || in_val = true
             ↔ ∃ k l, ["S2"; "S2"; "S3"]%string !! k = Some s ∧ [1; 5; 6] !! k = Some l
                      ∧ 1 ≤ l ≤ 4).
Proof.
  apply (split_by_subject_regression ["w0"; "w1"; "w2"]%string [[1]; [2]; [0]] [1; 5; 6]
           ["S2"; "S2"; "S3"]%string ["w0"%string] [0] ["S2"%string] ["S2"%string] []);
    [reflexivity | reflexivity | reflexivity | reflexivity |].
  vm_compute. reflexivity.
Defined.


Lemma results_file_names_witness :
  map file [Success "a.mp3" (replicate 512 0) [("rock"%string, 1)];
            Error "broken.mp3" "invalid literal"]
  = filter (λ f, Py.endswith f ".mp3" = true) ["a.mp3"; "notes.txt"; "broken.mp3"]%string.
Proof.
  apply (results_file_names ["a.mp3"; "notes.txt"; "broken.mp3"]%string).
  - repeat constructor.
  - vm_compute. reflexivity.
Defined.

Lemma create_windows_after_load_witness :
  is_Ok (create_windows demo_X demo_labels 2 2)
  ↔ ∀ i, i ∈ candidates (length demo_X) 2 2 → 0 ∉ window_labels demo_labels 2 i →
         Forall (λ v, 0 ≤ v) (window_labels demo_labels 2 i).
Proof.
  apply (create_windows_after_load demo_recording demo_signals "chest" demo_X demo_labels);
    [vm_compute; reflexivity | reflexivity | lia | lia].
Defined.

Lemma score_vec_rescaled_unit_interval_witness :
  length (map rescale [3; 3; 3; 3; 3; 3; 3]) = 7%nat
  ∧ Forall (λ x, F64.leb (F64.of_int 0) x = true ∧ F64.leb x (F64.of_int 1) = true)
           (map rescale [3; 3; 3; 3; 3; 3; 3]).
Proof.
  apply (score_vec_rescaled_unit_interval
           (extract_panas_scores "S2_quest.csv" [row_of_threes]).1 1 [3; 3; 3; 3; 3; 3; 3]).
  - vm_compute. reflexivity.
  - vm_compute. reflexivity.
  - assert (forallb (λ d : gmap string Z,
                       forallb (λ key, match d !! key with
                                       | Some v => (1 <=? v) && (v <=? 5)
                                       | None => true
                                       end) TARGET_PANAS)
                    (extract_panas_scores "S2_quest.csv" [row_of_threes]).1 = true) as Hall.
    { vm_compute. reflexivity. }
    intros d key v Hd%list_elem_of_In Hkey%list_elem_of_In Hv.
    rewrite forallb_forall in Hall. specialize (Hall d Hd).
    rewrite forallb_forall in Hall. specialize (Hall key Hkey).
    rewrite Hv in Hall. lia.
Defined.
